(** * MultiXact write path and redo: a shallow embedding of [multixact_hack]

    The development follows the C translation unit that keeps the
    MultiXact offset and member SLRU areas up to date while replaying
    the write-ahead log: the page-layout macros, the wraparound-aware
    comparisons, [RecordNewMultiXact], [MultiXactAdvanceNextMXact] and
    [multixact_redo].

    Conventions.  C integers are mathematical integers ([Z]) with the
    wrap-around of each C type written out ([u32], [s32], ...).  A page
    buffer ([char[BLCKSZ]]) is the little-endian integer of its bytes:
    byte [k] of the page is bits [8k .. 8k+7].  Process termination
    ([exit(1)], a failed [Assert], a failed page read) is an explicit
    outcome that carries the state reached. *)

From Stdlib Require Import ZArith Lia Bool List String.
From stdpp Require Import base option gmap.

Local Open Scope Z_scope.

(** ** Machine integers *)

(** Conversion to [uint8], [uint32], [size_t] and to [int32] / [int]. *)
Definition u8 (x : Z) : Z := x mod 2 ^ 8.
Definition u32 (x : Z) : Z := x mod 2 ^ 32.
Definition usize (x : Z) : Z := x mod 2 ^ 64.
Definition s32 (x : Z) : Z :=
  let r := x mod 2 ^ 32 in if r <? 2 ^ 31 then r else r - 2 ^ 32.

(** [sizeof] of the 32-bit typedefs used by the layout macros. *)
Definition sizeof_MultiXactOffset : Z := 4.
Definition sizeof_TransactionId : Z := 4.

(** ** Build configuration

    The constants below come from headers that are not part of the
    sources at hand ([pg_config.h], [access/transam.h],
    [access/multixact.h], [access/xlog.h]); they are parameters of the
    development. *)
Record Config : Type := {
  cfg_BLCKSZ : Z;
  cfg_USE_ASSERT_CHECKING : bool;
  cfg_FirstNormalTransactionId : Z;
  cfg_MultiXactStatusUpdate : Z;
  cfg_XLR_INFO_MASK : Z;
  cfg_XLR_BKP_BLOCK_MASK : Z;
  cfg_XLOG_MULTIXACT_ZERO_OFF_PAGE : Z;
  cfg_XLOG_MULTIXACT_ZERO_MEM_PAGE : Z;
  cfg_XLOG_MULTIXACT_CREATE_ID : Z
}.

(** The usual PostgreSQL build: 8 kB blocks, no assertion checking. *)
Definition pg_default : Config := {|
  cfg_BLCKSZ := 8192;
  cfg_USE_ASSERT_CHECKING := false;
  cfg_FirstNormalTransactionId := 3;
  cfg_MultiXactStatusUpdate := 5;
  cfg_XLR_INFO_MASK := 15;
  cfg_XLR_BKP_BLOCK_MASK := 15;
  cfg_XLOG_MULTIXACT_ZERO_OFF_PAGE := 0;
  cfg_XLOG_MULTIXACT_ZERO_MEM_PAGE := 16;
  cfg_XLOG_MULTIXACT_CREATE_ID := 32
|}.

(** The same build with [--enable-cassert]. *)
Definition pg_cassert : Config := {|
  cfg_BLCKSZ := 8192;
  cfg_USE_ASSERT_CHECKING := true;
  cfg_FirstNormalTransactionId := 3;
  cfg_MultiXactStatusUpdate := 5;
  cfg_XLR_INFO_MASK := 15;
  cfg_XLR_BKP_BLOCK_MASK := 15;
  cfg_XLOG_MULTIXACT_ZERO_OFF_PAGE := 0;
  cfg_XLOG_MULTIXACT_ZERO_MEM_PAGE := 16;
  cfg_XLOG_MULTIXACT_CREATE_ID := 32
|}.

(** What the code needs of a configuration: a block holds at least one
    member group and its size is an [int]; the first normal transaction
    id lies in the lower half of the id space; the status bound is a
    byte; the three record kinds are distinct. *)
Definition config_ok (cfg : Config) : Prop :=
  20 <= cfg_BLCKSZ cfg < 2 ^ 31 /\
  0 <= cfg_FirstNormalTransactionId cfg < 2 ^ 31 /\
  0 <= cfg_MultiXactStatusUpdate cfg < 2 ^ 8 /\
  cfg_XLOG_MULTIXACT_ZERO_OFF_PAGE cfg <> cfg_XLOG_MULTIXACT_ZERO_MEM_PAGE cfg /\
  cfg_XLOG_MULTIXACT_ZERO_OFF_PAGE cfg <> cfg_XLOG_MULTIXACT_CREATE_ID cfg /\
  cfg_XLOG_MULTIXACT_ZERO_MEM_PAGE cfg <> cfg_XLOG_MULTIXACT_CREATE_ID cfg.

(** ** Circular comparisons (no configuration involved) *)

Definition MultiXactIdPrecedes (multi1 multi2 : Z) : bool :=
  let diff := s32 (u32 (multi1 - multi2)) in
  diff <? 0.

Definition MultiXactIdPrecedesOrEquals (multi1 multi2 : Z) : bool :=
  let diff := s32 (u32 (multi1 - multi2)) in
  diff <=? 0.

Definition MultiXactOffsetPrecedes (offset1 offset2 : Z) : bool :=
  let diff := s32 (u32 (offset1 - offset2)) in
  diff <? 0.

(** The comparison the specification calls [precedes]: the sign of the
    32-bit difference. *)
Definition circular_precedes (a b : Z) : bool := s32 (a - b) <? 0.
Definition circular_follows_or_equals (a b : Z) : bool := 0 <=? s32 (a - b).

Section Layout.
Context (cfg : Config).

Local Abbreviation BLCKSZ := (cfg_BLCKSZ cfg).

(** *** Page-layout macros *)

Definition MULTIXACT_OFFSETS_PER_PAGE : Z :=
  usize (BLCKSZ / sizeof_MultiXactOffset).

Definition MultiXactIdToOffsetPage (xid : Z) : Z :=
  xid / u32 MULTIXACT_OFFSETS_PER_PAGE.
Definition MultiXactIdToOffsetEntry (xid : Z) : Z :=
  xid mod u32 MULTIXACT_OFFSETS_PER_PAGE.

Definition MXACT_MEMBER_BITS_PER_XACT : Z := 8.
Definition MXACT_MEMBER_FLAGS_PER_BYTE : Z := 1.
Definition MXACT_MEMBER_XACT_BITMASK : Z :=
  Z.shiftl 1 MXACT_MEMBER_BITS_PER_XACT - 1.

Definition MULTIXACT_FLAGBYTES_PER_GROUP : Z := 4.
Definition MULTIXACT_MEMBERS_PER_MEMBERGROUP : Z :=
  MULTIXACT_FLAGBYTES_PER_GROUP * MXACT_MEMBER_FLAGS_PER_BYTE.
Definition MULTIXACT_MEMBERGROUP_SIZE : Z :=
  usize (sizeof_TransactionId * MULTIXACT_MEMBERS_PER_MEMBERGROUP
         + MULTIXACT_FLAGBYTES_PER_GROUP).
Definition MULTIXACT_MEMBERGROUPS_PER_PAGE : Z :=
  usize (BLCKSZ / MULTIXACT_MEMBERGROUP_SIZE).
Definition MULTIXACT_MEMBERS_PER_PAGE : Z :=
  usize (MULTIXACT_MEMBERGROUPS_PER_PAGE * MULTIXACT_MEMBERS_PER_MEMBERGROUP).

Definition MAX_MEMBERS_IN_LAST_MEMBERS_PAGE : Z :=
  u32 (4294967295 mod MULTIXACT_MEMBERS_PER_PAGE + 1).

(** page in which a member is to be found *)
Definition MXOffsetToMemberPage (xid : Z) : Z :=
  xid / u32 MULTIXACT_MEMBERS_PER_PAGE.

(** byte offset within the page of the flag word of a member *)
Definition MXOffsetToFlagsOffset (xid : Z) : Z :=
  u32 (((xid / u32 MULTIXACT_MEMBERS_PER_MEMBERGROUP)
          mod u32 MULTIXACT_MEMBERGROUPS_PER_PAGE)
       * u32 MULTIXACT_MEMBERGROUP_SIZE).
Definition MXOffsetToFlagsBitShift (xid : Z) : Z :=
  u32 ((xid mod u32 MULTIXACT_MEMBERS_PER_MEMBERGROUP)
       * MXACT_MEMBER_BITS_PER_XACT).

(** byte offset within the page of the TransactionId of a member *)
Definition MXOffsetToMemberOffset (xid : Z) : Z :=
  usize (u32 (MXOffsetToFlagsOffset xid + MULTIXACT_FLAGBYTES_PER_GROUP)
         + usize ((xid mod u32 MULTIXACT_MEMBERS_PER_MEMBERGROUP)
                  * sizeof_TransactionId)).

End Layout.

Section TransactionIds.
Context (cfg : Config).

Local Abbreviation FirstNormalTransactionId := (cfg_FirstNormalTransactionId cfg).

(** Modelled from the spec: [access/transam.h] is not among the
    sources.  The ids below [FirstNormalTransactionId] are the
    "reserved special ids" of the specification; every other id is
    normal. *)
Definition TransactionIdIsNormal (xid : Z) : bool :=
  FirstNormalTransactionId <=? xid.

(** Modelled from the spec: the macro that steps a transaction id
    "one past", "skipping reserved special ids": increment modulo
    2^32, and restart at the first normal id when the result is a
    reserved one. *)
Definition TransactionIdAdvance (dest : Z) : Z :=
  let dest := u32 (dest + 1) in
  if dest <? FirstNormalTransactionId then FirstNormalTransactionId else dest.

Definition TransactionIdPrecedes (id1 id2 : Z) : bool :=
  if negb (TransactionIdIsNormal id1) || negb (TransactionIdIsNormal id2)
  then id1 <? id2
  else
    let diff := s32 (u32 (id1 - id2)) in
    diff <? 0.

Definition TransactionIdFollowsOrEquals (id1 id2 : Z) : bool :=
  if negb (TransactionIdIsNormal id1) || negb (TransactionIdIsNormal id2)
  then id2 <=? id1
  else
    let diff := s32 (u32 (id1 - id2)) in
    0 <=? diff.

End TransactionIds.

(** ** Pages

    A page buffer is the little-endian integer of its [BLCKSZ] bytes.
    The accessors below are the [uint32] loads and stores the C code
    performs through casted pointers into a buffer. *)

Definition page_get_byte (page : Z) (k : Z) : Z :=
  Z.land (Z.shiftr page (8 * k)) (Z.ones 8).

Definition page_load32 (page : Z) (off : Z) : Z :=
  Z.land (Z.shiftr page (8 * off)) (Z.ones 32).

Definition page_store32 (page : Z) (off v : Z) : Z :=
  Z.lor (Z.ldiff page (Z.shiftl (Z.ones 32) (8 * off)))
        (Z.shiftl (Z.land v (Z.ones 32)) (8 * off)).

(** ** Program state *)

(** Modelled from the spec: the paged record store ([access/slru.h],
    [slru.c]) is an external collaborator of which only the contract is
    given.  A store is its slot cache ([page_buffer], [page_dirty]) and
    its backing file ([slru_file], page number to page image).  The
    cache is unbounded and a slot is named by the page it holds; the
    replacement policy is outside this development. *)
Record SlruSharedData : Type := {
  page_buffer : gmap Z Z;
  page_dirty : gmap Z bool;
  slru_file : gmap Z Z
}.

Record MultiXactStateData : Type := {
  nextMXact : Z;
  nextOffset : Z
}.

(** Modelled from the spec: [access/multixact.h] is not among the
    sources.  A member is a 32-bit transaction id and a status code
    that fits one byte ([member_ok] below states the ranges). *)
Record MultiXactMember : Type := {
  xid : Z;
  status : Z
}.

Inductive SlruCtl : Type := MultiXactOffsetCtl | MultiXactMemberCtl.

(** Calls that leave the translation unit, in program order. *)
Inductive Event : Type :=
| EvSimpleLruReadPage (ctl : SlruCtl) (pageno : Z) (xid : Z)
| EvSimpleLruZeroPage (ctl : SlruCtl) (pageno : Z)
| EvSimpleLruWritePage (ctl : SlruCtl) (slotno : Z)
| EvXLogInsert (info : Z) (pageno : Z).

(** [MultiXactState] is a pointer: [None] is the null pointer the
    static variable starts with. *)
Record State : Type := {
  MultiXactOffsetCtlData : SlruSharedData;
  MultiXactMemberCtlData : SlruSharedData;
  MultiXactState : option MultiXactStateData;
  ShmemVariableCache_nextXid : Z;
  calls : list Event
}.

Definition shared (ctl : SlruCtl) (st : State) : SlruSharedData :=
  match ctl with
  | MultiXactOffsetCtl => MultiXactOffsetCtlData st
  | MultiXactMemberCtl => MultiXactMemberCtlData st
  end.

Definition set_shared (ctl : SlruCtl) (sh : SlruSharedData) (st : State) : State :=
  match ctl with
  | MultiXactOffsetCtl =>
      {| MultiXactOffsetCtlData := sh;
         MultiXactMemberCtlData := MultiXactMemberCtlData st;
         MultiXactState := MultiXactState st;
         ShmemVariableCache_nextXid := ShmemVariableCache_nextXid st;
         calls := calls st |}
  | MultiXactMemberCtl =>
      {| MultiXactOffsetCtlData := MultiXactOffsetCtlData st;
         MultiXactMemberCtlData := sh;
         MultiXactState := MultiXactState st;
         ShmemVariableCache_nextXid := ShmemVariableCache_nextXid st;
         calls := calls st |}
  end.

Definition set_nextXid (x : Z) (st : State) : State :=
  {| MultiXactOffsetCtlData := MultiXactOffsetCtlData st;
     MultiXactMemberCtlData := MultiXactMemberCtlData st;
     MultiXactState := MultiXactState st;
     ShmemVariableCache_nextXid := x;
     calls := calls st |}.

Definition log_call (e : Event) (st : State) : State :=
  {| MultiXactOffsetCtlData := MultiXactOffsetCtlData st;
     MultiXactMemberCtlData := MultiXactMemberCtlData st;
     MultiXactState := MultiXactState st;
     ShmemVariableCache_nextXid := ShmemVariableCache_nextXid st;
     calls := calls st ++ [e] |}.

(** ** Outcomes and the state monad *)

(** Ways the process stops: [exit(1)] after a message on stderr, a
    failed [Assert], a failed page read (fatal in the store), and an
    access outside the memory the program owns (a slot that holds no
    page, bytes outside a page buffer, the null [MultiXactState]). *)
Inductive Fault : Type :=
| ExitFailure (stderr : string) (arg : option Z)
| AssertFailed
| IoError
| MemoryFault.

Inductive Outcome (A : Type) : Type :=
| Ok (a : A) (st : State)
| Stop (f : Fault) (st : State).
Arguments Ok {A} a st.
Arguments Stop {A} f st.

Definition M (A : Type) : Type := State -> Outcome A.

Definition ret {A : Type} (a : A) : M A := fun st => Ok a st.

Definition bind {A B : Type} (m : M A) (k : A -> M B) : M B :=
  fun st =>
    match m st with
    | Ok a st' => k a st'
    | Stop f st' => Stop f st'
    end.

Definition stop {A : Type} (f : Fault) : M A := fun st => Stop f st.

Declare Scope cmd_scope.
Delimit Scope cmd_scope with cmd.
Notation "'let*' x ':=' c1 'in' c2" := (bind c1 (fun x => c2))
  (at level 10, x name, c1 at level 100, c2 at level 200) : cmd_scope.
Notation "c1 ;; c2" := (bind c1 (fun _ => c2))
  (at level 100, c2 at level 200, right associativity) : cmd_scope.
Local Open Scope cmd_scope.

(** The state an outcome ends in. *)
Definition final_state {A : Type} (o : Outcome A) : State :=
  match o with
  | Ok _ st => st
  | Stop _ st => st
  end.

(** ** WAL records *)

Record xl_multixact_create : Type := {
  mid : Z;
  moff : Z;
  members : list MultiXactMember
}.

(** [nmembers] is the length of the member array that follows it. *)
Definition nmembers (xlrec : xl_multixact_create) : Z :=
  Z.of_nat (length (members xlrec)).

(** The payload [XLogRecGetData] points to: a page number for the two
    zero-page kinds, a create record for the create kind. *)
Inductive XLogData : Type :=
| DataPageno (pageno : Z)
| DataCreate (xlrec : xl_multixact_create).

Record XLogRecord : Type := {
  xl_info : Z;
  xl_xid : Z;
  XLogRecGetData : XLogData
}.

Section Program.
Context (cfg : Config).

Local Abbreviation BLCKSZ := (cfg_BLCKSZ cfg).
Local Abbreviation USE_ASSERT_CHECKING := (cfg_USE_ASSERT_CHECKING cfg).
Local Abbreviation MultiXactStatusUpdate := (cfg_MultiXactStatusUpdate cfg).
Local Abbreviation XLR_INFO_MASK := (cfg_XLR_INFO_MASK cfg).
Local Abbreviation XLR_BKP_BLOCK_MASK := (cfg_XLR_BKP_BLOCK_MASK cfg).
Local Abbreviation XLOG_MULTIXACT_ZERO_OFF_PAGE :=
  (cfg_XLOG_MULTIXACT_ZERO_OFF_PAGE cfg).
Local Abbreviation XLOG_MULTIXACT_ZERO_MEM_PAGE :=
  (cfg_XLOG_MULTIXACT_ZERO_MEM_PAGE cfg).
Local Abbreviation XLOG_MULTIXACT_CREATE_ID :=
  (cfg_XLOG_MULTIXACT_CREATE_ID cfg).

(** *** Primitive commands *)

(** [Assert(cond)]: checked only in an assertion-enabled build. *)
Definition Assert (cond : State -> bool) : M unit :=
  fun st =>
    if USE_ASSERT_CHECKING && negb (cond st)
    then Stop AssertFailed st
    else Ok tt st.

(** [fprintf(stderr, ...); exit(1)]. *)
Definition exit_failure {A : Type} (stderr : string) (arg : option Z) : M A :=
  stop (ExitFailure stderr arg).

(** Modelled from the spec: [readPage] "returns the cached slot for a
    page, loading it from the backing file if not resident"; a read
    that cannot be served (no such page in the file) is the fatal I/O
    error.  The "fixed-size slot-replacement policy" of the
    specification is not modelled: the cache is unbounded, a slot is
    named by its page number, and a read neither evicts a slot nor
    writes one out.  What is proved about the content of pages, read
    through the cache, and about the calls the code makes does not
    depend on that; what a read leaves in the slot table or in the
    backing file of another page does, and holds of this model of the
    store only. *)
Definition SimpleLruReadPage (ctl : SlruCtl) (pageno : Z) (write_ok : bool)
    (xid : Z) : M Z :=
  fun st =>
    let st := log_call (EvSimpleLruReadPage ctl pageno xid) st in
    let sh := shared ctl st in
    match page_buffer sh !! pageno with
    | Some _ => Ok pageno st
    | None =>
        match slru_file sh !! pageno with
        | Some image =>
            Ok pageno
               (set_shared ctl
                  {| page_buffer := <[pageno := image]> (page_buffer sh);
                     page_dirty := <[pageno := false]> (page_dirty sh);
                     slru_file := slru_file sh |} st)
        | None => Stop IoError st
        end
    end.

(** Modelled from the spec: [zeroPage] "allocates/overwrites a page
    in the cache with all-zero content, marks it valid and dirty". *)
Definition SimpleLruZeroPage (ctl : SlruCtl) (pageno : Z) : M Z :=
  fun st =>
    let st := log_call (EvSimpleLruZeroPage ctl pageno) st in
    let sh := shared ctl st in
    Ok pageno
       (set_shared ctl
          {| page_buffer := <[pageno := 0]> (page_buffer sh);
             page_dirty := <[pageno := true]> (page_dirty sh);
             slru_file := slru_file sh |} st).

(** Modelled from the spec: [writePage] "flushes a dirty slot to its
    backing file; clears the dirty bit". *)
Definition SimpleLruWritePage (ctl : SlruCtl) (slotno : Z) : M unit :=
  fun st =>
    let st := log_call (EvSimpleLruWritePage ctl slotno) st in
    let sh := shared ctl st in
    match page_buffer sh !! slotno with
    | Some image =>
        Ok tt
           (set_shared ctl
              {| page_buffer := page_buffer sh;
                 page_dirty := <[slotno := false]> (page_dirty sh);
                 slru_file := <[slotno := image]> (slru_file sh) |} st)
    | None => Stop MemoryFault st
    end.

(** Modelled from the spec: the log appender is external; an insert
    is recorded as a call. *)
Definition XLogInsert (info : Z) (pageno : Z) : M unit :=
  fun st => Ok tt (log_call (EvXLogInsert info pageno) st).

(** The four bytes at [off] of a page buffer lie inside the buffer. *)
Definition in_page (off : Z) : bool :=
  (0 <=? off) && (off + 4 <=? BLCKSZ).

(** Load of the [uint32] at byte [off] of [page_buffer[slotno]]. *)
Definition read_u32 (ctl : SlruCtl) (slotno off : Z) : M Z :=
  fun st =>
    match page_buffer (shared ctl st) !! slotno with
    | Some page =>
        if in_page off then Ok (page_load32 page off) st
        else Stop MemoryFault st
    | None => Stop MemoryFault st
    end.

(** Store of the [uint32] [v] at byte [off] of [page_buffer[slotno]]. *)
Definition write_u32 (ctl : SlruCtl) (slotno off v : Z) : M unit :=
  fun st =>
    let sh := shared ctl st in
    match page_buffer sh !! slotno with
    | Some page =>
        if in_page off then
          Ok tt
             (set_shared ctl
                {| page_buffer :=
                     <[slotno := page_store32 page off v]> (page_buffer sh);
                   page_dirty := page_dirty sh;
                   slru_file := slru_file sh |} st)
        else Stop MemoryFault st
    | None => Stop MemoryFault st
    end.

(** [ctl->shared->page_dirty[slotno] = true] *)
Definition set_page_dirty (ctl : SlruCtl) (slotno : Z) : M unit :=
  fun st =>
    let sh := shared ctl st in
    Ok tt
       (set_shared ctl
          {| page_buffer := page_buffer sh;
             page_dirty := <[slotno := true]> (page_dirty sh);
             slru_file := slru_file sh |} st).

(** [ctl->shared->page_dirty[slotno]] *)
Definition slot_is_dirty (ctl : SlruCtl) (slotno : Z) (st : State) : bool :=
  bool_decide (page_dirty (shared ctl st) !! slotno = Some true).

(** *** Counter updates *)

Definition updateMinMulti (minMulti : Z) : M unit :=
  exit_failure "not implemented" None.

Definition updateMinMultiOffset (off : Z) : M unit :=
  exit_failure "not implemented" None.

(** [MultiXactState->field]: the pointer must not be null. *)
Definition MultiXactState_get {A : Type} (field : MultiXactStateData -> A) : M A :=
  fun st =>
    match MultiXactState st with
    | Some ms => Ok (field ms) st
    | None => Stop MemoryFault st
    end.

Definition MultiXactAdvanceNextMXact (minMulti minMultiOffset : Z) : M unit :=
  let* next := MultiXactState_get nextMXact in
  (if MultiXactIdPrecedes next minMulti
   then updateMinMulti minMulti
   else ret tt) ;;
  let* next := MultiXactState_get nextOffset in
  (if MultiXactOffsetPrecedes next minMultiOffset
   then updateMinMultiOffset minMultiOffset
   else ret tt).

(** *** Zeroing pages *)

Definition WriteMZeroPageXlogRec (pageno : Z) (info : Z) : M unit :=
  XLogInsert info pageno.

Definition ZeroMultiXactOffsetPage (pageno : Z) (writeXlog : bool) : M Z :=
  let* slotno := SimpleLruZeroPage MultiXactOffsetCtl pageno in
  (if writeXlog
   then WriteMZeroPageXlogRec pageno XLOG_MULTIXACT_ZERO_OFF_PAGE
   else ret tt) ;;
  ret slotno.

Definition ZeroMultiXactMemberPage (pageno : Z) (writeXlog : bool) : M Z :=
  let* slotno := SimpleLruZeroPage MultiXactMemberCtl pageno in
  (if writeXlog
   then WriteMZeroPageXlogRec pageno XLOG_MULTIXACT_ZERO_MEM_PAGE
   else ret tt) ;;
  ret slotno.

(** *** The write path *)

(** The masked store of one status into a flags word. *)
Definition set_member_flags (flagsval status bshift : Z) : Z :=
  let flagsval :=
    Z.land flagsval
      (u32 (Z.lnot (s32 (Z.shiftl (Z.shiftl 1 MXACT_MEMBER_BITS_PER_XACT - 1)
                                  bshift)))) in
  Z.lor flagsval (u32 (Z.shiftl status bshift)).

(** The [for] loop of [RecordNewMultiXact], from member [i] on:
    [members] are the members still to store, [offset], [prev_pageno]
    and [slotno] the values of the C variables at the loop head. *)
Fixpoint RecordNewMultiXact_loop (multi : Z) (members : list MultiXactMember)
    (offset prev_pageno slotno : Z) : M unit :=
  match members with
  | [] => ret tt
  | member :: members =>
      Assert (fun _ => status member <=? MultiXactStatusUpdate) ;;
      let pageno := s32 (MXOffsetToMemberPage cfg offset) in
      let memberoff := s32 (MXOffsetToMemberOffset cfg offset) in
      let flagsoff := s32 (MXOffsetToFlagsOffset cfg offset) in
      let bshift := s32 (MXOffsetToFlagsBitShift offset) in
      let* slotno :=
        (if pageno =? prev_pageno
         then ret slotno
         else SimpleLruReadPage MultiXactMemberCtl pageno true multi) in
      let prev_pageno := pageno in
      write_u32 MultiXactMemberCtl slotno memberoff (xid member) ;;
      let* flagsval := read_u32 MultiXactMemberCtl slotno flagsoff in
      let flagsval := set_member_flags flagsval (status member) bshift in
      write_u32 MultiXactMemberCtl slotno flagsoff flagsval ;;
      set_page_dirty MultiXactMemberCtl slotno ;;
      RecordNewMultiXact_loop multi members (u32 (offset + 1)) prev_pageno slotno
  end.

Definition RecordNewMultiXact (multi offset : Z)
    (members : list MultiXactMember) : M unit :=
  let pageno := s32 (MultiXactIdToOffsetPage cfg multi) in
  let entryno := s32 (MultiXactIdToOffsetEntry cfg multi) in
  let* slotno := SimpleLruReadPage MultiXactOffsetCtl pageno true multi in
  write_u32 MultiXactOffsetCtl slotno (entryno * sizeof_MultiXactOffset) offset ;;
  set_page_dirty MultiXactOffsetCtl slotno ;;
  let prev_pageno := -1 in
  RecordNewMultiXact_loop multi members offset prev_pageno slotno.

(** *** Redo *)

(** [memcpy(&pageno, XLogRecGetData(record), sizeof(int))]: the first
    four bytes of the payload as an [int]. *)
Definition record_pageno (record : XLogRecord) : Z :=
  match XLogRecGetData record with
  | DataPageno pageno => s32 pageno
  | DataCreate xlrec => s32 (mid xlrec)
  end.

(** The payload read through an [xl_multixact_create] pointer: a payload that
    is only a page number is too short to be read as a create
    record. *)
Definition record_create (record : XLogRecord) : M xl_multixact_create :=
  match XLogRecGetData record with
  | DataCreate xlrec => ret xlrec
  | DataPageno _ => stop MemoryFault
  end.

(** The loop that finds the latest transaction id of a record. *)
Definition record_max_xid (xl_xid : Z) (members : list MultiXactMember) : Z :=
  fold_left
    (fun max_xid member =>
       if TransactionIdPrecedes cfg max_xid (xid member)
       then xid member else max_xid)
    members xl_xid.

Definition multixact_redo (lsn : Z) (record : XLogRecord) : M unit :=
  let info := u8 (Z.land (xl_info record) (Z.lnot XLR_INFO_MASK)) in
  Assert (fun _ => Z.land (xl_info record) XLR_BKP_BLOCK_MASK =? 0) ;;
  if info =? XLOG_MULTIXACT_ZERO_OFF_PAGE then
    let pageno := record_pageno record in
    let* slotno := ZeroMultiXactOffsetPage pageno false in
    SimpleLruWritePage MultiXactOffsetCtl slotno ;;
    Assert (fun st => negb (slot_is_dirty MultiXactOffsetCtl slotno st))
  else if info =? XLOG_MULTIXACT_ZERO_MEM_PAGE then
    let pageno := record_pageno record in
    let* slotno := ZeroMultiXactMemberPage pageno false in
    SimpleLruWritePage MultiXactMemberCtl slotno ;;
    Assert (fun st => negb (slot_is_dirty MultiXactMemberCtl slotno st))
  else if info =? XLOG_MULTIXACT_CREATE_ID then
    let* xlrec := record_create record in
    RecordNewMultiXact (mid xlrec) (moff xlrec) (members xlrec) ;;
    MultiXactAdvanceNextMXact (u32 (mid xlrec + 1))
                              (u32 (moff xlrec + nmembers xlrec)) ;;
    let max_xid := record_max_xid (xl_xid record) (members xlrec) in
    fun st =>
      if TransactionIdFollowsOrEquals cfg max_xid (ShmemVariableCache_nextXid st)
      then Ok tt (set_nextXid (TransactionIdAdvance cfg max_xid) st)
      else Ok tt st
  else
    exit_failure "multixact_redo: unknown op code %u" (Some info).

End Program.

(** ** Vocabulary of the specification

    The definitions below are what the statements about the write path
    are phrased in: what a page looks like through the cache, what one
    loop iteration does to a member page, and the observable effect of
    touching one page of a store. *)

(** The content of page [pageno] as the store presents it: the cached
    buffer when the page is resident, the file image otherwise. *)
Definition page_view (sh : SlruSharedData) (pageno : Z) : option Z :=
  match page_buffer sh !! pageno with
  | Some page => Some page
  | None => slru_file sh !! pageno
  end.

(** Bits [M] of a page replaced by the bits of [V]. *)
Definition overwrite (M V : Z) (page : Z) : Z := Z.lor (Z.ldiff page M) V.

(** A page transformation that sets fixed bits to fixed values,
    whatever the page held. *)
Definition is_overwrite (f : Z -> Z) : Prop :=
  exists M V, forall page, f page = overwrite M V page.

(** The 8-bit status field at bit [bshift] of a flags word. *)
Definition status_field (flagsval bshift : Z) : Z :=
  Z.land (Z.shiftr flagsval bshift) (Z.ones 8).

(** A store after page [pageno] has been given the content [page] in
    its slot and the slot marked dirty. *)
Definition touch_page (pageno page : Z) (sh : SlruSharedData) : SlruSharedData :=
  {| page_buffer := <[pageno := page]> (page_buffer sh);
     page_dirty := <[pageno := true]> (page_dirty sh);
     slru_file := slru_file sh |}.

(** The effect of a run on one store, page by page: the pages
    [touched] are resident and dirty afterwards, the content of every
    page has gone through [f], and the file is as before. *)
Definition store_effect (touched : list Z) (f : Z -> Z -> Z)
    (sh sh' : SlruSharedData) : Prop :=
  (forall p, page_view sh' p = f p <$> page_view sh p) /\
  (forall p, is_Some (page_buffer sh' !! p) <->
             is_Some (page_buffer sh !! p) \/ p ∈ touched) /\
  (forall p, page_dirty sh' !! p =
             if decide (p ∈ touched) then Some true else page_dirty sh !! p) /\
  slru_file sh' = slru_file sh.

(** The transaction id [x] is normal and lies less than
    [2^31 - 1 - FirstNormalTransactionId] ids after [base]: ids in one
    such window are ordered consistently by the circular comparison,
    also after stepping past the reserved ids. *)
Definition xid_in_window (cfg : Config) (base x : Z) : Prop :=
  TransactionIdIsNormal cfg x = true /\
  0 <= x < 2 ^ 32 /\
  u32 (x - base) < 2 ^ 31 - 1 - cfg_FirstNormalTransactionId cfg.

(** The transaction id [x] is a reserved id, or a normal id of the
    window at [base]. *)
Definition xid_reserved_or_in_window (cfg : Config) (base x : Z) : Prop :=
  (TransactionIdIsNormal cfg x = false /\ 0 <= x) \/ xid_in_window cfg base x.

(** The transaction id [x] is a reserved id, or a normal id less than
    2^31 ids after [base]. *)
Definition xid_reserved_or_near (cfg : Config) (base x : Z) : Prop :=
  (TransactionIdIsNormal cfg x = false /\ 0 <= x) \/
  (TransactionIdIsNormal cfg x = true /\ u32 (x - base) < 2 ^ 31).

(** The place of such an id in the order the comparison gives them:
    the reserved ids by value, then the normal ids of the window by
    their distance to [base]. *)
Definition xid_rank (cfg : Config) (base x : Z) : Z :=
  if TransactionIdIsNormal cfg x
  then cfg_FirstNormalTransactionId cfg + u32 (x - base)
  else x.

(** A member as the record format has it: a 32-bit transaction id and
    a one-byte status. *)
Definition member_ok (member : MultiXactMember) : Prop :=
  0 <= xid member < 2 ^ 32 /\ 0 <= status member < 2 ^ 8.

Section WritePathVocabulary.
Context (cfg : Config).

(** What one iteration of the loop of [RecordNewMultiXact] does to
    its member page: the store of the transaction id followed by the
    read-modify-write of the flags word. *)
Definition member_page_update (offset : Z) (member : MultiXactMember)
    (page : Z) : Z :=
  let memberoff := s32 (MXOffsetToMemberOffset cfg offset) in
  let flagsoff := s32 (MXOffsetToFlagsOffset cfg offset) in
  let bshift := s32 (MXOffsetToFlagsBitShift offset) in
  let page := page_store32 page memberoff (xid member) in
  page_store32 page flagsoff
    (set_member_flags (page_load32 page flagsoff) (status member) bshift).

(** The state after one iteration that found [page] as the content of
    its member page: the page is resident, updated and dirty, and the
    read (if the page changed) is on record. *)
Definition member_step_state (multi offset prev_pageno : Z)
    (member : MultiXactMember) (page : Z) (st : State) : State :=
  let pageno := s32 (MXOffsetToMemberPage cfg offset) in
  let st :=
    if pageno =? prev_pageno then st
    else log_call (EvSimpleLruReadPage MultiXactMemberCtl pageno multi) st in
  set_shared MultiXactMemberCtl
    (touch_page pageno (member_page_update offset member page)
       (MultiXactMemberCtlData st)) st.

(** The state after step 1 of the write path, which found [page] as
    the content of the offset page of [multi]. *)
Definition offset_step_state (multi offset : Z) (page : Z) (st : State) : State :=
  let pageno := s32 (MultiXactIdToOffsetPage cfg multi) in
  let entryno := s32 (MultiXactIdToOffsetEntry cfg multi) in
  let st := log_call (EvSimpleLruReadPage MultiXactOffsetCtl pageno multi) st in
  set_shared MultiXactOffsetCtl
    (touch_page pageno
       (page_store32 page (entryno * sizeof_MultiXactOffset) offset)
       (MultiXactOffsetCtlData st)) st.

(** What the write path does to the content of offset page [pageno]. *)
Definition offset_page_update (multi offset : Z) (pageno : Z) (page : Z) : Z :=
  if pageno =? s32 (MultiXactIdToOffsetPage cfg multi)
  then page_store32 page
         (s32 (MultiXactIdToOffsetEntry cfg multi) * sizeof_MultiXactOffset) offset
  else page.

(** What holds of the C variables [prev_pageno] and [slotno] at the
    head of the loop: no page yet, or the slot of a resident page. *)
Definition loop_head (prev_pageno slotno : Z) (st : State) : Prop :=
  prev_pageno = -1 \/
  (slotno = prev_pageno /\
   is_Some (page_buffer (MultiXactMemberCtlData st) !! prev_pageno)).

(** The member pages the loop visits, one per member, in order. *)
Fixpoint member_pages (offset : Z) (members : list MultiXactMember) : list Z :=
  match members with
  | [] => []
  | _ :: members =>
      s32 (MXOffsetToMemberPage cfg offset) :: member_pages (u32 (offset + 1)) members
  end.

(** What the whole loop does to the content of page [pageno]. *)
Fixpoint members_page_update (offset : Z) (members : list MultiXactMember)
    (pageno : Z) (page : Z) : Z :=
  match members with
  | [] => page
  | member :: members =>
      members_page_update (u32 (offset + 1)) members pageno
        (if pageno =? s32 (MXOffsetToMemberPage cfg offset)
         then member_page_update offset member page
         else page)
  end.

(** The members pass the [Assert] of the loop. *)
Definition asserts_hold (members : list MultiXactMember) : Prop :=
  cfg_USE_ASSERT_CHECKING cfg = true ->
  Forall (fun member => status member <= cfg_MultiXactStatusUpdate cfg) members.

(** Page [pageno] of store [ctl] was touched between [st] and [st']:
    it was readable, it is now resident with a content related to the
    old one by [R], and dirty; nothing else changed but the record of
    calls. *)
Definition page_touched (ctl : SlruCtl) (pageno : Z) (R : Z -> Z -> Prop)
    (st st' : State) : Prop :=
  (exists page page',
      page_view (shared ctl st) pageno = Some page /\
      page_buffer (shared ctl st') !! pageno = Some page' /\
      R page page') /\
  page_dirty (shared ctl st') !! pageno = Some true /\
  (forall p, p <> pageno ->
     page_buffer (shared ctl st') !! p = page_buffer (shared ctl st) !! p /\
     page_dirty (shared ctl st') !! p = page_dirty (shared ctl st) !! p) /\
  slru_file (shared ctl st') = slru_file (shared ctl st) /\
  (forall c, c <> ctl -> shared c st' = shared c st) /\
  MultiXactState st' = MultiXactState st /\
  ShmemVariableCache_nextXid st' = ShmemVariableCache_nextXid st.

(** Step 1 of the write path on the offset page: entry [entryno]
    holds [offset], every other byte is as before. *)
Definition offset_entry_stored (multi offset : Z) (page page' : Z) : Prop :=
  let entryno := MultiXactIdToOffsetEntry cfg multi in
  page_load32 page' (entryno * sizeof_MultiXactOffset) = offset /\
  forall k, 0 <= k ->
    ~ (entryno * sizeof_MultiXactOffset <= k
       < entryno * sizeof_MultiXactOffset + sizeof_MultiXactOffset) ->
    page_get_byte page' k = page_get_byte page k.

(** Step 3 of the write path on a member page: the transaction id is
    at the member byte offset; the flags word is the old one with the
    8-bit field at the member's bit shift cleared and the status ORed
    in, so that field is the status and the other bits of the word are
    as before; every byte outside the two words is as before. *)
Definition member_stored (offset : Z) (member : MultiXactMember)
    (page page' : Z) : Prop :=
  let memberoff := MXOffsetToMemberOffset cfg offset in
  let flagsoff := MXOffsetToFlagsOffset cfg offset in
  let bshift := MXOffsetToFlagsBitShift offset in
  page_load32 page' memberoff = xid member /\
  page_load32 page' flagsoff =
    Z.lor (Z.land (page_load32 page flagsoff)
                  (Z.lnot (Z.shiftl MXACT_MEMBER_XACT_BITMASK bshift)))
          (Z.shiftl (status member) bshift) /\
  status_field (page_load32 page' flagsoff) bshift = status member /\
  (forall j, 0 <= j < 32 -> ~ (bshift <= j < bshift + MXACT_MEMBER_BITS_PER_XACT) ->
     Z.testbit (page_load32 page' flagsoff) j =
     Z.testbit (page_load32 page flagsoff) j) /\
  forall k, 0 <= k ->
    ~ (memberoff <= k < memberoff + sizeof_TransactionId) ->
    ~ (flagsoff <= k < flagsoff + MULTIXACT_FLAGBYTES_PER_GROUP) ->
    page_get_byte page' k = page_get_byte page k.

(** Steps 2 to 4 for the members from [offset] on, [prev_pageno]
    being the page of the previous iteration: each member touches its
    page as [member_stored] says, and the store is asked for the page
    exactly when it differs from the previous one. *)
Inductive members_stored (multi : Z) :
    list MultiXactMember -> Z -> Z -> State -> State -> Prop :=
| members_stored_nil offset prev_pageno st :
    members_stored multi [] offset prev_pageno st st
| members_stored_cons member members offset prev_pageno st st1 st2 :
    page_touched MultiXactMemberCtl (MXOffsetToMemberPage cfg offset)
      (member_stored offset member) st st1 ->
    calls st1 =
      calls st ++
      (if MXOffsetToMemberPage cfg offset =? prev_pageno then []
       else [EvSimpleLruReadPage MultiXactMemberCtl
               (MXOffsetToMemberPage cfg offset) multi]) ->
    members_stored multi members (u32 (offset + 1))
      (MXOffsetToMemberPage cfg offset) st1 st2 ->
    members_stored multi (member :: members) offset prev_pageno st st2.

(** The whole write path, as the specification words it. *)
Definition recordNewGroup_spec (id startOffset : Z)
    (members : list MultiXactMember) (st st' : State) : Prop :=
  exists st1,
    page_touched MultiXactOffsetCtl (MultiXactIdToOffsetPage cfg id)
      (offset_entry_stored id startOffset) st st1 /\
    calls st1 =
      calls st ++
      [EvSimpleLruReadPage MultiXactOffsetCtl (MultiXactIdToOffsetPage cfg id) id] /\
    members_stored id members startOffset (-1) st1 st'.

(** Replay of a zero-page record for page [pageno] of store [ctl]:
    the page is zeroed in the cache, written out and clean; every
    other page, the other store and the counters are as before. *)
Definition page_zeroed_and_written (ctl : SlruCtl) (pageno : Z)
    (st st' : State) : Prop :=
  page_buffer (shared ctl st') !! pageno = Some 0 /\
  slru_file (shared ctl st') !! pageno = Some 0 /\
  page_dirty (shared ctl st') !! pageno = Some false /\
  (forall p, p <> pageno ->
     page_buffer (shared ctl st') !! p = page_buffer (shared ctl st) !! p /\
     slru_file (shared ctl st') !! p = slru_file (shared ctl st) !! p /\
     page_dirty (shared ctl st') !! p = page_dirty (shared ctl st) !! p) /\
  (forall c, c <> ctl -> shared c st' = shared c st) /\
  MultiXactState st' = MultiXactState st /\
  ShmemVariableCache_nextXid st' = ShmemVariableCache_nextXid st /\
  calls st' =
    calls st ++ [EvSimpleLruZeroPage ctl pageno; EvSimpleLruWritePage ctl pageno].

(** The kind of a record, as [multixact_redo] extracts it. *)
Definition record_info (record : XLogRecord) : Z :=
  u8 (Z.land (xl_info record) (Z.lnot (cfg_XLR_INFO_MASK cfg))).

(** The record passes the assertion on backup blocks. *)
Definition no_backup_blocks (record : XLogRecord) : Prop :=
  cfg_USE_ASSERT_CHECKING cfg = true ->
  Z.land (xl_info record) (cfg_XLR_BKP_BLOCK_MASK cfg) = 0.

End WritePathVocabulary.

(** ** The write path in the words of the specification

    The specification gives the page layout by formulas (section 4.1)
    and the write path by steps (section 4.3).  The definitions below
    follow those words, on unbounded integers and without the macros
    of the code; the statement about [RecordNewMultiXact] compares the
    code with them. *)

Section SpecificationWords.
Context (cfg : Config).

(** "page = id / entriesPerPage, entry = id % entriesPerPage, where
    entriesPerPage = pageSize / sizeof(MemberOffset)"; a member offset
    takes four bytes. *)
Definition pageSize : Z := cfg_BLCKSZ cfg.
Definition entriesPerPage : Z := pageSize / 4.
Definition groupToOffsetPage (id : Z) : Z := id / entriesPerPage.
Definition groupToOffsetEntry (id : Z) : Z := id mod entriesPerPage.

(** "a member-group holds flagBytesPerGroup (=4) status bytes (8
    bits/status x 1 byte each, 4 statuses/group) followed by 4
    transaction ids", of four bytes each; a page holds as many whole
    groups as fit. *)
Definition flagBytesPerGroup : Z := 4.
Definition bitsPerStatus : Z := 8.
Definition membersPerGroup : Z := 4.
Definition groupSize : Z := flagBytesPerGroup + membersPerGroup * 4.
Definition groupsPerPage : Z := pageSize / groupSize.
Definition membersPerPage : Z := groupsPerPage * membersPerGroup.

(** "group index within page = (off / membersPerGroup) % groupsPerPage;
    bit shift = (off % membersPerGroup) * bitsPerStatus"; the flags
    word of a member is the status bytes of its group, and its
    transaction id follows them at its index in the group. *)
Definition offsetToMemberPage (off : Z) : Z := off / membersPerPage.
Definition offsetToFlagsByteOffset (off : Z) : Z :=
  (off / membersPerGroup) mod groupsPerPage * groupSize.
Definition offsetToFlagsBitShift (off : Z) : Z :=
  off mod membersPerGroup * bitsPerStatus.
Definition offsetToMemberByteOffset (off : Z) : Z :=
  offsetToFlagsByteOffset off + flagBytesPerGroup + off mod membersPerGroup * 4.

(** Step 1: "write startOffset into that entry", the entry of [id] on
    its offset page; every other byte of the page is as before. *)
Definition offset_entry_written (id startOffset : Z) (page page' : Z) : Prop :=
  let entry := groupToOffsetEntry id in
  page_load32 page' (entry * 4) = startOffset /\
  forall k, 0 <= k -> ~ (entry * 4 <= k < entry * 4 + 4) ->
    page_get_byte page' k = page_get_byte page k.

(** Step 3: "write the transaction id at the member byte offset and
    update the 8-bit status field within the packed flags word using a
    read-modify-write masked store (clear the bit-field's bits, OR in
    the new status)"; the field then holds the status, the other bits
    of the flags word and every byte outside the two words are as
    before. *)
Definition member_written (off : Z) (member : MultiXactMember)
    (page page' : Z) : Prop :=
  let memberoff := offsetToMemberByteOffset off in
  let flagsoff := offsetToFlagsByteOffset off in
  let shift := offsetToFlagsBitShift off in
  page_load32 page' memberoff = xid member /\
  page_load32 page' flagsoff =
    Z.lor (Z.land (page_load32 page flagsoff)
                  (Z.lnot (Z.shiftl (Z.ones bitsPerStatus) shift)))
          (Z.shiftl (status member) shift) /\
  status_field (page_load32 page' flagsoff) shift = status member /\
  (forall j, 0 <= j < 32 -> ~ (shift <= j < shift + bitsPerStatus) ->
     Z.testbit (page_load32 page' flagsoff) j =
     Z.testbit (page_load32 page flagsoff) j) /\
  forall k, 0 <= k ->
    ~ (memberoff <= k < memberoff + 4) ->
    ~ (flagsoff <= k < flagsoff + flagBytesPerGroup) ->
    page_get_byte page' k = page_get_byte page k.

(** Steps 2 to 4, for the members from member offset [off] on (a
    32-bit value, stepping modulo 2^32), [prev] being the page of the
    previous iteration and [-1] before the first: each member is
    written to the page of its offset, which is marked dirty, and the
    member store is asked for that page exactly when "the page number
    changes from the previous iteration". *)
Inductive members_written (id : Z) :
    list MultiXactMember -> Z -> Z -> State -> State -> Prop :=
| members_written_nil off prev st :
    members_written id [] off prev st st
| members_written_cons member members off prev st st1 st2 :
    page_touched MultiXactMemberCtl (offsetToMemberPage off)
      (member_written off member) st st1 ->
    calls st1 =
      calls st ++
      (if offsetToMemberPage off =? prev then []
       else [EvSimpleLruReadPage MultiXactMemberCtl (offsetToMemberPage off) id]) ->
    members_written id members (u32 (off + 1)) (offsetToMemberPage off) st1 st2 ->
    members_written id (member :: members) off prev st st2.

(** [recordNewGroup(id, startOffset, members)]: step 1 on the offset
    store, after one read of the offset page of [id], then the
    members. *)
Definition recordNewGroup (id startOffset : Z)
    (members : list MultiXactMember) (st st' : State) : Prop :=
  exists st1,
    page_touched MultiXactOffsetCtl (groupToOffsetPage id)
      (offset_entry_written id startOffset) st st1 /\
    calls st1 =
      calls st ++ [EvSimpleLruReadPage MultiXactOffsetCtl (groupToOffsetPage id) id] /\
    members_written id members startOffset (-1) st1 st'.

(** The offset page of [id] and the page of every member offset
    [startOffset + i] can be served by their stores. *)
Definition group_pages_readable (id startOffset : Z)
    (members : list MultiXactMember) (st : State) : Prop :=
  is_Some (page_view (MultiXactOffsetCtlData st) (groupToOffsetPage id)) /\
  forall i : nat,
    (i < length members)%nat ->
    is_Some (page_view (MultiXactMemberCtlData st)
               (offsetToMemberPage (u32 (startOffset + Z.of_nat i)))).

End SpecificationWords.

(** ** Sample configurations, states and records *)

(** [cfg] with another bound on member statuses. *)
Definition with_status_bound (cfg : Config) (bound : Z) : Config :=
  {| cfg_BLCKSZ := cfg_BLCKSZ cfg;
     cfg_USE_ASSERT_CHECKING := cfg_USE_ASSERT_CHECKING cfg;
     cfg_FirstNormalTransactionId := cfg_FirstNormalTransactionId cfg;
     cfg_MultiXactStatusUpdate := bound;
     cfg_XLR_INFO_MASK := cfg_XLR_INFO_MASK cfg;
     cfg_XLR_BKP_BLOCK_MASK := cfg_XLR_BKP_BLOCK_MASK cfg;
     cfg_XLOG_MULTIXACT_ZERO_OFF_PAGE := cfg_XLOG_MULTIXACT_ZERO_OFF_PAGE cfg;
     cfg_XLOG_MULTIXACT_ZERO_MEM_PAGE := cfg_XLOG_MULTIXACT_ZERO_MEM_PAGE cfg;
     cfg_XLOG_MULTIXACT_CREATE_ID := cfg_XLOG_MULTIXACT_CREATE_ID cfg |}.

(** A store with nothing cached whose file holds page 0, zeroed. *)
Definition fresh_store : SlruSharedData :=
  {| page_buffer := ∅; page_dirty := ∅; slru_file := {[ 0 := 0 ]} |}.

(** A state in which both stores are fresh, the counters are well
    ahead of the first ids and no call has been made. *)
Definition fresh_state : State :=
  {| MultiXactOffsetCtlData := fresh_store;
     MultiXactMemberCtlData := fresh_store;
     MultiXactState := Some {| nextMXact := 100; nextOffset := 100 |};
     ShmemVariableCache_nextXid := 3;
     calls := [] |}.

(** A state as [fresh_state] whose files hold the zeroed pages 2, 4
    and 5. *)
Definition wide_store : SlruSharedData :=
  {| page_buffer := ∅; page_dirty := ∅;
     slru_file := {[ 2 := 0; 4 := 0; 5 := 0 ]} |}.
Definition wide_state : State :=
  {| MultiXactOffsetCtlData := wide_store;
     MultiXactMemberCtlData := wide_store;
     MultiXactState := Some {| nextMXact := 100; nextOffset := 100 |};
     ShmemVariableCache_nextXid := 3;
     calls := [] |}.

(** The state [init_multixact_hack] leaves, the stores being fresh:
    nothing in the file assigns the pointer [MultiXactState], and the
    next transaction id is 0. *)
Definition hack_state : State :=
  {| MultiXactOffsetCtlData := fresh_store;
     MultiXactMemberCtlData := fresh_store;
     MultiXactState := None;
     ShmemVariableCache_nextXid := 0;
     calls := [] |}.

(** The same state with the counters at the first group id. *)
Definition early_state : State :=
  {| MultiXactOffsetCtlData := fresh_store;
     MultiXactMemberCtlData := fresh_store;
     MultiXactState := Some {| nextMXact := 1; nextOffset := 0 |};
     ShmemVariableCache_nextXid := 3;
     calls := [] |}.

(** Two members with valid statuses, and one whose status (200) is
    above [MultiXactStatusUpdate]. *)
Definition two_members : list MultiXactMember :=
  [ {| xid := 7; status := 1 |}; {| xid := 9; status := 5 |} ].
Definition bad_member : MultiXactMember := {| xid := 11; status := 200 |}.

(** A create record for group 1 at offset 0. *)
Definition create_record : XLogRecord :=
  {| xl_info := 32; xl_xid := 7;
     XLogRecGetData :=
       DataCreate {| mid := 1; moff := 0; members := two_members |} |}.

(** A create record whose transaction ids are spread over more than
    half of the id space: 10, 10 + 2^30 and 10 + 2^31 + 5. *)
Definition spread_record : XLogRecord :=
  {| xl_info := 32; xl_xid := 10;
     XLogRecGetData :=
       DataCreate {| mid := 1; moff := 0;
                     members := [ {| xid := 1073741834; status := 1 |};
                                  {| xid := 2147483663; status := 1 |} ] |} |}.

(** A create record whose ids, 10 and 10 + 2^31 - 3, are almost half
    of the id space apart. *)
Definition far_record : XLogRecord :=
  {| xl_info := 32; xl_xid := 10;
     XLogRecGetData :=
       DataCreate {| mid := 1; moff := 0;
                     members := [ {| xid := 2147483655; status := 1 |} ] |} |}.

(** [fresh_state] with the next transaction id at 10 + 2^30 + 5. *)
Definition spread_state : State := set_nextXid 1073741839 fresh_state.

(** Zero-page records for page 3 of either store. *)
Definition zero_offset_record : XLogRecord :=
  {| xl_info := 0; xl_xid := 7; XLogRecGetData := DataPageno 3 |}.
Definition zero_member_record : XLogRecord :=
  {| xl_info := 16; xl_xid := 7; XLogRecGetData := DataPageno 3 |}.

(** ** Observations for the further properties

    Reading back what the write path stored, and the invariants of a
    store that the further properties speak about. *)

Section Observations.
Context (cfg : Config).

(** The member found at [offset] in a member page. *)
Definition member_at (offset : Z) (page : Z) : MultiXactMember :=
  {| xid := page_load32 page (MXOffsetToMemberOffset cfg offset);
     status := status_field (page_load32 page (MXOffsetToFlagsOffset cfg offset))
                            (MXOffsetToFlagsBitShift offset) |}.

(** The member stored at [offset], read through the member store. *)
Definition read_member (sh : SlruSharedData) (offset : Z) : option MultiXactMember :=
  member_at offset <$> page_view sh (MXOffsetToMemberPage cfg offset).

(** The start offset stored for group [multi], read through the
    offset store. *)
Definition read_offset (sh : SlruSharedData) (multi : Z) : option Z :=
  (fun page =>
     page_load32 page (MultiXactIdToOffsetEntry cfg multi * sizeof_MultiXactOffset))
    <$> page_view sh (MultiXactIdToOffsetPage cfg multi).

(** The kind of the record that zeroes a page of store [ctl], and the
    routine that zeroes a page of that store. *)
Definition zero_page_kind (ctl : SlruCtl) : Z :=
  match ctl with
  | MultiXactOffsetCtl => cfg_XLOG_MULTIXACT_ZERO_OFF_PAGE cfg
  | MultiXactMemberCtl => cfg_XLOG_MULTIXACT_ZERO_MEM_PAGE cfg
  end.

Definition ZeroMultiXactPage (ctl : SlruCtl) : Z -> bool -> M Z :=
  match ctl with
  | MultiXactOffsetCtl => ZeroMultiXactOffsetPage cfg
  | MultiXactMemberCtl => ZeroMultiXactMemberPage cfg
  end.

End Observations.

(** Every cached page is either marked dirty or equal to its image in
    the file: no modification can be lost by dropping a clean slot. *)
Definition cache_coherent (sh : SlruSharedData) : Prop :=
  forall pageno page,
    page_buffer sh !! pageno = Some page ->
    page_dirty sh !! pageno = Some true \/ slru_file sh !! pageno = Some page.

(** A call of [SimpleLruReadPage] on behalf of [multi]. *)
Definition is_read_call (multi : Z) (e : Event) : Prop :=
  exists ctl pageno, e = EvSimpleLruReadPage ctl pageno multi.

(** The record a call of [XLogInsert] asks the log for: its kind is the
    [info] argument, its payload the page number. *)
Definition logged_record (xl_xid : Z) (e : Event) : option XLogRecord :=
  match e with
  | EvXLogInsert info pageno =>
      Some {| xl_info := info; xl_xid := xl_xid; XLogRecGetData := DataPageno pageno |}
  | _ => None
  end.

(** * Properties *)

(** ** Machine integers *)

Lemma u32_range x : 0 <= u32 x < 2 ^ 32.
Proof. unfold u32. apply Z.mod_pos_bound. lia. Qed.

Lemma u32_small x : 0 <= x < 2 ^ 32 -> u32 x = x.
Proof. intros H. unfold u32. apply Z.mod_small. exact H. Qed.

Lemma usize_small x : 0 <= x < 2 ^ 64 -> usize x = x.
Proof. intros H. unfold usize. apply Z.mod_small. exact H. Qed.

Lemma s32_u32 x : s32 (u32 x) = s32 x.
Proof. unfold s32, u32. rewrite Z.mod_mod by lia. reflexivity. Qed.

Lemma s32_small x : 0 <= x < 2 ^ 31 -> s32 x = x.
Proof.
  intros H. unfold s32. rewrite Z.mod_small by lia.
  destruct (Z.ltb_spec x (2 ^ 31)); lia.
Qed.

Lemma s32_shift a b : s32 (u32 (a + 1) - u32 (b + 1)) = s32 (a - b).
Proof.
  unfold s32, u32. rewrite <- Zminus_mod.
  replace (a + 1 - (b + 1)) with (a - b) by lia. reflexivity.
Qed.

(** ** Circular comparison *)

(** C5.  The circular comparison of group ids and of member offsets is
    the sign of the 32-bit difference, [(int32)(a-b) < 0]; it is
    invariant under shifting both arguments by one (modulo 2^32) and it
    is irreflexive. *)
Theorem precedes_shift_invariant_irreflexive (a b : Z) :
  (MultiXactIdPrecedes a b = circular_precedes a b /\
   MultiXactOffsetPrecedes a b = circular_precedes a b) /\
  (MultiXactIdPrecedes (u32 (a + 1)) (u32 (b + 1)) = MultiXactIdPrecedes a b /\
   MultiXactOffsetPrecedes (u32 (a + 1)) (u32 (b + 1)) = MultiXactOffsetPrecedes a b) /\
  (MultiXactIdPrecedes a a = false /\ MultiXactOffsetPrecedes a a = false).
Proof.
  unfold MultiXactIdPrecedes, MultiXactOffsetPrecedes, circular_precedes.
  cbv zeta. rewrite !s32_u32, s32_shift, Z.sub_diag.
  repeat split; reflexivity.
Qed.

(** ** Transaction-id comparison *)

(** C6, as amended.  Two normal transaction ids are compared
    circularly, by the sign of the 32-bit difference; as soon as one of
    them is a reserved (permanent) id the comparison is the plain
    unsigned one.  [TransactionIdFollowsOrEquals] is the negation of
    [TransactionIdPrecedes] in both cases. *)
Theorem TransactionId_comparison_discipline (cfg : Config) (a b : Z) :
  TransactionIdPrecedes cfg a b =
    (if TransactionIdIsNormal cfg a && TransactionIdIsNormal cfg b
     then circular_precedes a b else a <? b) /\
  TransactionIdFollowsOrEquals cfg a b =
    (if TransactionIdIsNormal cfg a && TransactionIdIsNormal cfg b
     then circular_follows_or_equals a b else b <=? a) /\
  TransactionIdFollowsOrEquals cfg a b = negb (TransactionIdPrecedes cfg a b).
Proof.
  unfold TransactionIdPrecedes, TransactionIdFollowsOrEquals,
    circular_precedes, circular_follows_or_equals.
  cbv zeta. rewrite s32_u32.
  destruct (TransactionIdIsNormal cfg a), (TransactionIdIsNormal cfg b); simpl;
    repeat split; try reflexivity;
    first [ apply Z.leb_antisym | rewrite Z.ltb_antisym, negb_involutive; reflexivity ].
Qed.

(** C6, as stated, fails: the bootstrap id 1 precedes 2^31+5 for the
    code (unsigned comparison, 1 is reserved) but not circularly. *)
Lemma TransactionIdPrecedes_not_circular :
  ~ (forall a b : Z, 0 <= a < 2 ^ 32 -> 0 <= b < 2 ^ 32 ->
       TransactionIdPrecedes pg_default a b = circular_precedes a b /\
       TransactionIdFollowsOrEquals pg_default a b = circular_follows_or_equals a b).
Proof.
  intros H. specialize (H 1 2147483653).
  destruct H as [H _]; [lia | lia | ].
  vm_compute in H. discriminate H.
Qed.

(** ** Page layout *)

Section LayoutFacts.
Context (cfg : Config).
Hypothesis Hcfg : config_ok cfg.

Local Abbreviation BLCKSZ := (cfg_BLCKSZ cfg).

Lemma BLCKSZ_range : 20 <= BLCKSZ < 2 ^ 31.
Proof. destruct Hcfg as [H _]. exact H. Qed.

Lemma offsets_per_page_eq :
  u32 (MULTIXACT_OFFSETS_PER_PAGE cfg) = BLCKSZ / 4 /\
  MULTIXACT_OFFSETS_PER_PAGE cfg = BLCKSZ / 4 /\
  5 <= BLCKSZ / 4 < 2 ^ 29.
Proof.
  pose proof BLCKSZ_range as Hb.
  assert (Hq : 5 <= BLCKSZ / 4 < 2 ^ 29)
    by (split; [apply Z.div_le_lower_bound | apply Z.div_lt_upper_bound]; lia).
  unfold MULTIXACT_OFFSETS_PER_PAGE, sizeof_MultiXactOffset.
  rewrite usize_small by lia. rewrite u32_small by lia. auto.
Qed.

Lemma membergroup_size_eq : MULTIXACT_MEMBERGROUP_SIZE = 20.
Proof. reflexivity. Qed.

Lemma members_per_membergroup_eq : MULTIXACT_MEMBERS_PER_MEMBERGROUP = 4.
Proof. reflexivity. Qed.

Lemma groups_per_page_eq :
  u32 (MULTIXACT_MEMBERGROUPS_PER_PAGE cfg) = BLCKSZ / 20 /\
  MULTIXACT_MEMBERGROUPS_PER_PAGE cfg = BLCKSZ / 20 /\
  1 <= BLCKSZ / 20 < 2 ^ 27.
Proof.
  pose proof BLCKSZ_range as Hb.
  assert (Hq : 1 <= BLCKSZ / 20 < 2 ^ 27)
    by (split; [apply Z.div_le_lower_bound | apply Z.div_lt_upper_bound]; lia).
  unfold MULTIXACT_MEMBERGROUPS_PER_PAGE. rewrite membergroup_size_eq.
  rewrite usize_small by lia. rewrite u32_small by lia. auto.
Qed.

Lemma members_per_page_eq :
  u32 (MULTIXACT_MEMBERS_PER_PAGE cfg) = BLCKSZ / 20 * 4 /\
  4 <= BLCKSZ / 20 * 4 < 2 ^ 29.
Proof.
  destruct groups_per_page_eq as (_ & Hg & Hr).
  unfold MULTIXACT_MEMBERS_PER_PAGE.
  rewrite Hg, members_per_membergroup_eq.
  rewrite usize_small by lia. rewrite u32_small by lia. lia.
Qed.

(** The member macros in closed form, for a 32-bit offset. *)
Lemma member_layout_eq (off : Z) :
  0 <= off < 2 ^ 32 ->
  MXOffsetToMemberPage cfg off = off / (BLCKSZ / 20 * 4) /\
  MXOffsetToFlagsOffset cfg off = (off / 4) mod (BLCKSZ / 20) * 20 /\
  MXOffsetToFlagsBitShift off = off mod 4 * 8 /\
  MXOffsetToMemberOffset cfg off =
    (off / 4) mod (BLCKSZ / 20) * 20 + 4 + off mod 4 * 4.
Proof.
  intros Hoff.
  destruct groups_per_page_eq as (Hg & _ & Hr).
  destruct members_per_page_eq as (Hm & _).
  pose proof BLCKSZ_range as Hb.
  assert (Hfo : MXOffsetToFlagsOffset cfg off = (off / 4) mod (BLCKSZ / 20) * 20).
  { unfold MXOffsetToFlagsOffset. rewrite Hg, membergroup_size_eq.
    rewrite members_per_membergroup_eq.
    change (u32 4) with 4. change (u32 20) with 20.
    apply u32_small.
    pose proof (Z.mod_pos_bound (off / 4) (BLCKSZ / 20)). lia. }
  pose proof (Z.mod_pos_bound (off / 4) (BLCKSZ / 20)) as Hgm.
  pose proof (Z.mod_pos_bound off 4) as Hm4.
  repeat split.
  - unfold MXOffsetToMemberPage. rewrite Hm. reflexivity.
  - exact Hfo.
  - unfold MXOffsetToFlagsBitShift. rewrite members_per_membergroup_eq.
    change (u32 4) with 4. unfold MXACT_MEMBER_BITS_PER_XACT.
    apply u32_small. lia.
  - unfold MXOffsetToMemberOffset. rewrite Hfo.
    rewrite members_per_membergroup_eq. change (u32 4) with 4.
    unfold MULTIXACT_FLAGBYTES_PER_GROUP, sizeof_TransactionId.
    rewrite (u32_small (_ + 4)) by lia.
    rewrite (usize_small (off mod 4 * 4)) by lia.
    apply usize_small. lia.
Qed.

(** C8.  The offset-page mapping is an exact quotient/remainder
    decomposition of a group id by the number of offsets per page,
    which is the page size divided by the size of a member offset. *)
Theorem offset_page_entry_decomposition (id : Z) :
  0 <= id < 2 ^ 32 ->
  MULTIXACT_OFFSETS_PER_PAGE cfg = BLCKSZ / sizeof_MultiXactOffset /\
  MultiXactIdToOffsetPage cfg id * MULTIXACT_OFFSETS_PER_PAGE cfg
    + MultiXactIdToOffsetEntry cfg id = id /\
  0 <= MultiXactIdToOffsetEntry cfg id < MULTIXACT_OFFSETS_PER_PAGE cfg.
Proof.
  intros Hid. destruct offsets_per_page_eq as (Hu & He & Hr).
  unfold MultiXactIdToOffsetPage, MultiXactIdToOffsetEntry.
  rewrite Hu, He. unfold sizeof_MultiXactOffset.
  split; [reflexivity | split].
  - pose proof (Z.div_mod id (BLCKSZ / 4)). lia.
  - apply Z.mod_pos_bound. lia.
Qed.

(** The arithmetic half of C9: the flags word and the transaction id
    of a member lie inside one page. *)
Lemma member_layout_in_page (off : Z) :
  0 <= off < 2 ^ 32 ->
  0 <= MXOffsetToFlagsOffset cfg off /\
  MXOffsetToFlagsOffset cfg off + MULTIXACT_FLAGBYTES_PER_GROUP <= BLCKSZ /\
  0 <= MXOffsetToMemberOffset cfg off /\
  MXOffsetToMemberOffset cfg off + sizeof_TransactionId <= BLCKSZ.
Proof.
  intros Hoff.
  destruct (member_layout_eq off Hoff) as (_ & Hf & _ & Hm).
  rewrite Hf, Hm.
  unfold MULTIXACT_FLAGBYTES_PER_GROUP, sizeof_TransactionId.
  destruct groups_per_page_eq as (_ & _ & Hr).
  pose proof (Z.mod_pos_bound (off / 4) (BLCKSZ / 20)) as Hgm.
  pose proof (Z.mod_pos_bound off 4) as Hm4.
  pose proof (Z.mul_div_le BLCKSZ 20).
  lia.
Qed.

End LayoutFacts.

(** ** Bits of pages *)

Lemma testbit_ones (n i : Z) :
  0 <= n -> Z.testbit (Z.ones n) i = (0 <=? i) && (i <? n).
Proof.
  intros Hn. destruct (Z.leb_spec 0 i) as [Hi | Hi].
  - rewrite Z.testbit_ones_nonneg by lia. reflexivity.
  - rewrite Z.testbit_neg_r by lia. reflexivity.
Qed.

Lemma testbit_u32 (x i : Z) :
  Z.testbit (u32 x) i = (i <? 32) && Z.testbit x i.
Proof.
  unfold u32. destruct (Z.leb_spec 0 i) as [Hi | Hi].
  - rewrite Z.testbit_mod_pow2 by lia. reflexivity.
  - rewrite !Z.testbit_neg_r by lia. apply eq_sym, andb_false_r.
Qed.

Lemma page_load32_spec (page off j : Z) :
  0 <= j ->
  Z.testbit (page_load32 page off) j = (j <? 32) && Z.testbit page (j + 8 * off).
Proof.
  intros Hj. unfold page_load32.
  rewrite Z.land_spec, Z.shiftr_spec, testbit_ones by lia.
  destruct (Z.leb_spec 0 j); [ | lia]. simpl. apply andb_comm.
Qed.

Lemma page_get_byte_spec (page k j : Z) :
  0 <= j ->
  Z.testbit (page_get_byte page k) j = (j <? 8) && Z.testbit page (j + 8 * k).
Proof.
  intros Hj. unfold page_get_byte.
  rewrite Z.land_spec, Z.shiftr_spec, testbit_ones by lia.
  destruct (Z.leb_spec 0 j); [ | lia]. simpl. apply andb_comm.
Qed.

Lemma page_store32_spec (page off v i : Z) :
  0 <= i ->
  Z.testbit (page_store32 page off v) i =
    if (8 * off <=? i) && (i <? 8 * off + 32)
    then Z.testbit v (i - 8 * off) else Z.testbit page i.
Proof.
  intros Hi. unfold page_store32.
  rewrite Z.lor_spec, Z.ldiff_spec, !Z.shiftl_spec, Z.land_spec, !testbit_ones by lia.
  destruct (Z.leb_spec (8 * off) i), (Z.ltb_spec i (8 * off + 32));
    destruct (Z.leb_spec 0 (i - 8 * off)), (Z.ltb_spec (i - 8 * off) 32);
    try lia; simpl;
    rewrite ?andb_true_r, ?andb_false_r, ?orb_false_r; reflexivity.
Qed.

Lemma page_load32_range (page off : Z) : 0 <= page_load32 page off < 2 ^ 32.
Proof.
  unfold page_load32. rewrite Z.land_ones by lia. apply Z.mod_pos_bound. lia.
Qed.

(** Reading back what was stored, and reading next to it. *)
Lemma page_load32_store32_same (page off v : Z) :
  0 <= off -> 0 <= v < 2 ^ 32 ->
  page_load32 (page_store32 page off v) off = v.
Proof.
  intros Hoff Hv. apply Z.bits_inj'. intros j Hj.
  rewrite page_load32_spec, page_store32_spec by lia.
  replace (j + 8 * off - 8 * off) with j by lia.
  destruct (Z.ltb_spec j 32) as [Hlt | Hge]; simpl.
  - destruct (Z.leb_spec (8 * off) (j + 8 * off)), (Z.ltb_spec (j + 8 * off) (8 * off + 32));
      try lia. reflexivity.
  - rewrite <- (Z.mod_small v (2 ^ 32)) by exact Hv.
    apply eq_sym, Z.mod_pow2_bits_high. lia.
Qed.

Lemma page_load32_store32_other (page off off' v : Z) :
  0 <= off' -> off' + 4 <= off \/ off + 4 <= off' ->
  page_load32 (page_store32 page off v) off' = page_load32 page off'.
Proof.
  intros Hoff' Hd. apply Z.bits_inj'. intros j Hj.
  rewrite !page_load32_spec, page_store32_spec by lia.
  destruct (Z.ltb_spec j 32) as [Hlt | Hge]; simpl; [ | reflexivity].
  destruct (Z.leb_spec (8 * off) (j + 8 * off')), (Z.ltb_spec (j + 8 * off') (8 * off + 32));
    try lia; reflexivity.
Qed.

Lemma page_get_byte_store32_other (page off v k : Z) :
  0 <= k -> 0 <= off -> ~ (off <= k < off + 4) ->
  page_get_byte (page_store32 page off v) k = page_get_byte page k.
Proof.
  intros Hk Hoff Hout. apply Z.bits_inj'. intros j Hj.
  rewrite !page_get_byte_spec, page_store32_spec by lia.
  destruct (Z.ltb_spec j 8) as [Hlt | Hge]; simpl; [ | reflexivity].
  destruct (Z.leb_spec (8 * off) (j + 8 * k)), (Z.ltb_spec (j + 8 * k) (8 * off + 32));
    try lia; reflexivity.
Qed.

(** ** The flags word *)

Lemma testbit_s32_low (x j : Z) :
  0 <= j < 32 -> Z.testbit (s32 x) j = Z.testbit x j.
Proof.
  intros Hj.
  rewrite <- (Z.mod_pow2_bits_low (s32 x) 32 j) by lia.
  rewrite <- (Z.mod_pow2_bits_low x 32 j) by lia.
  f_equal. unfold s32. cbv zeta.
  destruct (x mod 2 ^ 32 <? 2 ^ 31).
  - apply Z.mod_mod. lia.
  - rewrite <- Zminus_mod_idemp_r, Z.mod_same, Z.sub_0_r by lia.
    apply Z.mod_mod. lia.
Qed.

Lemma testbit_status_mask (bshift j : Z) :
  0 <= bshift -> 0 <= j ->
  Z.testbit (Z.shiftl (Z.shiftl 1 MXACT_MEMBER_BITS_PER_XACT - 1) bshift) j =
    (bshift <=? j) && (j <? bshift + 8).
Proof.
  intros Hb Hj. change (Z.shiftl 1 MXACT_MEMBER_BITS_PER_XACT - 1) with (Z.ones 8).
  rewrite Z.shiftl_spec, testbit_ones by lia.
  destruct (Z.leb_spec 0 (j - bshift)), (Z.leb_spec bshift j),
    (Z.ltb_spec (j - bshift) 8), (Z.ltb_spec j (bshift + 8)); try lia; reflexivity.
Qed.

(** Bit [j] of the word [set_member_flags] computes. *)
Lemma set_member_flags_spec (flagsval st bshift j : Z) :
  0 <= bshift -> 0 <= j ->
  Z.testbit (set_member_flags flagsval st bshift) j =
    (j <? 32) &&
    (if (bshift <=? j) && (j <? bshift + 8)
     then Z.testbit st (j - bshift)
     else Z.testbit flagsval j || Z.testbit st (j - bshift)).
Proof.
  intros Hb Hj. unfold set_member_flags.
  rewrite Z.lor_spec, Z.land_spec, !testbit_u32, Z.lnot_spec, Z.shiftl_spec by lia.
  destruct (Z.ltb_spec j 32) as [Hlt | Hge]; simpl.
  - rewrite testbit_s32_low, testbit_status_mask by lia.
    destruct ((bshift <=? j) && (j <? bshift + 8)); simpl.
    + rewrite andb_false_r. reflexivity.
    + rewrite andb_true_r. reflexivity.
  - rewrite andb_false_r. reflexivity.
Qed.

Lemma set_member_flags_range (flagsval st bshift : Z) :
  0 <= bshift -> 0 <= set_member_flags flagsval st bshift < 2 ^ 32.
Proof.
  intros Hb.
  assert (Heq : u32 (set_member_flags flagsval st bshift)
                = set_member_flags flagsval st bshift).
  { apply Z.bits_inj'. intros j Hj.
    rewrite testbit_u32, set_member_flags_spec by lia.
    rewrite andb_assoc, andb_diag. reflexivity. }
  rewrite <- Heq. apply u32_range.
Qed.

Lemma testbit_byte_high (st j : Z) :
  0 <= st < 2 ^ 8 -> ~ (0 <= j < 8) -> Z.testbit st j = false.
Proof.
  intros Hs Hj. destruct (Z.ltb_spec j 0) as [Hneg | Hpos].
  - apply Z.testbit_neg_r. lia.
  - rewrite <- (Z.mod_small st (2 ^ 8)) by exact Hs.
    apply Z.mod_pow2_bits_high. lia.
Qed.

Lemma testbit_word_high (w j : Z) :
  0 <= w < 2 ^ 32 -> 32 <= j -> Z.testbit w j = false.
Proof.
  intros Hw Hj. rewrite <- (Z.mod_small w (2 ^ 32)) by exact Hw.
  apply Z.mod_pow2_bits_high. lia.
Qed.

(** For a one-byte status and a field inside the word, the masked
    store is "clear the field, OR in the status". *)
Lemma set_member_flags_masked (flagsval st bshift : Z) :
  0 <= flagsval < 2 ^ 32 -> 0 <= st < 2 ^ 8 -> 0 <= bshift <= 24 ->
  set_member_flags flagsval st bshift =
    Z.lor (Z.land flagsval (Z.lnot (Z.shiftl MXACT_MEMBER_XACT_BITMASK bshift)))
          (Z.shiftl st bshift).
Proof.
  intros Hf Hs Hb. apply Z.bits_inj'. intros j Hj.
  rewrite set_member_flags_spec by lia.
  rewrite Z.lor_spec, Z.land_spec, Z.lnot_spec by lia.
  unfold MXACT_MEMBER_XACT_BITMASK. rewrite testbit_status_mask by lia.
  rewrite Z.shiftl_spec by lia.
  destruct (Z.leb_spec bshift j), (Z.ltb_spec j (bshift + 8)); simpl.
  - destruct (Z.ltb_spec j 32); [ | lia]. simpl.
    rewrite andb_false_r. reflexivity.
  - rewrite (testbit_byte_high st (j - bshift)) by lia.
    rewrite andb_true_r, !orb_false_r.
    destruct (Z.ltb_spec j 32); simpl; [reflexivity | ].
    apply eq_sym, testbit_word_high; lia.
  - rewrite (testbit_byte_high st (j - bshift)) by lia.
    rewrite andb_true_r, !orb_false_r.
    destruct (Z.ltb_spec j 32); simpl; [reflexivity | lia].
  - lia.
Qed.

Lemma set_member_flags_field (flagsval st bshift : Z) :
  0 <= st < 2 ^ 8 -> 0 <= bshift <= 24 ->
  status_field (set_member_flags flagsval st bshift) bshift = st.
Proof.
  intros Hs Hb. apply Z.bits_inj'. intros j Hj. unfold status_field.
  rewrite Z.land_spec, Z.shiftr_spec, testbit_ones, set_member_flags_spec by lia.
  replace (j + bshift - bshift) with j by lia.
  destruct (Z.leb_spec 0 j); [ | lia].
  destruct (Z.ltb_spec j 8) as [Hlt | Hge]; simpl.
  - destruct (Z.ltb_spec (j + bshift) 32), (Z.leb_spec bshift (j + bshift)),
      (Z.ltb_spec (j + bshift) (bshift + 8)); try lia.
    simpl. apply andb_true_r.
  - rewrite andb_false_r. apply eq_sym, testbit_byte_high; lia.
Qed.

Lemma set_member_flags_other_bits (flagsval st bshift j : Z) :
  0 <= st < 2 ^ 8 -> 0 <= bshift -> 0 <= j < 32 ->
  ~ (bshift <= j < bshift + 8) ->
  Z.testbit (set_member_flags flagsval st bshift) j = Z.testbit flagsval j.
Proof.
  intros Hs Hb Hj Hout. rewrite set_member_flags_spec by lia.
  rewrite (testbit_byte_high st (j - bshift)) by lia.
  destruct (Z.ltb_spec j 32); [ | lia].
  destruct (Z.leb_spec bshift j), (Z.ltb_spec j (bshift + 8)); try lia;
    simpl; apply orb_false_r.
Qed.

(** ** Overwrites *)

Lemma overwrite_spec (M V page j : Z) :
  Z.testbit (overwrite M V page) j =
    Z.testbit page j && negb (Z.testbit M j) || Z.testbit V j.
Proof. unfold overwrite. rewrite Z.lor_spec, Z.ldiff_spec. reflexivity. Qed.

Lemma is_overwrite_id : is_overwrite (fun page => page).
Proof.
  exists 0, 0. intros page. apply Z.bits_inj'. intros j _.
  rewrite overwrite_spec, !Z.bits_0. simpl.
  rewrite andb_true_r, orb_false_r. reflexivity.
Qed.

Lemma is_overwrite_compose (f g : Z -> Z) :
  is_overwrite f -> is_overwrite g -> is_overwrite (fun page => g (f page)).
Proof.
  intros (Mf & Vf & Hf) (Mg & Vg & Hg).
  exists (Z.lor Mf Mg), (Z.lor (Z.ldiff Vf Mg) Vg). intros page.
  rewrite Hg, Hf. apply Z.bits_inj'. intros j _.
  rewrite !overwrite_spec, !Z.lor_spec, Z.ldiff_spec.
  destruct (Z.testbit page j), (Z.testbit Mf j), (Z.testbit Mg j),
    (Z.testbit Vf j), (Z.testbit Vg j); reflexivity.
Qed.

(** Applying an overwrite a second time changes nothing. *)
Lemma is_overwrite_idempotent (f : Z -> Z) (page : Z) :
  is_overwrite f -> f (f page) = f page.
Proof.
  intros (M & V & Hf). rewrite !Hf. apply Z.bits_inj'. intros j _.
  rewrite !overwrite_spec.
  destruct (Z.testbit page j), (Z.testbit M j), (Z.testbit V j); reflexivity.
Qed.

Lemma page_store32_is_overwrite (off v : Z) :
  is_overwrite (fun page => page_store32 page off v).
Proof.
  exists (Z.shiftl (Z.ones 32) (8 * off)), (Z.shiftl (Z.land v (Z.ones 32)) (8 * off)).
  intros page. reflexivity.
Qed.

Lemma flags_update_is_overwrite (off st bshift : Z) :
  0 <= off -> 0 <= bshift ->
  is_overwrite
    (fun page =>
       page_store32 page off (set_member_flags (page_load32 page off) st bshift)).
Proof.
  intros Hoff Hb.
  exists (Z.shiftl (u32 (Z.shiftl (Z.ones 8) bshift)) (8 * off)),
         (Z.shiftl (u32 (Z.shiftl st bshift)) (8 * off)).
  intros page. apply Z.bits_inj'. intros i Hi.
  rewrite overwrite_spec, page_store32_spec, !Z.shiftl_spec by lia.
  destruct (Z.leb_spec (8 * off) i) as [Hlo | Hlo].
  - rewrite set_member_flags_spec, page_load32_spec, !testbit_u32 by lia.
    rewrite !Z.shiftl_spec, testbit_ones by lia.
    replace (i - 8 * off + 8 * off) with i by lia.
    destruct (Z.ltb_spec i (8 * off + 32)), (Z.ltb_spec (i - 8 * off) 32); try lia; simpl.
    + destruct (Z.leb_spec bshift (i - 8 * off)), (Z.ltb_spec (i - 8 * off) (bshift + 8)),
        (Z.leb_spec 0 (i - 8 * off - bshift)), (Z.ltb_spec (i - 8 * off - bshift) 8);
        try lia; simpl;
        destruct (Z.testbit page i), (Z.testbit st (i - 8 * off - bshift)); reflexivity.
    + rewrite andb_true_r, orb_false_r. reflexivity.
  - simpl. rewrite !(Z.testbit_neg_r _ (i - 8 * off)) by lia. simpl.
    rewrite andb_true_r, orb_false_r. reflexivity.
Qed.

(** ** State bookkeeping *)

Lemma shared_set_shared (ctl : SlruCtl) (sh : SlruSharedData) (st : State) :
  shared ctl (set_shared ctl sh st) = sh.
Proof. destruct ctl; reflexivity. Qed.

Lemma set_shared_set_shared (ctl : SlruCtl) (sh1 sh2 : SlruSharedData) (st : State) :
  set_shared ctl sh2 (set_shared ctl sh1 st) = set_shared ctl sh2 st.
Proof. destruct ctl; reflexivity. Qed.

Lemma shared_log_call (ctl : SlruCtl) (e : Event) (st : State) :
  shared ctl (log_call e st) = shared ctl st.
Proof. destruct ctl; reflexivity. Qed.

Lemma page_view_resident (sh : SlruSharedData) (pageno page : Z) :
  page_buffer sh !! pageno = Some page -> page_view sh pageno = Some page.
Proof. intros H. unfold page_view. rewrite H. reflexivity. Qed.

Section Iteration.
Context (cfg : Config).
Hypothesis Hcfg : config_ok cfg.

(** The C [int] variables of the loop hold the values of the macros. *)
Lemma member_layout_int (off : Z) :
  0 <= off < 2 ^ 32 ->
  s32 (MXOffsetToMemberPage cfg off) = MXOffsetToMemberPage cfg off /\
  s32 (MXOffsetToMemberOffset cfg off) = MXOffsetToMemberOffset cfg off /\
  s32 (MXOffsetToFlagsOffset cfg off) = MXOffsetToFlagsOffset cfg off /\
  s32 (MXOffsetToFlagsBitShift off) = MXOffsetToFlagsBitShift off /\
  0 <= MXOffsetToMemberPage cfg off < 2 ^ 30 /\
  0 <= MXOffsetToFlagsBitShift off <= 24 /\
  MXOffsetToFlagsOffset cfg off + 4 <= MXOffsetToMemberOffset cfg off.
Proof.
  intros Hoff.
  destruct (member_layout_eq cfg Hcfg off Hoff) as (Hp & Hf & Hb & Hm).
  destruct (member_layout_in_page cfg Hcfg off Hoff) as (Hf0 & Hf1 & Hm0 & Hm1).
  pose proof (BLCKSZ_range cfg Hcfg) as Hblk.
  destruct (groups_per_page_eq cfg Hcfg) as (_ & _ & Hg).
  pose proof (Z.mod_pos_bound off 4) as Hm4.
  unfold MULTIXACT_FLAGBYTES_PER_GROUP, sizeof_TransactionId in *.
  assert (Hpage : 0 <= MXOffsetToMemberPage cfg off < 2 ^ 30).
  { rewrite Hp. split.
    - apply Z.div_pos; lia.
    - apply Z.div_lt_upper_bound; lia. }
  assert (Hshift : 0 <= MXOffsetToFlagsBitShift off <= 24) by (rewrite Hb; lia).
  repeat split; try lia; apply s32_small; lia.
Qed.

Lemma member_layout_accessible (off : Z) :
  0 <= off < 2 ^ 32 ->
  in_page cfg (s32 (MXOffsetToMemberOffset cfg off)) = true /\
  in_page cfg (s32 (MXOffsetToFlagsOffset cfg off)) = true.
Proof.
  intros Hoff.
  destruct (member_layout_int off Hoff) as (_ & -> & -> & _).
  destruct (member_layout_in_page cfg Hcfg off Hoff) as (Hf0 & Hf1 & Hm0 & Hm1).
  unfold MULTIXACT_FLAGBYTES_PER_GROUP, sizeof_TransactionId in *.
  unfold in_page. split; apply andb_true_intro; split;
    first [apply Z.leb_le | apply Z.leb_le]; lia.
Qed.

(** One iteration of the loop, executed. *)
Lemma RecordNewMultiXact_loop_cons (multi : Z) (member : MultiXactMember)
    (members : list MultiXactMember) (off prev_pageno slotno : Z) (st : State) :
  0 <= off < 2 ^ 32 ->
  prev_pageno = -1 \/
    (slotno = prev_pageno /\
     is_Some (page_buffer (MultiXactMemberCtlData st) !! prev_pageno)) ->
  RecordNewMultiXact_loop cfg multi (member :: members) off prev_pageno slotno st =
    if cfg_USE_ASSERT_CHECKING cfg
       && negb (status member <=? cfg_MultiXactStatusUpdate cfg)
    then Stop AssertFailed st
    else
      let pageno := s32 (MXOffsetToMemberPage cfg off) in
      match page_view (MultiXactMemberCtlData st) pageno with
      | Some page =>
          RecordNewMultiXact_loop cfg multi members (u32 (off + 1)) pageno pageno
            (member_step_state cfg multi off prev_pageno member page st)
      | None =>
          Stop IoError
            (log_call (EvSimpleLruReadPage MultiXactMemberCtl pageno multi) st)
      end.
Proof.
  intros Hoff Hprev.
  destruct (member_layout_int off Hoff) as (Hpi & _ & _ & _ & Hpage & _).
  destruct (member_layout_accessible off Hoff) as (Hmo & Hfo).
  cbn [RecordNewMultiXact_loop]. unfold bind at 1. unfold Assert at 1.
  destruct (cfg_USE_ASSERT_CHECKING cfg
            && negb (status member <=? cfg_MultiXactStatusUpdate cfg));
    [reflexivity | ].
  cbv zeta. unfold bind at 1. unfold member_step_state, touch_page.
  set (pageno := s32 (MXOffsetToMemberPage cfg off)).
  destruct (Z.eqb_spec pageno prev_pageno) as [Heq | Hne].
  - destruct Hprev as [Hm1 | [Hslot [page Hpage']]]; [subst pageno; lia | ].
    subst slotno. rewrite <- Heq in Hpage'. rewrite <- Heq. unfold ret at 1.
    rewrite (page_view_resident _ _ _ Hpage').
    unfold bind at 1, write_u32 at 1. simpl shared. rewrite Hpage', Hmo.
    unfold bind at 1, read_u32 at 1. rewrite shared_set_shared. simpl page_buffer.
    rewrite lookup_insert_eq, Hfo.
    unfold bind at 1, write_u32 at 1. rewrite shared_set_shared. simpl page_buffer.
    rewrite lookup_insert_eq, Hfo.
    unfold bind at 1, set_page_dirty at 1.
    rewrite !shared_set_shared, !set_shared_set_shared. simpl.
    rewrite insert_insert_eq. reflexivity.
  - unfold SimpleLruReadPage at 1. cbv zeta. rewrite shared_log_call.
    simpl shared. unfold page_view.
    destruct (page_buffer (MultiXactMemberCtlData st) !! pageno) as [page | ] eqn:Hres.
    + unfold bind at 1, write_u32 at 1. rewrite shared_log_call. simpl shared.
      rewrite Hres, Hmo.
      unfold bind at 1, read_u32 at 1. rewrite shared_set_shared. simpl page_buffer.
      rewrite lookup_insert_eq, Hfo.
      unfold bind at 1, write_u32 at 1. rewrite shared_set_shared. simpl page_buffer.
      rewrite lookup_insert_eq, Hfo.
      unfold bind at 1, set_page_dirty at 1.
      rewrite !shared_set_shared, !set_shared_set_shared. simpl.
      rewrite insert_insert_eq. reflexivity.
    + destruct (slru_file (MultiXactMemberCtlData st) !! pageno) as [image | ] eqn:Hfile;
        [ | reflexivity].
      unfold bind at 1, write_u32 at 1. rewrite shared_set_shared. simpl page_buffer.
      rewrite lookup_insert_eq, Hmo.
      unfold bind at 1, read_u32 at 1. rewrite shared_set_shared. simpl page_buffer.
      rewrite lookup_insert_eq, Hfo.
      unfold bind at 1, write_u32 at 1. rewrite shared_set_shared. simpl page_buffer.
      rewrite lookup_insert_eq, Hfo.
      unfold bind at 1, set_page_dirty at 1.
      rewrite !shared_set_shared, !set_shared_set_shared. simpl.
      rewrite !insert_insert_eq. reflexivity.
Qed.

End Iteration.

(** ** Effects on a store *)

Lemma page_view_touch_page (pageno page : Z) (sh : SlruSharedData) (p : Z) :
  page_view (touch_page pageno page sh) p =
    if decide (p = pageno) then Some page else page_view sh p.
Proof.
  unfold page_view, touch_page. simpl.
  rewrite lookup_insert. destruct (decide (pageno = p)), (decide (p = pageno));
    try congruence; reflexivity.
Qed.

Lemma touch_page_effect (pageno page : Z) (g : Z -> Z) (sh : SlruSharedData) :
  page_view sh pageno = Some page ->
  store_effect [pageno] (fun p old => if p =? pageno then g old else old)
    sh (touch_page pageno (g page) sh).
Proof.
  intros Hview. repeat split.
  - intros p. rewrite page_view_touch_page.
    destruct (decide (p = pageno)) as [-> | Hne].
    + rewrite Hview, Z.eqb_refl. reflexivity.
    + destruct (Z.eqb_spec p pageno); [contradiction | ].
      destruct (page_view sh p); reflexivity.
  - simpl. intros H. destruct (decide (p = pageno)) as [-> | Hne].
    + right. apply list_elem_of_singleton. reflexivity.
    + left. rewrite lookup_insert_ne in H by congruence. exact H.
  - simpl. intros [H | H].
    + destruct (decide (p = pageno)) as [-> | Hne].
      * rewrite lookup_insert_eq. eauto.
      * rewrite lookup_insert_ne by congruence. exact H.
    + apply list_elem_of_singleton in H. subst p. rewrite lookup_insert_eq. eauto.
  - intros p. simpl. destruct (decide (p ∈ [pageno])) as [Hin | Hout].
    + apply list_elem_of_singleton in Hin. subst p. apply lookup_insert_eq.
    + apply lookup_insert_ne. intros ->. apply Hout, list_elem_of_singleton. reflexivity.
Qed.

Lemma store_effect_nil (sh : SlruSharedData) :
  store_effect [] (fun _ page => page) sh sh.
Proof.
  repeat split.
  - intros p. destruct (page_view sh p); reflexivity.
  - intros H. left. exact H.
  - intros [H | H]; [exact H | ]. apply not_elem_of_nil in H. contradiction.
Qed.

Lemma store_effect_compose (T1 T2 : list Z) (f1 f2 : Z -> Z -> Z)
    (sh sh1 sh2 : SlruSharedData) :
  store_effect T1 f1 sh sh1 -> store_effect T2 f2 sh1 sh2 ->
  store_effect (T1 ++ T2) (fun p page => f2 p (f1 p page)) sh sh2.
Proof.
  intros (Hv1 & Hr1 & Hd1 & Hf1) (Hv2 & Hr2 & Hd2 & Hf2). repeat split.
  - intros p. rewrite Hv2, Hv1. destruct (page_view sh p); reflexivity.
  - rewrite Hr2, Hr1, elem_of_app. tauto.
  - rewrite Hr2, Hr1, elem_of_app. tauto.
  - intros p. rewrite Hd2, Hd1.
    destruct (decide (p ∈ T2)), (decide (p ∈ T1)), (decide (p ∈ T1 ++ T2)) as [Hin | Hout];
      try reflexivity; try (exfalso; apply Hout, elem_of_app; tauto);
      apply elem_of_app in Hin; tauto.
  - congruence.
Qed.

(** Running the same overwriting effect a second time leaves the store
    as the first run left it. *)
Lemma store_effect_twice (T : list Z) (f : Z -> Z -> Z)
    (sh sh1 sh2 : SlruSharedData) :
  (forall p, is_overwrite (f p)) ->
  store_effect T f sh sh1 -> store_effect T f sh1 sh2 -> sh2 = sh1.
Proof.
  intros Hover (Hv1 & Hr1 & Hd1 & Hf1) (Hv2 & Hr2 & Hd2 & Hf2).
  assert (Hbuf : page_buffer sh2 = page_buffer sh1).
  { apply map_eq. intros p.
    destruct (page_buffer sh1 !! p) as [page1 | ] eqn:H1.
    - assert (Hres2 : is_Some (page_buffer sh2 !! p)) by (apply Hr2; left; eauto).
      destruct Hres2 as [page2 H2]. rewrite H2.
      pose proof (Hv2 p) as E2. pose proof (Hv1 p) as E1.
      rewrite (page_view_resident _ _ _ H2), (page_view_resident _ _ _ H1) in E2.
      rewrite (page_view_resident _ _ _ H1) in E1.
      destruct (page_view sh p) as [page | ]; [ | discriminate E1].
      simpl in E1, E2. injection E1 as E1. injection E2 as E2. subst.
      f_equal. apply is_overwrite_idempotent, Hover.
    - destruct (page_buffer sh2 !! p) as [page2 | ] eqn:H2; [ | reflexivity].
      exfalso. assert (Hres : is_Some (page_buffer sh1 !! p)).
      { destruct (proj1 (Hr2 p) (ex_intro _ _ H2)) as [H | H]; [exact H | ].
        apply Hr1. right. exact H. }
      rewrite H1 in Hres. destruct Hres as [? Hres]. discriminate Hres. }
  assert (Hdirty : page_dirty sh2 = page_dirty sh1).
  { apply map_eq. intros p. rewrite Hd2, Hd1.
    destruct (decide (p ∈ T)); reflexivity. }
  destruct sh1, sh2. simpl in *. congruence.
Qed.

(** ** The member loop *)

Section Loop.
Context (cfg : Config).
Hypothesis Hcfg : config_ok cfg.

Lemma member_step_state_members (multi off prev_pageno : Z)
    (member : MultiXactMember) (page : Z) (st : State) :
  MultiXactMemberCtlData (member_step_state cfg multi off prev_pageno member page st)
  = touch_page (s32 (MXOffsetToMemberPage cfg off))
      (member_page_update cfg off member page) (MultiXactMemberCtlData st).
Proof.
  unfold member_step_state. cbv zeta.
  destruct (s32 (MXOffsetToMemberPage cfg off) =? prev_pageno); reflexivity.
Qed.

Lemma member_step_state_frame (multi off prev_pageno : Z)
    (member : MultiXactMember) (page : Z) (st : State) :
  let st' := member_step_state cfg multi off prev_pageno member page st in
  MultiXactOffsetCtlData st' = MultiXactOffsetCtlData st /\
  MultiXactState st' = MultiXactState st /\
  ShmemVariableCache_nextXid st' = ShmemVariableCache_nextXid st /\
  calls st' =
    calls st ++
    (if s32 (MXOffsetToMemberPage cfg off) =? prev_pageno then []
     else [EvSimpleLruReadPage MultiXactMemberCtl
             (s32 (MXOffsetToMemberPage cfg off)) multi]).
Proof.
  unfold member_step_state. cbv zeta.
  destruct (s32 (MXOffsetToMemberPage cfg off) =? prev_pageno); simpl;
    repeat split; try reflexivity. apply eq_sym, app_nil_r.
Qed.

Lemma loop_head_step (multi off prev_pageno : Z)
    (member : MultiXactMember) (page : Z) (st : State) :
  loop_head (s32 (MXOffsetToMemberPage cfg off)) (s32 (MXOffsetToMemberPage cfg off))
    (member_step_state cfg multi off prev_pageno member page st).
Proof.
  right. split; [reflexivity | ]. rewrite member_step_state_members.
  simpl. rewrite lookup_insert_eq. eauto.
Qed.

(** The loop stops only on a failed assertion or a failed read. *)
Lemma RecordNewMultiXact_loop_stops (multi : Z) (members : list MultiXactMember) :
  forall off prev_pageno slotno st f st',
    0 <= off < 2 ^ 32 -> loop_head prev_pageno slotno st ->
    RecordNewMultiXact_loop cfg multi members off prev_pageno slotno st = Stop f st' ->
    (f = AssertFailed /\ cfg_USE_ASSERT_CHECKING cfg = true) \/ f = IoError.
Proof.
  induction members as [ | member members IH]; intros off prev slotno st f st' Hoff Hhead Hrun.
  - discriminate Hrun.
  - rewrite (RecordNewMultiXact_loop_cons cfg Hcfg) in Hrun by assumption.
    destruct (cfg_USE_ASSERT_CHECKING cfg) eqn:Hassert; simpl in Hrun.
    + destruct (negb (status member <=? cfg_MultiXactStatusUpdate cfg)).
      * injection Hrun as <- _. left. split; reflexivity.
      * destruct (page_view _ _) as [page | ].
        -- eapply IH; [apply u32_range | apply loop_head_step | exact Hrun].
        -- injection Hrun as <- _. right. reflexivity.
    + destruct (page_view _ _) as [page | ].
      * eapply IH; [apply u32_range | apply loop_head_step | exact Hrun].
      * injection Hrun as <- _. right. reflexivity.
Qed.

(** The loop leaves the offset store and the counters alone. *)
Lemma RecordNewMultiXact_loop_frame (multi : Z) (members : list MultiXactMember) :
  forall off prev_pageno slotno st,
    0 <= off < 2 ^ 32 -> loop_head prev_pageno slotno st ->
    let st' :=
      final_state (RecordNewMultiXact_loop cfg multi members off prev_pageno slotno st) in
    MultiXactOffsetCtlData st' = MultiXactOffsetCtlData st /\
    MultiXactState st' = MultiXactState st /\
    ShmemVariableCache_nextXid st' = ShmemVariableCache_nextXid st.
Proof.
  induction members as [ | member members IH]; intros off prev slotno st Hoff Hhead.
  - simpl. auto.
  - cbv zeta. rewrite (RecordNewMultiXact_loop_cons cfg Hcfg) by assumption.
    destruct (cfg_USE_ASSERT_CHECKING cfg
              && negb (status member <=? cfg_MultiXactStatusUpdate cfg));
      [simpl; auto | ].
    cbv zeta. destruct (page_view _ _) as [page | ]; [ | simpl; auto].
    destruct (member_step_state_frame multi off prev member page st) as (Ho & Hs & Hx & _).
    specialize (IH (u32 (off + 1)) _ _
                   (member_step_state cfg multi off prev member page st)
                   (u32_range _) (loop_head_step multi off prev member page st)).
    cbv zeta in IH. destruct IH as (Ho' & Hs' & Hx').
    rewrite Ho', Hs', Hx'. auto.
Qed.

(** A completed loop passed its assertions. *)
Lemma RecordNewMultiXact_loop_asserts (multi : Z) (members : list MultiXactMember) :
  forall off prev_pageno slotno st st',
    0 <= off < 2 ^ 32 -> loop_head prev_pageno slotno st ->
    RecordNewMultiXact_loop cfg multi members off prev_pageno slotno st = Ok tt st' ->
    asserts_hold cfg members.
Proof.
  induction members as [ | member members IH]; intros off prev slotno st st' Hoff Hhead Hrun Hon.
  - constructor.
  - rewrite (RecordNewMultiXact_loop_cons cfg Hcfg) in Hrun by assumption.
    rewrite Hon in Hrun. simpl in Hrun.
    destruct (Z.leb_spec (status member) (cfg_MultiXactStatusUpdate cfg)) as [Hle | Hgt];
      [ | discriminate Hrun].
    simpl in Hrun. destruct (page_view _ _) as [page | ]; [ | discriminate Hrun].
    constructor; [exact Hle | ].
    eapply IH; [apply u32_range | apply loop_head_step | exact Hrun | exact Hon].
Qed.

(** The effect of a completed loop on the member store. *)
Lemma RecordNewMultiXact_loop_effect (multi : Z) (members : list MultiXactMember) :
  forall off prev_pageno slotno st st',
    0 <= off < 2 ^ 32 -> loop_head prev_pageno slotno st ->
    RecordNewMultiXact_loop cfg multi members off prev_pageno slotno st = Ok tt st' ->
    store_effect (member_pages cfg off members) (members_page_update cfg off members)
      (MultiXactMemberCtlData st) (MultiXactMemberCtlData st').
Proof.
  induction members as [ | member members IH]; intros off prev slotno st st' Hoff Hhead Hrun.
  - injection Hrun as <-. apply store_effect_nil.
  - rewrite (RecordNewMultiXact_loop_cons cfg Hcfg) in Hrun by assumption.
    destruct (cfg_USE_ASSERT_CHECKING cfg
              && negb (status member <=? cfg_MultiXactStatusUpdate cfg));
      [discriminate Hrun | ].
    cbv zeta in Hrun.
    destruct (page_view _ _) as [page | ] eqn:Hview; [ | discriminate Hrun].
    apply IH in Hrun; [ | apply u32_range | apply loop_head_step].
    rewrite member_step_state_members in Hrun.
    apply (store_effect_compose [_] _ _ _ _ _ _
             (touch_page_effect _ _ (member_page_update cfg off member) _ Hview) Hrun).
Qed.

(** The loop completes when its assertions hold and its pages can be
    read. *)
Lemma RecordNewMultiXact_loop_completes (multi : Z) (members : list MultiXactMember) :
  forall off prev_pageno slotno st,
    0 <= off < 2 ^ 32 -> loop_head prev_pageno slotno st ->
    asserts_hold cfg members ->
    Forall (fun pageno => is_Some (page_view (MultiXactMemberCtlData st) pageno))
           (member_pages cfg off members) ->
    exists st',
      RecordNewMultiXact_loop cfg multi members off prev_pageno slotno st = Ok tt st'.
Proof.
  induction members as [ | member members IH]; intros off prev slotno st Hoff Hhead Hassert Hread.
  - eexists. reflexivity.
  - rewrite (RecordNewMultiXact_loop_cons cfg Hcfg) by assumption.
    simpl in Hread. inversion Hread as [ | ? ? [page Hview] Hrest]; subst.
    assert (Hok : cfg_USE_ASSERT_CHECKING cfg
                  && negb (status member <=? cfg_MultiXactStatusUpdate cfg) = false).
    { destruct (cfg_USE_ASSERT_CHECKING cfg) eqn:Hon; [ | reflexivity].
      specialize (Hassert Hon). inversion Hassert as [ | ? ? Hle _]; subst.
      simpl. apply negb_false_iff, Z.leb_le. exact Hle. }
    rewrite Hok. cbv zeta. rewrite Hview.
    apply IH; [apply u32_range | apply loop_head_step | | ].
    + intros Hon. specialize (Hassert Hon). inversion Hassert; assumption.
    + rewrite member_step_state_members.
      eapply Forall_impl; [exact Hrest | ].
      intros p [pg Hp]. simpl in Hp. rewrite page_view_touch_page.
      destruct (decide _); eauto.
Qed.

End Loop.

(** ** The write path *)

Section WritePath.
Context (cfg : Config).
Hypothesis Hcfg : config_ok cfg.

Lemma offset_layout_int (multi : Z) :
  0 <= multi < 2 ^ 32 ->
  s32 (MultiXactIdToOffsetPage cfg multi) = MultiXactIdToOffsetPage cfg multi /\
  s32 (MultiXactIdToOffsetEntry cfg multi) = MultiXactIdToOffsetEntry cfg multi /\
  0 <= MultiXactIdToOffsetEntry cfg multi * sizeof_MultiXactOffset /\
  MultiXactIdToOffsetEntry cfg multi * sizeof_MultiXactOffset
    + sizeof_MultiXactOffset <= cfg_BLCKSZ cfg.
Proof.
  intros Hm. destruct (offsets_per_page_eq cfg Hcfg) as (Hu & He & Hr).
  pose proof (BLCKSZ_range cfg Hcfg) as Hb.
  unfold MultiXactIdToOffsetPage, MultiXactIdToOffsetEntry, sizeof_MultiXactOffset.
  rewrite Hu.
  pose proof (Z.mod_pos_bound multi (cfg_BLCKSZ cfg / 4)) as Hmod.
  pose proof (Z.mul_div_le (cfg_BLCKSZ cfg) 4) as Hdiv.
  assert (Hpage : 0 <= multi / (cfg_BLCKSZ cfg / 4) < 2 ^ 31).
  { split; [apply Z.div_pos; lia | apply Z.div_lt_upper_bound; lia]. }
  repeat split; try lia; apply s32_small; lia.
Qed.

(** Step 1 of the write path, executed. *)
Lemma RecordNewMultiXact_eq (multi offset : Z) (members : list MultiXactMember)
    (st : State) :
  0 <= multi < 2 ^ 32 ->
  RecordNewMultiXact cfg multi offset members st =
    let pageno := s32 (MultiXactIdToOffsetPage cfg multi) in
    match page_view (MultiXactOffsetCtlData st) pageno with
    | Some page =>
        RecordNewMultiXact_loop cfg multi members offset (-1) pageno
          (offset_step_state cfg multi offset page st)
    | None =>
        Stop IoError (log_call (EvSimpleLruReadPage MultiXactOffsetCtl pageno multi) st)
    end.
Proof.
  intros Hm. destruct (offset_layout_int multi Hm) as (_ & He & He0 & He1).
  assert (Hin : in_page cfg (s32 (MultiXactIdToOffsetEntry cfg multi)
                             * sizeof_MultiXactOffset) = true).
  { rewrite He. unfold in_page. unfold sizeof_MultiXactOffset in *.
    apply andb_true_intro. split; apply Z.leb_le; lia. }
  unfold RecordNewMultiXact, offset_step_state, touch_page. cbv zeta.
  set (pageno := s32 (MultiXactIdToOffsetPage cfg multi)).
  unfold bind at 1, SimpleLruReadPage at 1. cbv zeta. rewrite shared_log_call.
  simpl shared. unfold page_view.
  destruct (page_buffer (MultiXactOffsetCtlData st) !! pageno) as [page | ] eqn:Hres.
  - unfold bind at 1, write_u32 at 1. rewrite shared_log_call. simpl shared.
    rewrite Hres, Hin.
    unfold bind at 1, set_page_dirty at 1.
    rewrite !shared_set_shared, !set_shared_set_shared. reflexivity.
  - destruct (slru_file (MultiXactOffsetCtlData st) !! pageno) as [image | ] eqn:Hfile;
      [ | reflexivity].
    unfold bind at 1, write_u32 at 1. rewrite shared_set_shared. simpl page_buffer.
    rewrite lookup_insert_eq, Hin.
    unfold bind at 1, set_page_dirty at 1.
    rewrite !shared_set_shared, !set_shared_set_shared. simpl.
    rewrite !insert_insert_eq. reflexivity.
Qed.

Lemma loop_head_start (slotno : Z) (st : State) : loop_head (-1) slotno st.
Proof. left. reflexivity. Qed.

(** C9.  For a 32-bit member offset the flags word and the
    transaction-id word lie inside one page, and [RecordNewMultiXact]
    never makes an access outside a page buffer: it cannot stop with
    a memory fault, which is how the embedding reports such an
    access. *)
Theorem member_accesses_stay_in_page (off : Z) :
  0 <= off < 2 ^ 32 ->
  (0 <= MXOffsetToFlagsOffset cfg off /\
   MXOffsetToFlagsOffset cfg off + MULTIXACT_FLAGBYTES_PER_GROUP <= cfg_BLCKSZ cfg /\
   0 <= MXOffsetToMemberOffset cfg off /\
   MXOffsetToMemberOffset cfg off + sizeof_TransactionId <= cfg_BLCKSZ cfg) /\
  (in_page cfg (s32 (MXOffsetToFlagsOffset cfg off)) = true /\
   in_page cfg (s32 (MXOffsetToMemberOffset cfg off)) = true) /\
  forall multi members st f st',
    0 <= multi < 2 ^ 32 ->
    RecordNewMultiXact cfg multi off members st = Stop f st' ->
    f <> MemoryFault.
Proof.
  intros Hoff. split; [apply (member_layout_in_page cfg Hcfg off Hoff) | ].
  split; [destruct (member_layout_accessible cfg Hcfg off Hoff); auto | ].
  intros multi members st f st' Hm Hrun.
  rewrite RecordNewMultiXact_eq in Hrun by assumption. cbv zeta in Hrun.
  destruct (page_view _ _) as [page | ].
  - apply (RecordNewMultiXact_loop_stops cfg Hcfg) in Hrun;
      [ | assumption | apply loop_head_start].
    destruct Hrun as [[-> _] | ->]; discriminate.
  - injection Hrun as <- _. discriminate.
Qed.

End WritePath.

(** ** Replaying a create record twice *)

Section Idempotence.
Context (cfg : Config).
Hypothesis Hcfg : config_ok cfg.

Lemma member_page_update_is_overwrite (off : Z) (member : MultiXactMember) :
  0 <= off < 2 ^ 32 -> is_overwrite (member_page_update cfg off member).
Proof.
  intros Hoff.
  destruct (member_layout_int cfg Hcfg off Hoff) as (_ & _ & Hf & Hb & _ & Hshift & _).
  destruct (member_layout_in_page cfg Hcfg off Hoff) as (Hf0 & _).
  unfold member_page_update. cbv zeta.
  apply (is_overwrite_compose
           (fun page => page_store32 page (s32 (MXOffsetToMemberOffset cfg off)) (xid member))
           (fun page => page_store32 page (s32 (MXOffsetToFlagsOffset cfg off))
                          (set_member_flags
                             (page_load32 page (s32 (MXOffsetToFlagsOffset cfg off)))
                             (status member) (s32 (MXOffsetToFlagsBitShift off))))).
  - apply page_store32_is_overwrite.
  - apply flags_update_is_overwrite; lia.
Qed.

Lemma members_page_update_is_overwrite (members : list MultiXactMember) :
  forall off pageno,
    0 <= off < 2 ^ 32 -> is_overwrite (members_page_update cfg off members pageno).
Proof.
  induction members as [ | member members IH]; intros off pageno Hoff.
  - apply is_overwrite_id.
  - cbn [members_page_update].
    apply (is_overwrite_compose
             (fun page => if pageno =? s32 (MXOffsetToMemberPage cfg off)
                          then member_page_update cfg off member page else page)
             (members_page_update cfg (u32 (off + 1)) members pageno)).
    + destruct (pageno =? s32 (MXOffsetToMemberPage cfg off)).
      * apply member_page_update_is_overwrite, Hoff.
      * apply is_overwrite_id.
    + apply IH, u32_range.
Qed.

Lemma offset_page_update_is_overwrite (multi offset pageno : Z) :
  is_overwrite (offset_page_update cfg multi offset pageno).
Proof.
  unfold offset_page_update.
  destruct (pageno =? s32 (MultiXactIdToOffsetPage cfg multi)).
  - apply page_store32_is_overwrite.
  - apply is_overwrite_id.
Qed.

(** The effect of a completed [RecordNewMultiXact] on the two stores. *)
Lemma RecordNewMultiXact_effect (multi offset : Z) (members : list MultiXactMember)
    (st st' : State) :
  0 <= multi < 2 ^ 32 -> 0 <= offset < 2 ^ 32 ->
  RecordNewMultiXact cfg multi offset members st = Ok tt st' ->
  store_effect [s32 (MultiXactIdToOffsetPage cfg multi)]
    (offset_page_update cfg multi offset)
    (MultiXactOffsetCtlData st) (MultiXactOffsetCtlData st') /\
  store_effect (member_pages cfg offset members)
    (members_page_update cfg offset members)
    (MultiXactMemberCtlData st) (MultiXactMemberCtlData st') /\
  asserts_hold cfg members.
Proof.
  intros Hm Hoff Hrun.
  rewrite (RecordNewMultiXact_eq cfg Hcfg) in Hrun by assumption. cbv zeta in Hrun.
  destruct (page_view _ _) as [page | ] eqn:Hview; [ | discriminate Hrun].
  pose proof (RecordNewMultiXact_loop_frame cfg Hcfg multi members offset (-1)
                (s32 (MultiXactIdToOffsetPage cfg multi))
                (offset_step_state cfg multi offset page st) Hoff
                (loop_head_start _ _)) as Hframe.
  cbv zeta in Hframe. rewrite Hrun in Hframe. simpl in Hframe.
  destruct Hframe as (Hoffsets & _).
  pose proof (RecordNewMultiXact_loop_effect cfg Hcfg _ _ _ _ _ _ _ Hoff
                (loop_head_start _ _) Hrun) as Heffect.
  pose proof (RecordNewMultiXact_loop_asserts cfg Hcfg _ _ _ _ _ _ _ Hoff
                (loop_head_start _ _) Hrun) as Hasserts.
  split; [ | split; assumption].
  rewrite Hoffsets. unfold offset_step_state. cbv zeta. simpl.
  apply (touch_page_effect _ _
           (fun old => page_store32 old
                         (s32 (MultiXactIdToOffsetEntry cfg multi) * sizeof_MultiXactOffset)
                         offset) _ Hview).
Qed.

(** [RecordNewMultiXact] completes when its assertions hold and the
    pages it needs can be read. *)
Lemma RecordNewMultiXact_completes (multi offset : Z)
    (members : list MultiXactMember) (st : State) :
  0 <= multi < 2 ^ 32 -> 0 <= offset < 2 ^ 32 ->
  asserts_hold cfg members ->
  is_Some (page_view (MultiXactOffsetCtlData st) (s32 (MultiXactIdToOffsetPage cfg multi))) ->
  Forall (fun pageno => is_Some (page_view (MultiXactMemberCtlData st) pageno))
         (member_pages cfg offset members) ->
  exists st', RecordNewMultiXact cfg multi offset members st = Ok tt st'.
Proof.
  intros Hm Hoff Hasserts [page Hview] Hread.
  rewrite (RecordNewMultiXact_eq cfg Hcfg) by assumption. cbv zeta. rewrite Hview.
  apply (RecordNewMultiXact_loop_completes cfg Hcfg);
    [assumption | apply loop_head_start | assumption | exact Hread].
Qed.

(** After a completed run, a run with the same arguments from any
    state that holds the same two stores completes and leaves the stores
    as they are. *)
Lemma RecordNewMultiXact_rerun (multi offset : Z) (members : list MultiXactMember)
    (st st1 sta : State) :
  0 <= multi < 2 ^ 32 -> 0 <= offset < 2 ^ 32 ->
  RecordNewMultiXact cfg multi offset members st = Ok tt st1 ->
  MultiXactOffsetCtlData sta = MultiXactOffsetCtlData st1 ->
  MultiXactMemberCtlData sta = MultiXactMemberCtlData st1 ->
  exists st2,
    RecordNewMultiXact cfg multi offset members sta = Ok tt st2 /\
    MultiXactOffsetCtlData st2 = MultiXactOffsetCtlData st1 /\
    MultiXactMemberCtlData st2 = MultiXactMemberCtlData st1.
Proof.
  intros Hm Hoff Hrun1 Hsameo Hsamem.
  destruct (RecordNewMultiXact_effect _ _ _ _ _ Hm Hoff Hrun1) as (Ho1 & Hm1 & Hasserts).
  assert (Hagain : exists st2,
             RecordNewMultiXact cfg multi offset members sta = Ok tt st2).
  { apply RecordNewMultiXact_completes; try assumption.
    - rewrite Hsameo. destruct Ho1 as (_ & Hres & _).
      assert (Hin : is_Some (page_buffer (MultiXactOffsetCtlData st1)
                               !! s32 (MultiXactIdToOffsetPage cfg multi))).
      { apply Hres. right. apply list_elem_of_singleton. reflexivity. }
      destruct Hin as [page Hin]. rewrite (page_view_resident _ _ _ Hin). eauto.
    - rewrite Hsamem. destruct Hm1 as (_ & Hres & _).
      apply Forall_forall. intros p Hp.
      assert (Hin : is_Some (page_buffer (MultiXactMemberCtlData st1) !! p))
        by (apply Hres; right; exact Hp).
      destruct Hin as [page Hin]. rewrite (page_view_resident _ _ _ Hin). eauto. }
  destruct Hagain as [st2 Hrun2]. exists st2. split; [exact Hrun2 | ].
  destruct (RecordNewMultiXact_effect _ _ _ _ _ Hm Hoff Hrun2) as (Ho2 & Hm2 & _).
  rewrite Hsameo in Ho2. rewrite Hsamem in Hm2.
  split.
  - eapply store_effect_twice; [ | exact Ho1 | exact Ho2].
    intros p. apply offset_page_update_is_overwrite.
  - eapply store_effect_twice; [ | exact Hm1 | exact Hm2].
    intros p. apply members_page_update_is_overwrite, Hoff.
Qed.

End Idempotence.

(** ** The write path against its specification *)

Lemma page_touched_intro (ctl : SlruCtl) (pageno : Z) (R : Z -> Z -> Prop)
    (st st' : State) (page page' : Z) :
  page_view (shared ctl st) pageno = Some page ->
  R page page' ->
  shared ctl st' = touch_page pageno page' (shared ctl st) ->
  (forall c, c <> ctl -> shared c st' = shared c st) ->
  MultiXactState st' = MultiXactState st ->
  ShmemVariableCache_nextXid st' = ShmemVariableCache_nextXid st ->
  page_touched ctl pageno R st st'.
Proof.
  intros Hview HR Hsh Hother Hstate Hxid. unfold page_touched. rewrite Hsh. simpl.
  split; [ | split; [ | split; [ | split]]].
  - exists page, page'. rewrite lookup_insert_eq. auto.
  - apply lookup_insert_eq.
  - intros p Hp. rewrite !lookup_insert_ne by congruence. auto.
  - reflexivity.
  - auto.
Qed.

Section WritePathSpec.
Context (cfg : Config).
Hypothesis Hcfg : config_ok cfg.

Lemma offset_store_stored (multi offset page : Z) :
  0 <= multi < 2 ^ 32 -> 0 <= offset < 2 ^ 32 ->
  offset_entry_stored cfg multi offset page
    (page_store32 page
       (s32 (MultiXactIdToOffsetEntry cfg multi) * sizeof_MultiXactOffset) offset).
Proof.
  intros Hm Hoff. destruct (offset_layout_int cfg Hcfg multi Hm) as (_ & -> & He0 & He1).
  unfold offset_entry_stored. cbv zeta. split.
  - apply page_load32_store32_same; assumption.
  - intros k Hk Hout. unfold sizeof_MultiXactOffset in *.
    apply page_get_byte_store32_other; lia.
Qed.

Lemma member_page_update_stored (off : Z) (member : MultiXactMember) (page : Z) :
  0 <= off < 2 ^ 32 -> member_ok member ->
  member_stored cfg off member page (member_page_update cfg off member page).
Proof.
  intros Hoff [Hxid Hstatus].
  destruct (member_layout_int cfg Hcfg off Hoff) as (_ & Hmo & Hfo & Hbs & _ & Hshift & Hsep).
  destruct (member_layout_in_page cfg Hcfg off Hoff) as (Hf0 & _ & Hm0 & _).
  unfold member_stored, member_page_update. cbv zeta. rewrite Hmo, Hfo, Hbs.
  set (mo := MXOffsetToMemberOffset cfg off) in *.
  set (fo := MXOffsetToFlagsOffset cfg off) in *.
  set (bshift := MXOffsetToFlagsBitShift off) in *.
  assert (Hold : page_load32 (page_store32 page mo (xid member)) fo = page_load32 page fo)
    by (apply page_load32_store32_other; lia).
  rewrite Hold.
  set (w := set_member_flags (page_load32 page fo) (status member) bshift).
  assert (Hw : 0 <= w < 2 ^ 32) by (apply set_member_flags_range; lia).
  assert (Hnew : page_load32 (page_store32 (page_store32 page mo (xid member)) fo w) fo = w)
    by (apply page_load32_store32_same; lia).
  rewrite Hnew.
  split; [ | split; [ | split; [ | split]]].
  - rewrite page_load32_store32_other by lia.
    apply page_load32_store32_same; lia.
  - apply set_member_flags_masked; [apply page_load32_range | assumption | lia].
  - apply set_member_flags_field; [assumption | lia].
  - intros j Hj Hout. unfold MXACT_MEMBER_BITS_PER_XACT in Hout.
    apply set_member_flags_other_bits; lia.
  - intros k Hk Hout1 Hout2.
    unfold sizeof_TransactionId, MULTIXACT_FLAGBYTES_PER_GROUP in *.
    rewrite !page_get_byte_store32_other by lia. reflexivity.
Qed.

Lemma RecordNewMultiXact_loop_stored (multi : Z) (members : list MultiXactMember) :
  forall off prev_pageno slotno st st',
    0 <= off < 2 ^ 32 -> loop_head prev_pageno slotno st ->
    Forall member_ok members ->
    RecordNewMultiXact_loop cfg multi members off prev_pageno slotno st = Ok tt st' ->
    members_stored cfg multi members off prev_pageno st st'.
Proof.
  induction members as [ | member members IH];
    intros off prev slotno st st' Hoff Hhead Hok Hrun.
  - injection Hrun as <-. constructor.
  - rewrite (RecordNewMultiXact_loop_cons cfg Hcfg) in Hrun by assumption.
    destruct (cfg_USE_ASSERT_CHECKING cfg
              && negb (status member <=? cfg_MultiXactStatusUpdate cfg));
      [discriminate Hrun | ].
    cbv zeta in Hrun.
    destruct (page_view _ _) as [page | ] eqn:Hview; [ | discriminate Hrun].
    inversion Hok as [ | ? ? Hmember Hrest]; subst.
    destruct (member_layout_int cfg Hcfg off Hoff) as (Hpi & _).
    destruct (member_step_state_frame cfg multi off prev member page st)
      as (Ho & Hs & Hx & Hcalls).
    rewrite Hpi in *.
    apply (members_stored_cons cfg multi member members off prev st
             (member_step_state cfg multi off prev member page st) st').
    + apply (page_touched_intro MultiXactMemberCtl _ _ _ _ page
               (member_page_update cfg off member page)).
      * exact Hview.
      * apply member_page_update_stored; assumption.
      * unfold shared. rewrite member_step_state_members, Hpi. reflexivity.
      * intros c Hc. destruct c; [exact Ho | congruence].
      * exact Hs.
      * exact Hx.
    + exact Hcalls.
    + apply (IH _ _ (MXOffsetToMemberPage cfg off));
        [apply u32_range | | assumption | exact Hrun].
      rewrite <- Hpi. apply loop_head_step.
Qed.

(** What a completed run has done, for the statements about the
    write path. *)
Lemma RecordNewMultiXact_ok_spec (id startOffset : Z)
    (members : list MultiXactMember) (st st' : State) :
  0 <= id < 2 ^ 32 -> 0 <= startOffset < 2 ^ 32 -> Forall member_ok members ->
  RecordNewMultiXact cfg id startOffset members st = Ok tt st' ->
  recordNewGroup_spec cfg id startOffset members st st'.
Proof.
  intros Hid Hoff Hok Hrun.
  destruct (offset_layout_int cfg Hcfg id Hid) as (Hpi & _).
  rewrite (RecordNewMultiXact_eq cfg Hcfg) in Hrun by assumption. cbv zeta in Hrun.
  rewrite Hpi in Hrun.
  destruct (page_view _ _) as [page | ] eqn:Hview; [ | discriminate Hrun].
  exists (offset_step_state cfg id startOffset page st).
  split; [ | split].
  - apply (page_touched_intro MultiXactOffsetCtl _ _ _ _ page
             (page_store32 page
                (s32 (MultiXactIdToOffsetEntry cfg id) * sizeof_MultiXactOffset)
                startOffset)).
    + exact Hview.
    + apply offset_store_stored; assumption.
    + unfold offset_step_state. cbv zeta. rewrite Hpi. reflexivity.
    + intros c Hc. destruct c; [congruence | reflexivity].
    + reflexivity.
    + reflexivity.
  - unfold offset_step_state. cbv zeta. rewrite Hpi. reflexivity.
  - eapply RecordNewMultiXact_loop_stored;
      [assumption | apply loop_head_start | assumption | exact Hrun].
Qed.

(** The macros of the code compute what the formulas of the
    specification say. *)
Lemma offset_layout_words (id : Z) :
  MultiXactIdToOffsetPage cfg id = groupToOffsetPage cfg id /\
  MultiXactIdToOffsetEntry cfg id = groupToOffsetEntry cfg id.
Proof.
  destruct (offsets_per_page_eq cfg Hcfg) as (Hu & _).
  unfold MultiXactIdToOffsetPage, MultiXactIdToOffsetEntry. rewrite Hu.
  split; reflexivity.
Qed.

Lemma member_layout_words (off : Z) :
  0 <= off < 2 ^ 32 ->
  MXOffsetToMemberPage cfg off = offsetToMemberPage cfg off /\
  MXOffsetToFlagsOffset cfg off = offsetToFlagsByteOffset cfg off /\
  MXOffsetToFlagsBitShift off = offsetToFlagsBitShift off /\
  MXOffsetToMemberOffset cfg off = offsetToMemberByteOffset cfg off.
Proof.
  intros Hoff. destruct (member_layout_eq cfg Hcfg off Hoff) as (-> & -> & -> & ->).
  repeat split; reflexivity.
Qed.

Lemma page_touched_impl (ctl : SlruCtl) (pageno : Z) (R R' : Z -> Z -> Prop)
    (st st' : State) :
  (forall page page', R page page' -> R' page page') ->
  page_touched ctl pageno R st st' -> page_touched ctl pageno R' st st'.
Proof.
  intros Himpl ((page & page' & Hview & Hres & HR) & Hrest).
  split; [ | exact Hrest]. exists page, page'. auto.
Qed.

Lemma offset_entry_stored_written (id startOffset page page' : Z) :
  offset_entry_stored cfg id startOffset page page' ->
  offset_entry_written cfg id startOffset page page'.
Proof.
  unfold offset_entry_stored, offset_entry_written. cbv zeta.
  destruct (offset_layout_words id) as [_ ->]. unfold sizeof_MultiXactOffset.
  intros H. exact H.
Qed.

Lemma member_stored_written (off : Z) (member : MultiXactMember) (page page' : Z) :
  0 <= off < 2 ^ 32 ->
  member_stored cfg off member page page' -> member_written cfg off member page page'.
Proof.
  intros Hoff. unfold member_stored, member_written. cbv zeta.
  destruct (member_layout_words off Hoff) as (_ & -> & -> & ->).
  intros H. exact H.
Qed.

Lemma members_stored_written (id : Z) (members : list MultiXactMember)
    (off prev : Z) (st st' : State) :
  members_stored cfg id members off prev st st' ->
  0 <= off < 2 ^ 32 ->
  members_written cfg id members off prev st st'.
Proof.
  induction 1 as [ | member members0 off prev st st1 st2 Htouched Hcalls _ IH];
    intros Hoff.
  - constructor.
  - destruct (member_layout_words off Hoff) as (Hpage & _).
    rewrite Hpage in *.
    econstructor.
    + eapply page_touched_impl; [ | exact Htouched].
      intros page page'. apply member_stored_written, Hoff.
    + exact Hcalls.
    + apply IH, u32_range.
Qed.

(** The pages the loop visits are the pages of the member offsets
    [offset + i]. *)
Lemma member_pages_readable (members : list MultiXactMember) (st : State) :
  forall offset,
    0 <= offset < 2 ^ 32 ->
    (forall i : nat,
        (i < length members)%nat ->
        is_Some (page_view (MultiXactMemberCtlData st)
                   (offsetToMemberPage cfg (u32 (offset + Z.of_nat i))))) ->
    Forall (fun pageno => is_Some (page_view (MultiXactMemberCtlData st) pageno))
           (member_pages cfg offset members).
Proof.
  induction members as [ | member members0 IH]; intros offset Hoff Hread.
  - constructor.
  - simpl. constructor.
    + destruct (member_layout_int cfg Hcfg offset Hoff) as (-> & _).
      destruct (member_layout_words offset Hoff) as (-> & _).
      specialize (Hread 0%nat ltac:(simpl; lia)).
      rewrite Z.add_0_r, u32_small in Hread by lia. exact Hread.
    + apply IH; [apply u32_range | ].
      intros i Hi. specialize (Hread (S i) ltac:(simpl; lia)).
      replace (u32 (u32 (offset + 1) + Z.of_nat i))
        with (u32 (offset + Z.of_nat (S i))); [exact Hread | ].
      unfold u32. rewrite Z.add_mod_idemp_l by lia. f_equal. lia.
Qed.

(** C1.  [RecordNewMultiXact] does what the specification of
    [recordNewGroup] says: it first stores the start offset in the
    entry of the group id on its offset page (entry [id mod
    entriesPerPage] of page [id div entriesPerPage]) and marks the page
    dirty; then, member by member and in order, it stores the
    transaction id at the member byte offset and replaces the 8-bit
    status field of the flags word by a masked read-modify-write,
    asking the member store for a page only when the page number
    differs from that of the previous member and marking the page
    dirty.  Pages, entries, byte offsets and bit shifts are the ones the
    formulas of the specification give.  It completes whenever the
    pages can be read (and the statuses pass the assertion of an
    assertion-enabled build). *)
Theorem RecordNewMultiXact_implements_recordNewGroup (id startOffset : Z)
    (members : list MultiXactMember) (st : State) :
  0 <= id < 2 ^ 32 -> 0 <= startOffset < 2 ^ 32 -> Forall member_ok members ->
  (forall st',
      RecordNewMultiXact cfg id startOffset members st = Ok tt st' ->
      recordNewGroup cfg id startOffset members st st') /\
  (asserts_hold cfg members -> group_pages_readable cfg id startOffset members st ->
   exists st', RecordNewMultiXact cfg id startOffset members st = Ok tt st').
Proof.
  intros Hid Hoff Hok.
  destruct (offset_layout_words id) as [Hpage Hentry]. split.
  - intros st' Hrun.
    destruct (RecordNewMultiXact_ok_spec id startOffset members st st' Hid Hoff Hok Hrun)
      as (st1 & Htouched & Hcalls & Hmembers).
    rewrite Hpage in Htouched, Hcalls.
    exists st1. split; [ | split].
    + eapply page_touched_impl; [ | exact Htouched].
      intros page page'. apply offset_entry_stored_written.
    + exact Hcalls.
    + apply members_stored_written; assumption.
  - intros Hasserts [Hopage Hmpages].
    destruct (offset_layout_int cfg Hcfg id Hid) as (Hpi & _).
    apply (RecordNewMultiXact_completes cfg Hcfg); try assumption.
    + rewrite Hpi, Hpage. exact Hopage.
    + apply member_pages_readable; assumption.
Qed.

End WritePathSpec.

(** ** Invalid statuses *)

Section InvalidStatus.
Context (cfg : Config).
Hypothesis Hcfg : config_ok cfg.

(** Without assertion checking the status bound plays no part. *)
Lemma RecordNewMultiXact_loop_ignores_bound (bound multi : Z)
    (members : list MultiXactMember) :
  cfg_USE_ASSERT_CHECKING cfg = false ->
  forall off prev_pageno slotno st,
    RecordNewMultiXact_loop (with_status_bound cfg bound) multi members
      off prev_pageno slotno st
    = RecordNewMultiXact_loop cfg multi members off prev_pageno slotno st.
Proof.
  intros Hoff. induction members as [ | member members IH]; intros off prev slotno st.
  - reflexivity.
  - cbn [RecordNewMultiXact_loop]. unfold bind at 1 3. unfold Assert.
    simpl cfg_USE_ASSERT_CHECKING. rewrite Hoff. simpl andb. cbv iota.
    unfold bind.
    change (MXOffsetToMemberPage (with_status_bound cfg bound))
      with (MXOffsetToMemberPage cfg).
    change (MXOffsetToMemberOffset (with_status_bound cfg bound))
      with (MXOffsetToMemberOffset cfg).
    change (MXOffsetToFlagsOffset (with_status_bound cfg bound))
      with (MXOffsetToFlagsOffset cfg).
    change (write_u32 (with_status_bound cfg bound)) with (write_u32 cfg).
    change (read_u32 (with_status_bound cfg bound)) with (read_u32 cfg).
    destruct (if _ =? _ then _ else _) as [slot st1 | ]; [ | reflexivity].
    destruct (write_u32 cfg _ _ _ _ st1) as [[] st2 | ]; [ | reflexivity].
    destruct (read_u32 cfg _ _ _ st2) as [flagsval st3 | ]; [ | reflexivity].
    destruct (write_u32 cfg _ _ _ _ st3) as [[] st4 | ]; [ | reflexivity].
    destruct (set_page_dirty _ _ st4) as [[] st5 | ]; [ | reflexivity].
    apply IH.
Qed.

(** With assertion checking the loop runs up to an invalid member
    and stops there. *)
Lemma RecordNewMultiXact_loop_stops_at_invalid (multi : Z)
    (before : list MultiXactMember) (member : MultiXactMember)
    (after : list MultiXactMember) :
  cfg_USE_ASSERT_CHECKING cfg = true ->
  cfg_MultiXactStatusUpdate cfg < status member ->
  forall off prev_pageno slotno st,
    0 <= off < 2 ^ 32 -> loop_head prev_pageno slotno st ->
    RecordNewMultiXact_loop cfg multi (before ++ member :: after)
      off prev_pageno slotno st
    = match RecordNewMultiXact_loop cfg multi before off prev_pageno slotno st with
      | Ok _ st1 => Stop AssertFailed st1
      | Stop f st1 => Stop f st1
      end.
Proof.
  intros Hon Hbad. induction before as [ | m before IH];
    intros off prev slotno st Hoff Hhead.
  - simpl. unfold bind, Assert. rewrite Hon.
    destruct (Z.leb_spec (status member) (cfg_MultiXactStatusUpdate cfg)); [lia | ].
    reflexivity.
  - rewrite <- app_comm_cons.
    rewrite !(RecordNewMultiXact_loop_cons cfg Hcfg) by assumption.
    destruct (cfg_USE_ASSERT_CHECKING cfg
              && negb (status m <=? cfg_MultiXactStatusUpdate cfg)); [reflexivity | ].
    cbv zeta. destruct (page_view _ _) as [page | ]; [ | reflexivity].
    apply IH; [apply u32_range | apply loop_head_step].
Qed.

(** C7, as amended.  The write path does not reject a member whose
    status exceeds [MultiXactStatusUpdate]; the only check is the
    [Assert] inside the member loop.  Without assertion checking the
    status bound does not influence the run at all, and a completed
    run has stored every status, valid or not, in its field.  With
    assertion checking the run writes the offset entry and all the
    members that come before the invalid one, and then the process
    stops on the failed assertion. *)
Theorem invalid_status_is_only_asserted (multi offset : Z)
    (before : list MultiXactMember) (member : MultiXactMember)
    (after : list MultiXactMember) (st : State) :
  0 <= multi < 2 ^ 32 -> 0 <= offset < 2 ^ 32 ->
  cfg_MultiXactStatusUpdate cfg < status member ->
  (cfg_USE_ASSERT_CHECKING cfg = false ->
     (forall bound,
         RecordNewMultiXact (with_status_bound cfg bound) multi offset
           (before ++ member :: after) st
         = RecordNewMultiXact cfg multi offset (before ++ member :: after) st) /\
     (Forall member_ok (before ++ member :: after) ->
      forall st',
        RecordNewMultiXact cfg multi offset (before ++ member :: after) st = Ok tt st' ->
        recordNewGroup_spec cfg multi offset (before ++ member :: after) st st')) /\
  (cfg_USE_ASSERT_CHECKING cfg = true ->
     RecordNewMultiXact cfg multi offset (before ++ member :: after) st
     = match RecordNewMultiXact cfg multi offset before st with
       | Ok _ st1 => Stop AssertFailed st1
       | Stop f st1 => Stop f st1
       end).
Proof.
  intros Hm Hoff Hbad. split.
  - intros Hoff'. split.
    + intros bound. unfold RecordNewMultiXact. cbv zeta. unfold bind.
      change (MultiXactIdToOffsetPage (with_status_bound cfg bound))
        with (MultiXactIdToOffsetPage cfg).
      change (MultiXactIdToOffsetEntry (with_status_bound cfg bound))
        with (MultiXactIdToOffsetEntry cfg).
      change (write_u32 (with_status_bound cfg bound)) with (write_u32 cfg).
      destruct (SimpleLruReadPage _ _ _ _ st) as [slot st1 | ]; [ | reflexivity].
      destruct (write_u32 cfg _ _ _ _ st1) as [[] st2 | ]; [ | reflexivity].
      destruct (set_page_dirty _ _ st2) as [[] st3 | ]; [ | reflexivity].
      apply RecordNewMultiXact_loop_ignores_bound, Hoff'.
    + intros Hok st' Hrun. apply RecordNewMultiXact_ok_spec; assumption.
  - intros Hon. rewrite !(RecordNewMultiXact_eq cfg Hcfg) by assumption. cbv zeta.
    destruct (page_view _ _) as [page | ]; [ | reflexivity].
    apply RecordNewMultiXact_loop_stops_at_invalid;
      [assumption | assumption | assumption | apply loop_head_start].
Qed.

End InvalidStatus.

(** ** Advancing the counters *)

Lemma MultiXactAdvanceNextMXact_eq (minMulti minMultiOffset : Z) (st : State) :
  MultiXactAdvanceNextMXact minMulti minMultiOffset st =
    match MultiXactState st with
    | None => Stop MemoryFault st
    | Some ms =>
        if MultiXactIdPrecedes (nextMXact ms) minMulti
           || MultiXactOffsetPrecedes (nextOffset ms) minMultiOffset
        then Stop (ExitFailure "not implemented" None) st
        else Ok tt st
    end.
Proof.
  unfold MultiXactAdvanceNextMXact, bind, MultiXactState_get.
  destruct (MultiXactState st) as [ms | ] eqn:Hms; [ | reflexivity].
  destruct (MultiXactIdPrecedes (nextMXact ms) minMulti); [reflexivity | ].
  unfold ret. rewrite Hms.
  destruct (MultiXactOffsetPrecedes (nextOffset ms) minMultiOffset); reflexivity.
Qed.

(** C2, as amended.  [MultiXactAdvanceNextMXact] decides with the
    wraparound-aware comparisons.  When neither counter circularly
    precedes its minimum the call returns and the state is unchanged.
    When one of them does, the counter is not raised: the update
    routines are stubs, and the process exits with "not implemented".
    Whatever the outcome, the state (hence both counters) is the one the
    call started from: no counter is ever lowered, or raised. *)
Theorem advance_decides_circularly_and_never_changes_counters
    (minMulti minMultiOffset : Z) (st : State) :
  MultiXactAdvanceNextMXact minMulti minMultiOffset st =
    match MultiXactState st with
    | None => Stop MemoryFault st
    | Some ms =>
        if circular_precedes (nextMXact ms) minMulti
           || circular_precedes (nextOffset ms) minMultiOffset
        then Stop (ExitFailure "not implemented" None) st
        else Ok tt st
    end /\
  final_state (MultiXactAdvanceNextMXact minMulti minMultiOffset st) = st.
Proof.
  rewrite MultiXactAdvanceNextMXact_eq.
  destruct (MultiXactState st) as [ms | ]; [ | split; reflexivity].
  unfold MultiXactIdPrecedes, MultiXactOffsetPrecedes, circular_precedes. cbv zeta.
  rewrite !s32_u32.
  destruct (_ || _); split; reflexivity.
Qed.

(** C2, as stated, fails: with [nextMXact = 1], which circularly
    precedes the minimum 2, the call does not return with the counter
    raised; the process exits and the counter is still 1. *)
Lemma advance_does_not_raise_counter :
  MultiXactIdPrecedes 1 2 = true /\
  MultiXactAdvanceNextMXact 2 0 early_state
    = Stop (ExitFailure "not implemented" None) early_state /\
  MultiXactState (final_state (MultiXactAdvanceNextMXact 2 0 early_state))
    = Some {| nextMXact := 1; nextOffset := 0 |}.
Proof. repeat split; vm_compute; reflexivity. Qed.

(** ** Redo of zero-page records *)

Ltac simpl_store :=
  repeat first
    [ rewrite shared_log_call
    | rewrite shared_set_shared
    | rewrite lookup_insert_eq
    | progress cbn [page_buffer page_dirty slru_file] ].

Section RedoZero.
Context (cfg : Config).
Hypothesis Hcfg : config_ok cfg.

Lemma multixact_redo_zero (ctl : SlruCtl) (lsn : Z) (record : XLogRecord) (st : State) :
  no_backup_blocks cfg record ->
  record_info cfg record =
    match ctl with
    | MultiXactOffsetCtl => cfg_XLOG_MULTIXACT_ZERO_OFF_PAGE cfg
    | MultiXactMemberCtl => cfg_XLOG_MULTIXACT_ZERO_MEM_PAGE cfg
    end ->
  exists st',
    multixact_redo cfg lsn record st = Ok tt st' /\
    page_zeroed_and_written ctl (record_pageno record) st st'.
Proof.
  intros Hbkp Hinfo. unfold record_info in Hinfo.
  destruct Hcfg as (_ & _ & _ & Hne & _).
  assert (Hassert : cfg_USE_ASSERT_CHECKING cfg
                    && negb (Z.land (xl_info record) (cfg_XLR_BKP_BLOCK_MASK cfg) =? 0)
                    = false).
  { destruct (cfg_USE_ASSERT_CHECKING cfg) eqn:Hon; [ | reflexivity].
    rewrite (Hbkp Hon). reflexivity. }
  unfold multixact_redo. cbv zeta. unfold bind at 1. unfold Assert at 1.
  rewrite Hassert, Hinfo.
  destruct ctl.
  - rewrite Z.eqb_refl.
    unfold bind, ZeroMultiXactOffsetPage, SimpleLruZeroPage, SimpleLruWritePage,
      Assert, ret, slot_is_dirty, bind. cbv zeta.
    simpl_store. rewrite bool_decide_eq_false_2 by (intros Hd; discriminate Hd).
    rewrite andb_false_r. eexists. split; [reflexivity | ].
    unfold page_zeroed_and_written. rewrite !shared_set_shared. simpl.
    rewrite !lookup_insert_eq.
    repeat split; try reflexivity.
    + rewrite lookup_insert_ne by congruence. reflexivity.
    + rewrite lookup_insert_ne by congruence. reflexivity.
    + rewrite !lookup_insert_ne by congruence. reflexivity.
    + intros c Hc. destruct c; [congruence | reflexivity].
    + rewrite <- app_assoc. reflexivity.
  - destruct (Z.eqb_spec (cfg_XLOG_MULTIXACT_ZERO_MEM_PAGE cfg)
                (cfg_XLOG_MULTIXACT_ZERO_OFF_PAGE cfg)) as [Heq | _];
      [congruence | ].
    rewrite Z.eqb_refl.
    unfold bind, ZeroMultiXactMemberPage, SimpleLruZeroPage, SimpleLruWritePage,
      Assert, ret, slot_is_dirty, bind. cbv zeta.
    simpl_store. rewrite bool_decide_eq_false_2 by (intros Hd; discriminate Hd).
    rewrite andb_false_r. eexists. split; [reflexivity | ].
    unfold page_zeroed_and_written. rewrite !shared_set_shared. simpl.
    rewrite !lookup_insert_eq.
    repeat split; try reflexivity.
    + rewrite lookup_insert_ne by congruence. reflexivity.
    + rewrite lookup_insert_ne by congruence. reflexivity.
    + rewrite !lookup_insert_ne by congruence. reflexivity.
    + intros c Hc. destruct c; [reflexivity | congruence].
    + rewrite <- app_assoc. reflexivity.
Qed.

(** A record of another kind than create leaves the counters alone,
    however its replay ends. *)
Lemma multixact_redo_counters (lsn : Z) (record : XLogRecord) (st : State) :
  record_info cfg record <> cfg_XLOG_MULTIXACT_CREATE_ID cfg ->
  MultiXactState (final_state (multixact_redo cfg lsn record st)) = MultiXactState st /\
  ShmemVariableCache_nextXid (final_state (multixact_redo cfg lsn record st))
  = ShmemVariableCache_nextXid st.
Proof.
  intros Hkind. unfold record_info in Hkind.
  remember (multixact_redo cfg lsn record st) as o eqn:Ho.
  unfold multixact_redo in Ho. cbv zeta in Ho.
  unfold bind at 1 in Ho. unfold Assert at 1 in Ho.
  destruct (cfg_USE_ASSERT_CHECKING cfg && _); [subst o; split; reflexivity | ].
  destruct (_ =? cfg_XLOG_MULTIXACT_ZERO_OFF_PAGE cfg).
  - unfold bind, ZeroMultiXactOffsetPage, SimpleLruZeroPage, SimpleLruWritePage,
      Assert, ret, slot_is_dirty, bind in Ho. cbv zeta in Ho.
    rewrite !shared_log_call, !shared_set_shared in Ho. cbn [page_buffer] in Ho.
    rewrite lookup_insert_eq in Ho.
    destruct (cfg_USE_ASSERT_CHECKING cfg && _); subst o; split; reflexivity.
  - destruct (_ =? cfg_XLOG_MULTIXACT_ZERO_MEM_PAGE cfg).
    + unfold bind, ZeroMultiXactMemberPage, SimpleLruZeroPage, SimpleLruWritePage,
        Assert, ret, slot_is_dirty, bind in Ho. cbv zeta in Ho.
      rewrite !shared_log_call, !shared_set_shared in Ho. cbn [page_buffer] in Ho.
      rewrite lookup_insert_eq in Ho.
      destruct (cfg_USE_ASSERT_CHECKING cfg && _); subst o; split; reflexivity.
    + destruct (Z.eqb_spec (u8 (Z.land (xl_info record) (Z.lnot (cfg_XLR_INFO_MASK cfg))))
                  (cfg_XLOG_MULTIXACT_CREATE_ID cfg)) as [Heq | _];
        [contradiction | ].
      subst o. split; reflexivity.
Qed.

(** C10.  Replaying a zero-offset-page (zero-member-page) record
    whose payload is the page number [pageno] zeroes page [pageno] of
    the offset (member) store, writes it out and leaves its slot clean;
    every other page of that store, the other store, [nextMXact],
    [nextOffset] and the next transaction id are unchanged.  Of all
    record kinds only the create kind can end with a counter
    changed. *)
Theorem zero_page_redo_touches_only_its_page (lsn : Z) (record : XLogRecord)
    (pageno : Z) (st : State) :
  no_backup_blocks cfg record ->
  XLogRecGetData record = DataPageno pageno ->
  - 2 ^ 31 <= pageno < 2 ^ 31 ->
  (record_info cfg record = cfg_XLOG_MULTIXACT_ZERO_OFF_PAGE cfg ->
   exists st',
     multixact_redo cfg lsn record st = Ok tt st' /\
     page_zeroed_and_written MultiXactOffsetCtl pageno st st') /\
  (record_info cfg record = cfg_XLOG_MULTIXACT_ZERO_MEM_PAGE cfg ->
   exists st',
     multixact_redo cfg lsn record st = Ok tt st' /\
     page_zeroed_and_written MultiXactMemberCtl pageno st st') /\
  (forall other st0,
      MultiXactState (final_state (multixact_redo cfg lsn other st0)) <> MultiXactState st0 \/
      ShmemVariableCache_nextXid (final_state (multixact_redo cfg lsn other st0))
        <> ShmemVariableCache_nextXid st0 ->
      record_info cfg other = cfg_XLOG_MULTIXACT_CREATE_ID cfg).
Proof.
  intros Hbkp Hdata Hint.
  assert (Hpage : record_pageno record = pageno).
  { unfold record_pageno. rewrite Hdata. unfold s32. cbv zeta.
    destruct (Z.ltb_spec (pageno mod 2 ^ 32) (2 ^ 31));
      Z.div_mod_to_equations; lia. }
  split; [ | split].
  - intros Hkind. rewrite <- Hpage.
    apply (multixact_redo_zero MultiXactOffsetCtl); assumption.
  - intros Hkind. rewrite <- Hpage.
    apply (multixact_redo_zero MultiXactMemberCtl); assumption.
  - intros other st0 Hchanged.
    destruct (Z.eq_dec (record_info cfg other) (cfg_XLOG_MULTIXACT_CREATE_ID cfg))
      as [Heq | Hne]; [exact Heq | ].
    destruct (multixact_redo_counters lsn other st0 Hne) as [Hs Hx].
    destruct Hchanged as [H | H]; contradiction.
Qed.

End RedoZero.

(** ** Redo of create records *)

Section RedoCreate.
Context (cfg : Config).
Hypothesis Hcfg : config_ok cfg.

Lemma FirstNormalTransactionId_range :
  0 <= cfg_FirstNormalTransactionId cfg < 2 ^ 31.
Proof. destruct Hcfg as (_ & H & _). exact H. Qed.

Lemma TransactionIdFollowsOrEquals_negb (a b : Z) :
  TransactionIdFollowsOrEquals cfg a b = negb (TransactionIdPrecedes cfg a b).
Proof.
  unfold TransactionIdFollowsOrEquals, TransactionIdPrecedes. cbv zeta.
  destruct (negb (TransactionIdIsNormal cfg a) || negb (TransactionIdIsNormal cfg b)).
  - apply Z.leb_antisym.
  - rewrite Z.ltb_antisym, negb_involutive. reflexivity.
Qed.

(** One past a transaction id is a normal id. *)
Lemma TransactionIdAdvance_normal (x : Z) :
  TransactionIdIsNormal cfg (TransactionIdAdvance cfg x) = true.
Proof.
  unfold TransactionIdAdvance, TransactionIdIsNormal. cbv zeta.
  destruct (Z.ltb_spec (u32 (x + 1)) (cfg_FirstNormalTransactionId cfg));
    apply Z.leb_le; lia.
Qed.

(** One past a transaction id follows it. *)
Lemma TransactionIdAdvance_follows (x : Z) :
  0 <= x < 2 ^ 32 ->
  TransactionIdPrecedes cfg x (TransactionIdAdvance cfg x) = true.
Proof.
  intros Hx. pose proof FirstNormalTransactionId_range as HF.
  unfold TransactionIdPrecedes, TransactionIdAdvance, TransactionIdIsNormal.
  cbv zeta. rewrite s32_u32.
  assert (Hs : x + 1 < 2 ^ 32 -> u32 (x + 1) = x + 1)
    by (intros; apply u32_small; lia).
  assert (Hw : x + 1 = 2 ^ 32 -> u32 (x + 1) = 0)
    by (intros ->; reflexivity).
  assert (Hone : x + 1 < 2 ^ 32 -> s32 (x - (x + 1)) = -1).
  { intros _. replace (x - (x + 1)) with (-1) by lia. reflexivity. }
  assert (Hwrap : x + 1 = 2 ^ 32 ->
                  s32 (x - cfg_FirstNormalTransactionId cfg)
                  = -1 - cfg_FirstNormalTransactionId cfg).
  { intros Hmax. unfold s32. cbv zeta.
    rewrite Z.mod_small by lia.
    destruct (Z.ltb_spec (x - cfg_FirstNormalTransactionId cfg) (2 ^ 31)); lia. }
  destruct (Z.eq_dec (x + 1) (2 ^ 32)) as [Hmax | Hlt].
  - rewrite (Hw Hmax).
    destruct (Z.ltb_spec 0 (cfg_FirstNormalTransactionId cfg)) as [Hpos | Hzero].
    + destruct (Z.leb_spec (cfg_FirstNormalTransactionId cfg) x); [ | lia].
      rewrite Z.leb_refl. simpl. rewrite (Hwrap Hmax). apply Z.ltb_lt. lia.
    + assert (HF0 : cfg_FirstNormalTransactionId cfg = 0) by lia.
      rewrite HF0. simpl.
      destruct (Z.leb_spec 0 x); [ | lia]. simpl.
      rewrite Z.sub_0_r. rewrite HF0 in Hwrap. rewrite Z.sub_0_r in Hwrap.
      rewrite (Hwrap Hmax). reflexivity.
  - rewrite (Hs ltac:(lia)).
    destruct (Z.ltb_spec (x + 1) (cfg_FirstNormalTransactionId cfg)) as [Hres | Hnorm].
    + destruct (Z.leb_spec (cfg_FirstNormalTransactionId cfg) x); [lia | ].
      simpl. apply Z.ltb_lt. lia.
    + destruct (Z.leb_spec (cfg_FirstNormalTransactionId cfg) x) as [Hxn | Hxr].
      * destruct (Z.leb_spec (cfg_FirstNormalTransactionId cfg) (x + 1)); [ | lia].
        simpl. rewrite (Hone ltac:(lia)). reflexivity.
      * simpl. apply Z.ltb_lt. lia.
Qed.

Lemma record_max_xid_range (members : list MultiXactMember) :
  forall xl_xid,
    0 <= xl_xid < 2 ^ 32 ->
    Forall (fun member => 0 <= xid member < 2 ^ 32) members ->
    0 <= record_max_xid cfg xl_xid members < 2 ^ 32.
Proof.
  induction members as [ | member members IH]; intros x Hx Hall.
  - exact Hx.
  - inversion Hall as [ | ? ? Hm Hrest]; subst. unfold record_max_xid. simpl.
    apply IH; [ | exact Hrest].
    destruct (TransactionIdPrecedes cfg x (xid member)); assumption.
Qed.

(** The signed difference of two values that are congruent to [d]
    modulo 2^32, when [d] is an [int32]. *)
Lemma s32_congruent (z d : Z) :
  (z - d) mod 2 ^ 32 = 0 -> - 2 ^ 31 <= d < 2 ^ 31 -> s32 z = d.
Proof.
  intros Hcong Hd. unfold s32. cbv zeta.
  destruct (Z.ltb_spec (z mod 2 ^ 32) (2 ^ 31));
    Z.div_mod_to_equations; lia.
Qed.

Lemma u32_congruent (x base : Z) : (x - (base + u32 (x - base))) mod 2 ^ 32 = 0.
Proof. unfold u32. Z.div_mod_to_equations. lia. Qed.

(** Inside a window the circular comparison is the comparison of the
    distances to the base of the window. *)
Lemma TransactionIdPrecedes_in_window (base x y : Z) :
  xid_in_window cfg base x -> xid_in_window cfg base y ->
  TransactionIdPrecedes cfg x y = (u32 (x - base) <? u32 (y - base)).
Proof.
  intros (Hnx & Hx & Hwx) (Hny & Hy & Hwy).
  pose proof FirstNormalTransactionId_range as HF.
  pose proof (u32_range (x - base)) as Hrx. pose proof (u32_range (y - base)) as Hry.
  unfold TransactionIdPrecedes. rewrite Hnx, Hny. simpl. rewrite s32_u32.
  rewrite (s32_congruent (x - y) (u32 (x - base) - u32 (y - base))).
  - destruct (Z.ltb_spec (u32 (x - base) - u32 (y - base)) 0),
      (Z.ltb_spec (u32 (x - base)) (u32 (y - base))); try lia; reflexivity.
  - pose proof (u32_congruent x base). pose proof (u32_congruent y base).
    Z.div_mod_to_equations. lia.
  - lia.
Qed.

(** One past the farthest id of a window follows every id of the
    window. *)
Lemma TransactionIdAdvance_follows_window (base x m : Z) :
  xid_in_window cfg base x -> xid_in_window cfg base m ->
  u32 (x - base) <= u32 (m - base) ->
  TransactionIdPrecedes cfg x (TransactionIdAdvance cfg m) = true.
Proof.
  intros (Hnx & Hx & Hwx) (Hnm & Hm & Hwm) Hle.
  pose proof FirstNormalTransactionId_range as HF.
  pose proof (u32_range (x - base)) as Hrx. pose proof (u32_range (m - base)) as Hrm.
  pose proof (u32_congruent x base) as Hcx. pose proof (u32_congruent m base) as Hcm.
  unfold TransactionIdIsNormal in Hnx, Hnm.
  apply Z.leb_le in Hnx. apply Z.leb_le in Hnm.
  unfold TransactionIdPrecedes, TransactionIdAdvance, TransactionIdIsNormal. cbv zeta.
  rewrite s32_u32.
  destruct (Z.eq_dec (m + 1) (2 ^ 32)) as [Hmax | Hlt].
  - assert (Hw : u32 (m + 1) = 0) by (rewrite Hmax; reflexivity). rewrite Hw.
    destruct (Z.ltb_spec 0 (cfg_FirstNormalTransactionId cfg)) as [Hpos | Hzero].
    + destruct (Z.leb_spec (cfg_FirstNormalTransactionId cfg) x); [ | lia].
      rewrite Z.leb_refl. simpl.
      rewrite (s32_congruent (x - cfg_FirstNormalTransactionId cfg)
                 (u32 (x - base) - u32 (m - base) - 1 - cfg_FirstNormalTransactionId cfg)).
      * apply Z.ltb_lt. lia.
      * Z.div_mod_to_equations. lia.
      * lia.
    + assert (HF0 : cfg_FirstNormalTransactionId cfg = 0) by lia.
      rewrite HF0 in *. simpl.
      destruct (Z.leb_spec 0 x); [ | lia]. simpl.
      rewrite (s32_congruent (x - 0) (u32 (x - base) - u32 (m - base) - 1)).
      * apply Z.ltb_lt. lia.
      * Z.div_mod_to_equations. lia.
      * lia.
  - rewrite (u32_small (m + 1)) by lia.
    destruct (Z.ltb_spec (m + 1) (cfg_FirstNormalTransactionId cfg)); [lia | ].
    destruct (Z.leb_spec (cfg_FirstNormalTransactionId cfg) x); [ | lia].
    destruct (Z.leb_spec (cfg_FirstNormalTransactionId cfg) (m + 1)); [ | lia].
    simpl.
    rewrite (s32_congruent (x - (m + 1)) (u32 (x - base) - u32 (m - base) - 1)).
    + apply Z.ltb_lt. lia.
    + Z.div_mod_to_equations. lia.
    + lia.
Qed.

(** [RecordNewMultiXact] leaves the counters alone, however it ends. *)
Lemma RecordNewMultiXact_counters (multi offset : Z)
    (members : list MultiXactMember) (st : State) :
  0 <= multi < 2 ^ 32 -> 0 <= offset < 2 ^ 32 ->
  MultiXactState (final_state (RecordNewMultiXact cfg multi offset members st))
  = MultiXactState st /\
  ShmemVariableCache_nextXid
    (final_state (RecordNewMultiXact cfg multi offset members st))
  = ShmemVariableCache_nextXid st.
Proof.
  intros Hm Hoff. rewrite (RecordNewMultiXact_eq cfg Hcfg) by assumption. cbv zeta.
  destruct (page_view _ _) as [page | ]; [ | split; reflexivity].
  destruct (RecordNewMultiXact_loop_frame cfg Hcfg multi members offset (-1)
              (s32 (MultiXactIdToOffsetPage cfg multi))
              (offset_step_state cfg multi offset page st) Hoff
              (loop_head_start _ _)) as (_ & Hs & Hx).
  rewrite Hs, Hx. split; reflexivity.
Qed.

(** Replay of a create record, step by step. *)
Lemma multixact_redo_create_eq (lsn : Z) (record : XLogRecord)
    (xlrec : xl_multixact_create) (st : State) :
  record_info cfg record = cfg_XLOG_MULTIXACT_CREATE_ID cfg ->
  XLogRecGetData record = DataCreate xlrec ->
  multixact_redo cfg lsn record st =
    if cfg_USE_ASSERT_CHECKING cfg
       && negb (Z.land (xl_info record) (cfg_XLR_BKP_BLOCK_MASK cfg) =? 0)
    then Stop AssertFailed st
    else
      match RecordNewMultiXact cfg (mid xlrec) (moff xlrec) (members xlrec) st with
      | Ok _ st1 =>
          match MultiXactAdvanceNextMXact (u32 (mid xlrec + 1))
                  (u32 (moff xlrec + nmembers xlrec)) st1 with
          | Ok _ st2 =>
              Ok tt
                 (if TransactionIdFollowsOrEquals cfg
                       (record_max_xid cfg (xl_xid record) (members xlrec))
                       (ShmemVariableCache_nextXid st2)
                  then set_nextXid
                         (TransactionIdAdvance cfg
                            (record_max_xid cfg (xl_xid record) (members xlrec))) st2
                  else st2)
          | Stop f st2 => Stop f st2
          end
      | Stop f st1 => Stop f st1
      end.
Proof.
  intros Hinfo Hdata. unfold record_info in Hinfo.
  destruct Hcfg as (_ & _ & _ & _ & Hne1 & Hne2).
  unfold multixact_redo. cbv zeta.
  unfold bind at 1. unfold Assert at 1.
  destruct (cfg_USE_ASSERT_CHECKING cfg && _); [reflexivity | ].
  rewrite Hinfo.
  destruct (Z.eqb_spec (cfg_XLOG_MULTIXACT_CREATE_ID cfg)
              (cfg_XLOG_MULTIXACT_ZERO_OFF_PAGE cfg)); [congruence | ].
  destruct (Z.eqb_spec (cfg_XLOG_MULTIXACT_CREATE_ID cfg)
              (cfg_XLOG_MULTIXACT_ZERO_MEM_PAGE cfg)); [congruence | ].
  rewrite Z.eqb_refl.
  unfold record_create. rewrite Hdata.
  unfold bind at 1. unfold ret at 1. unfold bind at 1.
  destruct (RecordNewMultiXact cfg _ _ _ st) as [[] st1 | ]; [ | reflexivity].
  unfold bind at 1.
  destruct (MultiXactAdvanceNextMXact _ _ st1) as [[] st2 | ]; [ | reflexivity].
  destruct (TransactionIdFollowsOrEquals cfg _ _); reflexivity.
Qed.

(** A completed advance changed nothing and saw no counter behind. *)
Lemma MultiXactAdvanceNextMXact_ok (minMulti minMultiOffset : Z) (st st' : State) :
  MultiXactAdvanceNextMXact minMulti minMultiOffset st = Ok tt st' ->
  st' = st /\
  exists ms,
    MultiXactState st = Some ms /\
    MultiXactIdPrecedes (nextMXact ms) minMulti
    || MultiXactOffsetPrecedes (nextOffset ms) minMultiOffset = false.
Proof.
  rewrite MultiXactAdvanceNextMXact_eq.
  destruct (MultiXactState st) as [ms | ]; [ | discriminate].
  destruct (_ || _) eqn:Hp; [discriminate | ].
  intros Hok. injection Hok as <-. split; [reflexivity | ]. exists ms. auto.
Qed.

Lemma multixact_redo_create (lsn : Z) (record : XLogRecord)
    (xlrec : xl_multixact_create) (st st' : State) :
  record_info cfg record = cfg_XLOG_MULTIXACT_CREATE_ID cfg ->
  XLogRecGetData record = DataCreate xlrec ->
  multixact_redo cfg lsn record st = Ok tt st' ->
  cfg_USE_ASSERT_CHECKING cfg
  && negb (Z.land (xl_info record) (cfg_XLR_BKP_BLOCK_MASK cfg) =? 0) = false /\
  exists st1,
    RecordNewMultiXact cfg (mid xlrec) (moff xlrec) (members xlrec) st = Ok tt st1 /\
    MultiXactAdvanceNextMXact (u32 (mid xlrec + 1))
      (u32 (moff xlrec + nmembers xlrec)) st1 = Ok tt st1 /\
    st' =
      (if TransactionIdFollowsOrEquals cfg
            (record_max_xid cfg (xl_xid record) (members xlrec))
            (ShmemVariableCache_nextXid st1)
       then set_nextXid
              (TransactionIdAdvance cfg
                 (record_max_xid cfg (xl_xid record) (members xlrec))) st1
       else st1).
Proof.
  intros Hinfo Hdata Hrun.
  rewrite (multixact_redo_create_eq lsn record xlrec st Hinfo Hdata) in Hrun.
  destruct (cfg_USE_ASSERT_CHECKING cfg && _); [discriminate Hrun | ].
  split; [reflexivity | ].
  destruct (RecordNewMultiXact cfg _ _ _ st) as [[] st1 | ]; [ | discriminate Hrun].
  exists st1. split; [reflexivity | ].
  destruct (MultiXactAdvanceNextMXact _ _ st1) as [[] st2 | ] eqn:Hadv;
    [ | discriminate Hrun].
  destruct (MultiXactAdvanceNextMXact_ok _ _ _ _ Hadv) as [-> _].
  split; [reflexivity | ].
  injection Hrun as <-. reflexivity.
Qed.

(** C3.  Replaying the same create record a second time repopulates
    the pages to the same bytes.  After a completed
    [RecordNewMultiXact] a second run with the same arguments completes
    and leaves the offset store and the member store (buffers, dirty
    flags and files) exactly as the first run left them; and so does a
    second [multixact_redo] of the record after a completed first
    one. *)
Theorem create_record_replay_idempotent (lsn : Z) (record : XLogRecord)
    (xlrec : xl_multixact_create) :
  0 <= mid xlrec < 2 ^ 32 -> 0 <= moff xlrec < 2 ^ 32 ->
  (forall st st1,
      RecordNewMultiXact cfg (mid xlrec) (moff xlrec) (members xlrec) st = Ok tt st1 ->
      exists st2,
        RecordNewMultiXact cfg (mid xlrec) (moff xlrec) (members xlrec) st1 = Ok tt st2 /\
        MultiXactOffsetCtlData st2 = MultiXactOffsetCtlData st1 /\
        MultiXactMemberCtlData st2 = MultiXactMemberCtlData st1) /\
  (record_info cfg record = cfg_XLOG_MULTIXACT_CREATE_ID cfg ->
   XLogRecGetData record = DataCreate xlrec ->
   forall st st1,
     multixact_redo cfg lsn record st = Ok tt st1 ->
     exists st2,
       multixact_redo cfg lsn record st1 = Ok tt st2 /\
       MultiXactOffsetCtlData st2 = MultiXactOffsetCtlData st1 /\
       MultiXactMemberCtlData st2 = MultiXactMemberCtlData st1).
Proof.
  intros Hm Hoff. split.
  - intros st st1 Hrun.
    apply (RecordNewMultiXact_rerun cfg Hcfg _ _ _ st st1 st1); auto.
  - intros Hinfo Hdata st st1 Hrun.
    destruct (multixact_redo_create lsn record xlrec st st1 Hinfo Hdata Hrun)
      as (Hassert & s1 & Hrec & Hadv & Hst1).
    assert (Hstores : MultiXactOffsetCtlData st1 = MultiXactOffsetCtlData s1 /\
                      MultiXactMemberCtlData st1 = MultiXactMemberCtlData s1 /\
                      MultiXactState st1 = MultiXactState s1).
    { rewrite Hst1. destruct (TransactionIdFollowsOrEquals cfg _ _); auto. }
    destruct Hstores as (Hso & Hsm & Hss).
    destruct (RecordNewMultiXact_rerun cfg Hcfg _ _ _ st s1 st1 Hm Hoff Hrec Hso Hsm)
      as (t & Hrerun & Hto & Htm).
    destruct (RecordNewMultiXact_counters (mid xlrec) (moff xlrec) (members xlrec) st1 Hm Hoff)
      as (Hts & _).
    rewrite Hrerun in Hts. simpl in Hts.
    destruct (MultiXactAdvanceNextMXact_ok _ _ _ _ Hadv) as (_ & ms & Hms & Hbehind).
    rewrite (multixact_redo_create_eq lsn record xlrec st1 Hinfo Hdata).
    rewrite Hassert, Hrerun, MultiXactAdvanceNextMXact_eq, Hts, Hss, Hms, Hbehind.
    eexists. split; [reflexivity | ].
    rewrite Hso, Hsm, <- Hto, <- Htm.
    destruct (TransactionIdFollowsOrEquals cfg _ (ShmemVariableCache_nextXid t));
      split; reflexivity.
Qed.

(** Among reserved ids and normal ids of one window the comparison
    is the comparison of the ranks. *)
Lemma TransactionIdPrecedes_rank (base x y : Z) :
  xid_reserved_or_in_window cfg base x -> xid_reserved_or_in_window cfg base y ->
  TransactionIdPrecedes cfg x y = (xid_rank cfg base x <? xid_rank cfg base y).
Proof.
  intros Hx Hy.
  pose proof (u32_range (x - base)) as Hrx. pose proof (u32_range (y - base)) as Hry.
  destruct Hx as [[Hnx Hx0] | Hwx], Hy as [[Hny Hy0] | Hwy].
  - unfold TransactionIdPrecedes, xid_rank. rewrite Hnx, Hny. reflexivity.
  - pose proof Hwy as (Hny & _). unfold TransactionIdPrecedes, xid_rank.
    rewrite Hnx, Hny. simpl.
    unfold TransactionIdIsNormal in Hnx, Hny.
    apply Z.leb_gt in Hnx. apply Z.leb_le in Hny.
    destruct (Z.ltb_spec x y), (Z.ltb_spec x (cfg_FirstNormalTransactionId cfg
                                               + u32 (y - base))); try lia; reflexivity.
  - pose proof Hwx as (Hnx & _). unfold TransactionIdPrecedes, xid_rank.
    rewrite Hnx, Hny. simpl.
    unfold TransactionIdIsNormal in Hnx, Hny.
    apply Z.leb_le in Hnx. apply Z.leb_gt in Hny.
    destruct (Z.ltb_spec x y), (Z.ltb_spec (cfg_FirstNormalTransactionId cfg
                                             + u32 (x - base)) y); try lia; reflexivity.
  - rewrite (TransactionIdPrecedes_in_window base x y Hwx Hwy).
    pose proof Hwx as (Hnx & _). pose proof Hwy as (Hny & _).
    unfold xid_rank. rewrite Hnx, Hny.
    destruct (Z.ltb_spec (u32 (x - base)) (u32 (y - base))),
      (Z.ltb_spec (cfg_FirstNormalTransactionId cfg + u32 (x - base))
                  (cfg_FirstNormalTransactionId cfg + u32 (y - base)));
      try lia; reflexivity.
Qed.

(** The maximum the loop computes has the highest rank. *)
Lemma record_max_xid_rank (base : Z) (members : list MultiXactMember) :
  forall xl_xid,
    xid_reserved_or_in_window cfg base xl_xid ->
    Forall (fun member => xid_reserved_or_in_window cfg base (xid member)) members ->
    xid_reserved_or_in_window cfg base (record_max_xid cfg xl_xid members) /\
    xid_rank cfg base xl_xid <= xid_rank cfg base (record_max_xid cfg xl_xid members) /\
    Forall (fun member =>
              xid_rank cfg base (xid member)
              <= xid_rank cfg base (record_max_xid cfg xl_xid members)) members.
Proof.
  induction members as [ | member members IH]; intros x Hx Hall.
  - unfold record_max_xid. simpl. split; [exact Hx | split; [lia | constructor]].
  - inversion Hall as [ | ? ? Hm Hrest]; subst.
    unfold record_max_xid. cbn [fold_left].
    fold (record_max_xid cfg
            (if TransactionIdPrecedes cfg x (xid member) then xid member else x) members).
    rewrite (TransactionIdPrecedes_rank base x (xid member) Hx Hm).
    destruct (Z.ltb_spec (xid_rank cfg base x) (xid_rank cfg base (xid member)))
      as [Hlt | Hge].
    + destruct (IH (xid member) Hm Hrest) as (Hw & Hle & Hothers).
      split; [exact Hw | split; [lia | ]]. constructor; [exact Hle | exact Hothers].
    + destruct (IH x Hx Hrest) as (Hw & Hle & Hothers).
      split; [exact Hw | split; [lia | ]]. constructor; [lia | exact Hothers].
Qed.

(** One past the id of highest rank follows every id. *)
Lemma TransactionIdAdvance_follows_rank (base x m : Z) :
  xid_reserved_or_in_window cfg base x -> xid_reserved_or_in_window cfg base m ->
  xid_rank cfg base x <= xid_rank cfg base m ->
  TransactionIdPrecedes cfg x (TransactionIdAdvance cfg m) = true.
Proof.
  intros Hx Hm Hle.
  pose proof (u32_range (x - base)) as Hrx. pose proof (u32_range (m - base)) as Hrm.
  destruct Hx as [[Hnx Hx0] | Hwx].
  - unfold TransactionIdPrecedes. rewrite Hnx. simpl.
    pose proof (TransactionIdAdvance_normal m) as Hna.
    unfold TransactionIdIsNormal in Hnx, Hna.
    apply Z.leb_gt in Hnx. apply Z.leb_le in Hna. apply Z.ltb_lt. lia.
  - pose proof Hwx as (Hnx & _). unfold xid_rank in Hle. rewrite Hnx in Hle.
    destruct Hm as [[Hnm Hm0] | Hwm].
    + rewrite Hnm in Hle. unfold TransactionIdIsNormal in Hnm.
      apply Z.leb_gt in Hnm. lia.
    + pose proof Hwm as (Hnm & _). rewrite Hnm in Hle.
      apply (TransactionIdAdvance_follows_window base); [assumption | assumption | lia].
Qed.

(** The same for normal ids less than 2^31 ids after the base. *)
Lemma TransactionIdPrecedes_near (base x y : Z) :
  xid_reserved_or_near cfg base x -> xid_reserved_or_near cfg base y ->
  TransactionIdPrecedes cfg x y = (xid_rank cfg base x <? xid_rank cfg base y).
Proof.
  intros Hx Hy.
  pose proof (u32_range (x - base)) as Hrx. pose proof (u32_range (y - base)) as Hry.
  destruct Hx as [[Hnx Hx0] | [Hnx Hdx]], Hy as [[Hny Hy0] | [Hny Hdy]];
    unfold TransactionIdPrecedes, xid_rank; rewrite Hnx, Hny; simpl;
    unfold TransactionIdIsNormal in Hnx, Hny.
  - reflexivity.
  - apply Z.leb_gt in Hnx. apply Z.leb_le in Hny.
    destruct (Z.ltb_spec x y), (Z.ltb_spec x (cfg_FirstNormalTransactionId cfg
                                               + u32 (y - base))); try lia; reflexivity.
  - apply Z.leb_le in Hnx. apply Z.leb_gt in Hny.
    destruct (Z.ltb_spec x y), (Z.ltb_spec (cfg_FirstNormalTransactionId cfg
                                             + u32 (x - base)) y); try lia; reflexivity.
  - rewrite s32_u32.
    rewrite (s32_congruent (x - y) (u32 (x - base) - u32 (y - base))).
    + destruct (Z.ltb_spec (u32 (x - base) - u32 (y - base)) 0),
        (Z.ltb_spec (cfg_FirstNormalTransactionId cfg + u32 (x - base))
                    (cfg_FirstNormalTransactionId cfg + u32 (y - base)));
        try lia; reflexivity.
    + pose proof (u32_congruent x base). pose proof (u32_congruent y base).
      Z.div_mod_to_equations. lia.
    + lia.
Qed.

Lemma record_max_xid_near (base : Z) (members : list MultiXactMember) :
  forall xl_xid,
    xid_reserved_or_near cfg base xl_xid ->
    Forall (fun member => xid_reserved_or_near cfg base (xid member)) members ->
    xid_reserved_or_near cfg base (record_max_xid cfg xl_xid members) /\
    xid_rank cfg base xl_xid <= xid_rank cfg base (record_max_xid cfg xl_xid members) /\
    Forall (fun member =>
              xid_rank cfg base (xid member)
              <= xid_rank cfg base (record_max_xid cfg xl_xid members)) members.
Proof.
  induction members as [ | member members IH]; intros x Hx Hall.
  - unfold record_max_xid. simpl. split; [exact Hx | split; [lia | constructor]].
  - inversion Hall as [ | ? ? Hm Hrest]; subst.
    unfold record_max_xid. cbn [fold_left].
    fold (record_max_xid cfg
            (if TransactionIdPrecedes cfg x (xid member) then xid member else x) members).
    rewrite (TransactionIdPrecedes_near base x (xid member) Hx Hm).
    destruct (Z.ltb_spec (xid_rank cfg base x) (xid_rank cfg base (xid member)))
      as [Hlt | Hge].
    + destruct (IH (xid member) Hm Hrest) as (Hw & Hle & Hothers).
      split; [exact Hw | split; [lia | ]]. constructor; [exact Hle | exact Hothers].
    + destruct (IH x Hx Hrest) as (Hw & Hle & Hothers).
      split; [exact Hw | split; [lia | ]]. constructor; [lia | exact Hothers].
Qed.

(** An id that follows the id of highest rank and is, if normal, at
    most 2^31 ids after the base follows every id. *)
Lemma TransactionIdPrecedes_reach (base x m next : Z) :
  xid_reserved_or_near cfg base x -> xid_reserved_or_near cfg base m ->
  xid_rank cfg base x <= xid_rank cfg base m ->
  TransactionIdPrecedes cfg m next = true ->
  (TransactionIdIsNormal cfg next = true -> u32 (next - base) <= 2 ^ 31) ->
  TransactionIdPrecedes cfg x next = true.
Proof.
  intros Hx Hm Hle Hfollows Hreach.
  pose proof (u32_range (x - base)) as Hrx. pose proof (u32_range (m - base)) as Hrm.
  pose proof (u32_range (next - base)) as Hrn.
  unfold TransactionIdPrecedes in Hfollows |- *. unfold xid_rank in Hle.
  destruct (TransactionIdIsNormal cfg next) eqn:Hnn.
  - specialize (Hreach eq_refl).
    destruct Hx as [[Hnx Hx0] | [Hnx Hdx]]; rewrite Hnx in Hle |- *; simpl.
    + unfold TransactionIdIsNormal in Hnx, Hnn.
      apply Z.leb_gt in Hnx. apply Z.leb_le in Hnn. apply Z.ltb_lt. lia.
    + destruct Hm as [[Hnm Hm0] | [Hnm Hdm]]; rewrite Hnm in Hle, Hfollows.
      * unfold TransactionIdIsNormal in Hnm. apply Z.leb_gt in Hnm. lia.
      * simpl in Hfollows. rewrite s32_u32 in Hfollows |- *.
        rewrite (s32_congruent (m - next) (u32 (m - base) - u32 (next - base)))
          in Hfollows.
        -- apply Z.ltb_lt in Hfollows.
           rewrite (s32_congruent (x - next) (u32 (x - base) - u32 (next - base))).
           ++ apply Z.ltb_lt. lia.
           ++ pose proof (u32_congruent x base). pose proof (u32_congruent next base).
              Z.div_mod_to_equations. lia.
           ++ lia.
        -- pose proof (u32_congruent m base). pose proof (u32_congruent next base).
           Z.div_mod_to_equations. lia.
        -- lia.
  - rewrite orb_true_r in Hfollows |- *. apply Z.ltb_lt in Hfollows. apply Z.ltb_lt.
    unfold TransactionIdIsNormal in Hnn. apply Z.leb_gt in Hnn.
    destruct Hm as [[Hnm Hm0] | [Hnm Hdm]]; rewrite Hnm in Hle.
    + destruct Hx as [[Hnx Hx0] | [Hnx Hdx]]; rewrite Hnx in Hle; [lia | ].
      unfold TransactionIdIsNormal in Hnm. apply Z.leb_gt in Hnm. lia.
    + unfold TransactionIdIsNormal in Hnm. apply Z.leb_le in Hnm. lia.
Qed.


End RedoCreate.


(** C7, as stated, fails.  Without assertion checking a member with
    status 200 (the bound is 5) is not rejected: the call completes
    and the status is in the flags word.  With assertion checking the
    process stops on the failed assertion, after the offset entry has
    been written and its page marked dirty. *)
Lemma invalid_status_not_rejected :
  cfg_MultiXactStatusUpdate pg_default < status bad_member /\
  (exists st' page,
      RecordNewMultiXact pg_default 1 4 [bad_member] fresh_state = Ok tt st' /\
      page_buffer (MultiXactMemberCtlData st') !! 0 = Some page /\
      status_field (page_load32 page (MXOffsetToFlagsOffset pg_default 4))
                   (MXOffsetToFlagsBitShift 4) = 200) /\
  (exists st' page,
      RecordNewMultiXact pg_cassert 1 4 [bad_member] fresh_state = Stop AssertFailed st' /\
      page_buffer (MultiXactOffsetCtlData st') !! 0 = Some page /\
      page_load32 page 4 = 4 /\
      page_dirty (MultiXactOffsetCtlData st') !! 0 = Some true).
Proof.
  split; [simpl; lia | split].
  - eexists. eexists. split; [vm_compute; reflexivity | ].
    split; [vm_compute; reflexivity | vm_compute; reflexivity].
  - eexists. eexists. split; [vm_compute; reflexivity | ].
    split; [vm_compute; reflexivity | split; vm_compute; reflexivity].
Qed.

(** ** The statements at sample inputs *)

Ltac solve_config_ok :=
  unfold config_ok; simpl; repeat split; first [lia | discriminate].

Ltac solve_members_ok :=
  repeat constructor; unfold member_ok; simpl; lia.

Lemma offset_page_entry_decomposition_sample :
  MULTIXACT_OFFSETS_PER_PAGE pg_default = cfg_BLCKSZ pg_default / sizeof_MultiXactOffset /\
  MultiXactIdToOffsetPage pg_default 5000 * MULTIXACT_OFFSETS_PER_PAGE pg_default
    + MultiXactIdToOffsetEntry pg_default 5000 = 5000 /\
  0 <= MultiXactIdToOffsetEntry pg_default 5000 < MULTIXACT_OFFSETS_PER_PAGE pg_default.
Proof.
  apply (offset_page_entry_decomposition pg_default); [solve_config_ok | lia].
Defined.

Lemma member_accesses_stay_in_page_sample :
  (0 <= MXOffsetToFlagsOffset pg_default 1635 /\
   MXOffsetToFlagsOffset pg_default 1635 + MULTIXACT_FLAGBYTES_PER_GROUP
     <= cfg_BLCKSZ pg_default /\
   0 <= MXOffsetToMemberOffset pg_default 1635 /\
   MXOffsetToMemberOffset pg_default 1635 + sizeof_TransactionId
     <= cfg_BLCKSZ pg_default) /\
  (in_page pg_default (s32 (MXOffsetToFlagsOffset pg_default 1635)) = true /\
   in_page pg_default (s32 (MXOffsetToMemberOffset pg_default 1635)) = true) /\
  forall multi members st f st',
    0 <= multi < 2 ^ 32 ->
    RecordNewMultiXact pg_default multi 1635 members st = Stop f st' ->
    f <> MemoryFault.
Proof.
  apply (member_accesses_stay_in_page pg_default); [solve_config_ok | lia].
Defined.

Lemma RecordNewMultiXact_implements_recordNewGroup_sample :
  exists st',
    RecordNewMultiXact pg_default 5000 8179 two_members wide_state = Ok tt st' /\
    recordNewGroup pg_default 5000 8179 two_members wide_state st'.
Proof.
  destruct (RecordNewMultiXact_implements_recordNewGroup pg_default
              ltac:(solve_config_ok) 5000 8179 two_members wide_state
              ltac:(lia) ltac:(lia) ltac:(solve_members_ok))
    as [Hspec Hcompletes].
  destruct Hcompletes as [st' Hrun].
  - intros Hon. discriminate Hon.
  - split; [eexists; vm_compute; reflexivity | ].
    intros i Hi. simpl in Hi.
    destruct i as [ | [ | i]]; [ | | lia]; eexists; vm_compute; reflexivity.
  - exists st'. split; [exact Hrun | apply Hspec, Hrun].
Defined.

Lemma create_record_replay_idempotent_sample :
  exists st2,
    multixact_redo pg_default 0 create_record
      (final_state (multixact_redo pg_default 0 create_record fresh_state))
    = Ok tt st2 /\
    MultiXactOffsetCtlData st2 =
      MultiXactOffsetCtlData
        (final_state (multixact_redo pg_default 0 create_record fresh_state)) /\
    MultiXactMemberCtlData st2 =
      MultiXactMemberCtlData
        (final_state (multixact_redo pg_default 0 create_record fresh_state)).
Proof.
  destruct (create_record_replay_idempotent pg_default ltac:(solve_config_ok) 0
              create_record {| mid := 1; moff := 0; members := two_members |}
              ltac:(simpl; lia) ltac:(simpl; lia))
    as [_ Hredo].
  apply (Hredo ltac:(vm_compute; reflexivity) ltac:(reflexivity) fresh_state).
  vm_compute. reflexivity.
Defined.

Lemma invalid_status_is_only_asserted_sample :
  RecordNewMultiXact pg_cassert 1 0 (two_members ++ bad_member :: []) fresh_state
  = match RecordNewMultiXact pg_cassert 1 0 two_members fresh_state with
    | Ok _ st1 => Stop AssertFailed st1
    | Stop f st1 => Stop f st1
    end.
Proof.
  apply (invalid_status_is_only_asserted pg_cassert ltac:(solve_config_ok)
           1 0 two_members bad_member [] fresh_state);
    [lia | lia | simpl; lia | reflexivity].
Defined.


Lemma zero_page_redo_touches_only_its_page_sample :
  (exists st',
      multixact_redo pg_default 0 zero_offset_record fresh_state = Ok tt st' /\
      page_zeroed_and_written MultiXactOffsetCtl 3 fresh_state st') /\
  (exists st',
      multixact_redo pg_default 0 zero_member_record fresh_state = Ok tt st' /\
      page_zeroed_and_written MultiXactMemberCtl 3 fresh_state st').
Proof.
  split.
  - apply (zero_page_redo_touches_only_its_page pg_default ltac:(solve_config_ok)
             0 zero_offset_record 3 fresh_state);
      [intros _; reflexivity | reflexivity | lia | reflexivity].
  - apply (zero_page_redo_touches_only_its_page pg_default ltac:(solve_config_ok)
             0 zero_member_record 3 fresh_state);
      [intros _; reflexivity | reflexivity | lia | reflexivity].
Defined.

(** * Further properties *)

(** ** The circular order *)

(** The sign of the 32-bit difference, by cases on the distance. *)
Lemma s32_sign (z : Z) :
  (s32 z <? 0) = (2 ^ 31 <=? u32 z) /\ (s32 z <=? 0) = ((2 ^ 31 <=? u32 z) || (u32 z =? 0)).
Proof.
  unfold s32, u32. cbv zeta.
  pose proof (Z.mod_pos_bound z (2 ^ 32) ltac:(lia)) as Hr.
  destruct (Z.ltb_spec (z mod 2 ^ 32) (2 ^ 31)), (Z.leb_spec (2 ^ 31) (z mod 2 ^ 32)),
    (Z.eqb_spec (z mod 2 ^ 32) 0); try lia; split;
    first [apply Z.ltb_lt | apply Z.ltb_ge | apply Z.leb_le | apply Z.leb_gt]; lia.
Qed.

Lemma u32_opp (z : Z) : u32 (- z) = if u32 z =? 0 then 0 else 2 ^ 32 - u32 z.
Proof.
  unfold u32. destruct (Z.eqb_spec (z mod 2 ^ 32) 0); Z.div_mod_to_equations; lia.
Qed.

(** X1.  [MultiXactIdPrecedes] orders two ids in exactly one direction
    unless they are equal (neither precedes) or exactly 2^31 apart (each
    precedes the other); [MultiXactIdPrecedesOrEquals] adds equality. *)
Theorem MultiXactIdPrecedes_trichotomy (a b : Z) :
  MultiXactIdPrecedes a b || MultiXactIdPrecedes b a = negb (u32 (a - b) =? 0) /\
  MultiXactIdPrecedes a b && MultiXactIdPrecedes b a = (u32 (a - b) =? 2 ^ 31) /\
  MultiXactIdPrecedesOrEquals a b = MultiXactIdPrecedes a b || (u32 (a - b) =? 0) /\
  MultiXactOffsetPrecedes a b = MultiXactIdPrecedes a b.
Proof.
  unfold MultiXactIdPrecedes, MultiXactIdPrecedesOrEquals, MultiXactOffsetPrecedes.
  cbv zeta. rewrite !s32_u32.
  destruct (s32_sign (a - b)) as [Hab Hab']. destruct (s32_sign (b - a)) as [Hba _].
  rewrite Hab, Hab', Hba.
  replace (b - a) with (- (a - b)) by lia. rewrite u32_opp.
  pose proof (u32_range (a - b)) as Hr.
  repeat split;
    destruct (Z.eqb_spec (u32 (a - b)) 0) as [Hz | Hnz];
    destruct (Z.eqb_spec (u32 (a - b)) (2 ^ 31));
    destruct (Z.leb_spec (2 ^ 31) (u32 (a - b)));
    try lia; try reflexivity;
    destruct (Z.leb_spec (2 ^ 31) 0); try lia; try reflexivity;
    destruct (Z.leb_spec (2 ^ 31) (2 ^ 32 - u32 (a - b))); try lia; reflexivity.
Qed.

(** X2.  The circular order is transitive as long as the two steps
    together stay below half of the id space. *)
Theorem MultiXactIdPrecedes_transitive_in_half (a b c : Z) :
  MultiXactIdPrecedes a b = true -> MultiXactIdPrecedes b c = true ->
  u32 (b - a) + u32 (c - b) < 2 ^ 31 ->
  MultiXactIdPrecedes a c = true /\ MultiXactOffsetPrecedes a c = true.
Proof.
  unfold MultiXactIdPrecedes, MultiXactOffsetPrecedes. cbv zeta. rewrite !s32_u32.
  destruct (s32_sign (a - b)) as [-> _]. destruct (s32_sign (b - c)) as [-> _].
  destruct (s32_sign (a - c)) as [-> _].
  intros Hab Hbc Hsum. apply Z.leb_le in Hab. apply Z.leb_le in Hbc.
  assert (Hgoal : 2 ^ 31 <= u32 (a - c)).
  { revert Hab Hbc Hsum. unfold u32. Z.div_mod_to_equations. lia. }
  split; apply Z.leb_le; exact Hgoal.
Qed.

Lemma MultiXactIdPrecedes_transitive_in_half_sample :
  MultiXactIdPrecedes 4294967290 5 = true /\ MultiXactOffsetPrecedes 4294967290 5 = true.
Proof.
  apply (MultiXactIdPrecedes_transitive_in_half 4294967290 0 5);
    [reflexivity | reflexivity | vm_compute; reflexivity].
Defined.

(** ** The order of transaction ids *)

(** X3.  A reserved transaction id precedes every normal id, at any
    distance, and no normal id precedes a reserved one. *)
Theorem TransactionIdPrecedes_reserved_first (cfg : Config) (a b : Z) :
  TransactionIdIsNormal cfg a = false -> TransactionIdIsNormal cfg b = true ->
  TransactionIdPrecedes cfg a b = true /\
  TransactionIdPrecedes cfg b a = false /\
  TransactionIdFollowsOrEquals cfg b a = true /\
  TransactionIdFollowsOrEquals cfg a b = false.
Proof.
  intros Ha Hb. unfold TransactionIdPrecedes, TransactionIdFollowsOrEquals.
  rewrite Ha, Hb. simpl. unfold TransactionIdIsNormal in Ha, Hb.
  apply Z.leb_gt in Ha. apply Z.leb_le in Hb.
  repeat split; first [apply Z.ltb_lt | apply Z.ltb_ge | apply Z.leb_le | apply Z.leb_gt]; lia.
Qed.

Lemma TransactionIdPrecedes_reserved_first_sample :
  TransactionIdPrecedes pg_default 2 4294967295 = true /\
  TransactionIdPrecedes pg_default 4294967295 2 = false /\
  TransactionIdFollowsOrEquals pg_default 4294967295 2 = true /\
  TransactionIdFollowsOrEquals pg_default 2 4294967295 = false.
Proof.
  apply (TransactionIdPrecedes_reserved_first pg_default 2 4294967295); reflexivity.
Defined.

(** X4.  Two transaction ids precede each other only when both are
    normal and exactly 2^31 apart; in particular never when one of them
    is reserved, and never an id itself. *)
Theorem TransactionIdPrecedes_asymmetric (cfg : Config) (a b : Z) :
  TransactionIdPrecedes cfg a b && TransactionIdPrecedes cfg b a =
    TransactionIdIsNormal cfg a && TransactionIdIsNormal cfg b
    && (u32 (a - b) =? 2 ^ 31) /\
  TransactionIdPrecedes cfg a a = false.
Proof.
  unfold TransactionIdPrecedes. cbv zeta. rewrite !s32_u32, Z.sub_diag.
  split.
  - destruct (TransactionIdIsNormal cfg a), (TransactionIdIsNormal cfg b); simpl.
    + destruct (s32_sign (a - b)) as [-> _]. destruct (s32_sign (b - a)) as [-> _].
      replace (b - a) with (- (a - b)) by lia. rewrite u32_opp.
      pose proof (u32_range (a - b)) as Hr.
      destruct (Z.eqb_spec (u32 (a - b)) 0); destruct (Z.eqb_spec (u32 (a - b)) (2 ^ 31));
        destruct (Z.leb_spec (2 ^ 31) (u32 (a - b))); try lia; try reflexivity;
        destruct (Z.leb_spec (2 ^ 31) (2 ^ 32 - u32 (a - b))); try lia; reflexivity.
    + destruct (Z.ltb_spec a b), (Z.ltb_spec b a); try lia; reflexivity.
    + destruct (Z.ltb_spec a b), (Z.ltb_spec b a); try lia; reflexivity.
    + destruct (Z.ltb_spec a b), (Z.ltb_spec b a); try lia; reflexivity.
  - destruct (negb (TransactionIdIsNormal cfg a) || negb (TransactionIdIsNormal cfg a));
      [apply Z.ltb_irrefl | reflexivity].
Qed.

(** ** The layout of member pages *)

Section LayoutRoundTrip.
Context (cfg : Config).
Hypothesis Hcfg : config_ok cfg.

(** The group of a member inside its page and its index inside the
    group determine the three layout values, and with the page the
    offset itself. *)
Lemma member_layout_coordinates (off : Z) :
  0 <= off < 2 ^ 32 ->
  exists g k,
    0 <= g < cfg_BLCKSZ cfg / 20 /\ 0 <= k < 4 /\
    MXOffsetToFlagsOffset cfg off = 20 * g /\
    MXOffsetToMemberOffset cfg off = 20 * g + 4 + 4 * k /\
    MXOffsetToFlagsBitShift off = 8 * k /\
    off = MXOffsetToMemberPage cfg off * (cfg_BLCKSZ cfg / 20 * 4) + 4 * g + k.
Proof.
  intros Hoff.
  destruct (member_layout_eq cfg Hcfg off Hoff) as (Hp & Hf & Hb & Hm).
  destruct (groups_per_page_eq cfg Hcfg) as (_ & _ & Hg).
  exists ((off / 4) mod (cfg_BLCKSZ cfg / 20)), (off mod 4).
  pose proof (Z.mod_pos_bound (off / 4) (cfg_BLCKSZ cfg / 20) ltac:(lia)) as Hgm.
  pose proof (Z.mod_pos_bound off 4 ltac:(lia)) as Hk.
  rewrite Hp, Hf, Hb, Hm.
  repeat split; try lia.
  pose proof (Z.div_mod off (cfg_BLCKSZ cfg / 20 * 4) ltac:(lia)) as Hdm.
  replace (cfg_BLCKSZ cfg / 20 * 4) with (4 * (cfg_BLCKSZ cfg / 20)) in * by lia.
  rewrite (Z.rem_mul_r off 4 (cfg_BLCKSZ cfg / 20)) in Hdm by lia.
  lia.
Qed.

(** X5.  The layout macros can be decoded: the page number, the byte
    offset of the flags word and the bit shift of a member give back its
    offset, the transaction id sits in the group of the flags word at
    the index the bit shift names, and two 32-bit offsets with the same
    page, flags offset and bit shift are equal. *)
Theorem member_layout_decodes (off : Z) :
  0 <= off < 2 ^ 32 ->
  off = MXOffsetToMemberPage cfg off * MULTIXACT_MEMBERS_PER_PAGE cfg
        + MXOffsetToFlagsOffset cfg off / MULTIXACT_MEMBERGROUP_SIZE
          * MULTIXACT_MEMBERS_PER_MEMBERGROUP
        + MXOffsetToFlagsBitShift off / MXACT_MEMBER_BITS_PER_XACT /\
  MXOffsetToMemberOffset cfg off =
    MXOffsetToFlagsOffset cfg off + MULTIXACT_FLAGBYTES_PER_GROUP
    + MXOffsetToFlagsBitShift off / MXACT_MEMBER_BITS_PER_XACT * sizeof_TransactionId /\
  forall off',
    0 <= off' < 2 ^ 32 ->
    MXOffsetToMemberPage cfg off' = MXOffsetToMemberPage cfg off ->
    MXOffsetToFlagsOffset cfg off' = MXOffsetToFlagsOffset cfg off ->
    MXOffsetToFlagsBitShift off' = MXOffsetToFlagsBitShift off ->
    off' = off.
Proof.
  intros Hoff.
  destruct (member_layout_coordinates off Hoff) as (g & k & Hg & Hk & Hf & Hm & Hb & Hdec).
  destruct (groups_per_page_eq cfg Hcfg) as (_ & Hgpp & Hgr).
  assert (Hmpp : MULTIXACT_MEMBERS_PER_PAGE cfg = cfg_BLCKSZ cfg / 20 * 4).
  { unfold MULTIXACT_MEMBERS_PER_PAGE. rewrite Hgpp, members_per_membergroup_eq.
    apply usize_small. lia. }
  rewrite Hmpp, membergroup_size_eq, members_per_membergroup_eq, Hf, Hm, Hb.
  unfold MXACT_MEMBER_BITS_PER_XACT, MULTIXACT_FLAGBYTES_PER_GROUP, sizeof_TransactionId.
  rewrite !(Z.mul_comm _ g), !(Z.mul_comm _ k), !Z.div_mul by lia.
  split; [lia | split; [lia | ]].
  intros off' Hoff' Hp' Hf' Hb'.
  destruct (member_layout_coordinates off' Hoff')
    as (g' & k' & Hg' & Hk' & Hf2 & Hm2 & Hb2 & Hdec').
  rewrite Hp' in Hdec'. lia.
Qed.

(** X6.  No two members share storage: the transaction-id word of a
    member never overlaps a flags word, and two different 32-bit offsets
    of one page have disjoint transaction-id words and either disjoint
    flags words or disjoint status fields of the same flags word. *)
Theorem member_storage_disjoint (off1 off2 : Z) :
  0 <= off1 < 2 ^ 32 -> 0 <= off2 < 2 ^ 32 ->
  (MXOffsetToFlagsOffset cfg off2 + MULTIXACT_FLAGBYTES_PER_GROUP
     <= MXOffsetToMemberOffset cfg off1 \/
   MXOffsetToMemberOffset cfg off1 + sizeof_TransactionId
     <= MXOffsetToFlagsOffset cfg off2) /\
  (MXOffsetToMemberPage cfg off1 = MXOffsetToMemberPage cfg off2 -> off1 <> off2 ->
   (MXOffsetToMemberOffset cfg off1 + sizeof_TransactionId
      <= MXOffsetToMemberOffset cfg off2 \/
    MXOffsetToMemberOffset cfg off2 + sizeof_TransactionId
      <= MXOffsetToMemberOffset cfg off1) /\
   (MXOffsetToFlagsOffset cfg off1 + MULTIXACT_FLAGBYTES_PER_GROUP
      <= MXOffsetToFlagsOffset cfg off2 \/
    MXOffsetToFlagsOffset cfg off2 + MULTIXACT_FLAGBYTES_PER_GROUP
      <= MXOffsetToFlagsOffset cfg off1 \/
    (MXOffsetToFlagsOffset cfg off1 = MXOffsetToFlagsOffset cfg off2 /\
     (MXOffsetToFlagsBitShift off1 + MXACT_MEMBER_BITS_PER_XACT
        <= MXOffsetToFlagsBitShift off2 \/
      MXOffsetToFlagsBitShift off2 + MXACT_MEMBER_BITS_PER_XACT
        <= MXOffsetToFlagsBitShift off1)))).
Proof.
  intros H1 H2.
  destruct (member_layout_coordinates off1 H1) as (g1 & k1 & Hg1 & Hk1 & Hf1 & Hm1 & Hb1 & Hd1).
  destruct (member_layout_coordinates off2 H2) as (g2 & k2 & Hg2 & Hk2 & Hf2 & Hm2 & Hb2 & Hd2).
  rewrite Hf1, Hf2, Hm1, Hm2, Hb1, Hb2.
  unfold MXACT_MEMBER_BITS_PER_XACT, MULTIXACT_FLAGBYTES_PER_GROUP, sizeof_TransactionId.
  split; [lia | ].
  intros Hpage Hne. rewrite Hpage in Hd1. split; lia.
Qed.

(** X7.  [MAX_MEMBERS_IN_LAST_MEMBERS_PAGE] is the number of member
    offsets on the page of the last 32-bit offset: it lies between 1 and
    the number of members per page, the offsets of that page are
    exactly the last [MAX_MEMBERS_IN_LAST_MEMBERS_PAGE] offsets, and
    with the full pages before it these make up the 2^32 offsets.
    Every earlier page holds [MULTIXACT_MEMBERS_PER_PAGE] offsets: the
    32-bit offsets on page [p] are exactly the
    [MULTIXACT_MEMBERS_PER_PAGE] integers from
    [p * MULTIXACT_MEMBERS_PER_PAGE] on. *)
Theorem last_members_page_population (off : Z) :
  0 <= off < 2 ^ 32 ->
  1 <= MAX_MEMBERS_IN_LAST_MEMBERS_PAGE cfg <= MULTIXACT_MEMBERS_PER_PAGE cfg /\
  (MXOffsetToMemberPage cfg off = MXOffsetToMemberPage cfg (2 ^ 32 - 1) <->
   2 ^ 32 - MAX_MEMBERS_IN_LAST_MEMBERS_PAGE cfg <= off) /\
  MXOffsetToMemberPage cfg (2 ^ 32 - 1) * MULTIXACT_MEMBERS_PER_PAGE cfg
    + MAX_MEMBERS_IN_LAST_MEMBERS_PAGE cfg = 2 ^ 32 /\
  forall p off',
    0 <= p < MXOffsetToMemberPage cfg (2 ^ 32 - 1) ->
    (0 <= off' < 2 ^ 32 /\ MXOffsetToMemberPage cfg off' = p <->
     p * MULTIXACT_MEMBERS_PER_PAGE cfg <= off'
     < p * MULTIXACT_MEMBERS_PER_PAGE cfg + MULTIXACT_MEMBERS_PER_PAGE cfg).
Proof.
  intros Hoff.
  destruct (groups_per_page_eq cfg Hcfg) as (_ & Hgpp & Hgr).
  destruct (members_per_page_eq cfg Hcfg) as (Hu & Hr).
  assert (Hmpp : MULTIXACT_MEMBERS_PER_PAGE cfg = cfg_BLCKSZ cfg / 20 * 4).
  { unfold MULTIXACT_MEMBERS_PER_PAGE. rewrite Hgpp, members_per_membergroup_eq.
    apply usize_small. lia. }
  unfold MAX_MEMBERS_IN_LAST_MEMBERS_PAGE, MXOffsetToMemberPage. rewrite Hu, Hmpp.
  set (M := cfg_BLCKSZ cfg / 20 * 4) in *.
  pose proof (Z.mod_pos_bound 4294967295 M ltac:(lia)) as Hmod.
  rewrite u32_small by lia.
  change (2 ^ 32 - 1) with 4294967295.
  split; [lia | ].
  pose proof (Z.div_mod 4294967295 M ltac:(lia)) as Hlast.
  pose proof (Z.div_mod off M ltac:(lia)) as Hdm.
  pose proof (Z.mod_pos_bound off M ltac:(lia)) as Hom.
  clearbody M.
  split; [ | split].
  - split.
    + intros Heq. rewrite Heq in Hdm. lia.
    + intros Hge.
      assert (Hlo : 0 <= off - M * (4294967295 / M) < M) by lia.
      symmetry.
      apply Z.div_unique with (r := off - M * (4294967295 / M)); [left; exact Hlo | lia].
  - lia.
  - intros p off' Hp. split.
    + intros [Hoff' Hpage].
      pose proof (Z.div_mod off' M ltac:(lia)) as Hdm'.
      pose proof (Z.mod_pos_bound off' M ltac:(lia)) as Hom'.
      rewrite Hpage in Hdm'. lia.
    + intros Hin.
      assert (Hfull : (p + 1) * M <= 4294967295 / M * M) by nia.
      split; [nia | ].
      symmetry.
      apply Z.div_unique with (r := off' - M * p); [left; lia | lia].
Qed.

End LayoutRoundTrip.

Lemma member_layout_decodes_sample :
  1635 = MXOffsetToMemberPage pg_default 1635 * MULTIXACT_MEMBERS_PER_PAGE pg_default
         + MXOffsetToFlagsOffset pg_default 1635 / MULTIXACT_MEMBERGROUP_SIZE
           * MULTIXACT_MEMBERS_PER_MEMBERGROUP
         + MXOffsetToFlagsBitShift 1635 / MXACT_MEMBER_BITS_PER_XACT /\
  MXOffsetToMemberOffset pg_default 1635 =
    MXOffsetToFlagsOffset pg_default 1635 + MULTIXACT_FLAGBYTES_PER_GROUP
    + MXOffsetToFlagsBitShift 1635 / MXACT_MEMBER_BITS_PER_XACT * sizeof_TransactionId /\
  forall off',
    0 <= off' < 2 ^ 32 ->
    MXOffsetToMemberPage pg_default off' = MXOffsetToMemberPage pg_default 1635 ->
    MXOffsetToFlagsOffset pg_default off' = MXOffsetToFlagsOffset pg_default 1635 ->
    MXOffsetToFlagsBitShift off' = MXOffsetToFlagsBitShift 1635 ->
    off' = 1635.
Proof.
  apply (member_layout_decodes pg_default); [solve_config_ok | lia].
Defined.

Lemma member_storage_disjoint_sample :
  (MXOffsetToFlagsOffset pg_default 7 + MULTIXACT_FLAGBYTES_PER_GROUP
     <= MXOffsetToMemberOffset pg_default 6 \/
   MXOffsetToMemberOffset pg_default 6 + sizeof_TransactionId
     <= MXOffsetToFlagsOffset pg_default 7) /\
  (MXOffsetToMemberOffset pg_default 6 + sizeof_TransactionId
     <= MXOffsetToMemberOffset pg_default 7 \/
   MXOffsetToMemberOffset pg_default 7 + sizeof_TransactionId
     <= MXOffsetToMemberOffset pg_default 6) /\
  (MXOffsetToFlagsOffset pg_default 6 + MULTIXACT_FLAGBYTES_PER_GROUP
     <= MXOffsetToFlagsOffset pg_default 7 \/
   MXOffsetToFlagsOffset pg_default 7 + MULTIXACT_FLAGBYTES_PER_GROUP
     <= MXOffsetToFlagsOffset pg_default 6 \/
   (MXOffsetToFlagsOffset pg_default 6 = MXOffsetToFlagsOffset pg_default 7 /\
    (MXOffsetToFlagsBitShift 6 + MXACT_MEMBER_BITS_PER_XACT
       <= MXOffsetToFlagsBitShift 7 \/
     MXOffsetToFlagsBitShift 7 + MXACT_MEMBER_BITS_PER_XACT
       <= MXOffsetToFlagsBitShift 6))).
Proof.
  destruct (member_storage_disjoint pg_default ltac:(solve_config_ok) 6 7
              ltac:(lia) ltac:(lia)) as [Hflags Hsame].
  split; [exact Hflags | ].
  apply Hsame; [reflexivity | lia].
Defined.

Lemma last_members_page_population_sample :
  1 <= MAX_MEMBERS_IN_LAST_MEMBERS_PAGE pg_default
    <= MULTIXACT_MEMBERS_PER_PAGE pg_default /\
  (MXOffsetToMemberPage pg_default 4294966000
   = MXOffsetToMemberPage pg_default (2 ^ 32 - 1) <->
   2 ^ 32 - MAX_MEMBERS_IN_LAST_MEMBERS_PAGE pg_default <= 4294966000) /\
  MXOffsetToMemberPage pg_default (2 ^ 32 - 1) * MULTIXACT_MEMBERS_PER_PAGE pg_default
    + MAX_MEMBERS_IN_LAST_MEMBERS_PAGE pg_default = 2 ^ 32 /\
  forall p off',
    0 <= p < MXOffsetToMemberPage pg_default (2 ^ 32 - 1) ->
    (0 <= off' < 2 ^ 32 /\ MXOffsetToMemberPage pg_default off' = p <->
     p * MULTIXACT_MEMBERS_PER_PAGE pg_default <= off'
     < p * MULTIXACT_MEMBERS_PER_PAGE pg_default + MULTIXACT_MEMBERS_PER_PAGE pg_default).
Proof.
  apply (last_members_page_population pg_default); [solve_config_ok | lia].
Defined.

(** ** Status fields of one flags word *)

(** Bit [j] of the word [set_member_flags] computes, for a one-byte
    status. *)
Lemma set_member_flags_byte_spec (flagsval st bshift j : Z) :
  0 <= st < 2 ^ 8 -> 0 <= bshift -> 0 <= j ->
  Z.testbit (set_member_flags flagsval st bshift) j =
    (j <? 32) &&
    (if (bshift <=? j) && (j <? bshift + 8)
     then Z.testbit st (j - bshift) else Z.testbit flagsval j).
Proof.
  intros Hs Hb Hj. rewrite set_member_flags_spec by lia.
  destruct (Z.leb_spec bshift j), (Z.ltb_spec j (bshift + 8)); simpl; try reflexivity;
    rewrite (testbit_byte_high st (j - bshift)) by lia; rewrite orb_false_r; reflexivity.
Qed.

Lemma status_field_spec (flagsval bshift j : Z) :
  0 <= bshift -> 0 <= j ->
  Z.testbit (status_field flagsval bshift) j = (j <? 8) && Z.testbit flagsval (j + bshift).
Proof.
  intros Hb Hj. unfold status_field.
  rewrite Z.land_spec, Z.shiftr_spec, testbit_ones by lia.
  destruct (Z.leb_spec 0 j); [ | lia]. simpl. apply andb_comm.
Qed.

(** A store into another field of the word leaves a field as it was. *)
Lemma status_field_set_member_flags_other (flagsval st bshift bshift' : Z) :
  0 <= st < 2 ^ 8 -> 0 <= bshift -> 0 <= bshift' -> bshift + 8 <= 32 ->
  bshift + 8 <= bshift' \/ bshift' + 8 <= bshift ->
  status_field (set_member_flags flagsval st bshift') bshift = status_field flagsval bshift.
Proof.
  intros Hs Hb Hb' Hin Hdisj. apply Z.bits_inj'. intros j Hj.
  rewrite !status_field_spec, set_member_flags_byte_spec by lia.
  destruct (Z.ltb_spec j 8); simpl; [ | reflexivity].
  destruct (Z.ltb_spec (j + bshift) 32); [ | lia].
  destruct (Z.leb_spec bshift' (j + bshift)), (Z.ltb_spec (j + bshift) (bshift' + 8));
    try lia; reflexivity.
Qed.

(** X8.  Status stores into one flags word compose as stores into
    separate variables would: a second store into the same field
    replaces the first, and stores into different fields commute and
    both read back. *)
Theorem set_member_flags_composes (flagsval st1 st2 bshift1 bshift2 : Z) :
  0 <= st1 < 2 ^ 8 -> 0 <= st2 < 2 ^ 8 ->
  0 <= bshift1 <= 24 -> 0 <= bshift2 <= 24 ->
  set_member_flags (set_member_flags flagsval st1 bshift1) st2 bshift1
  = set_member_flags flagsval st2 bshift1 /\
  (bshift1 + 8 <= bshift2 \/ bshift2 + 8 <= bshift1 ->
   set_member_flags (set_member_flags flagsval st1 bshift1) st2 bshift2
   = set_member_flags (set_member_flags flagsval st2 bshift2) st1 bshift1 /\
   status_field (set_member_flags (set_member_flags flagsval st1 bshift1) st2 bshift2)
     bshift1 = st1 /\
   status_field (set_member_flags (set_member_flags flagsval st1 bshift1) st2 bshift2)
     bshift2 = st2).
Proof.
  intros Hs1 Hs2 Hb1 Hb2. split.
  - apply Z.bits_inj'. intros j Hj. rewrite !set_member_flags_byte_spec by lia.
    destruct (Z.ltb_spec j 32); simpl; [ | reflexivity].
    destruct ((bshift1 <=? j) && (j <? bshift1 + 8)); reflexivity.
  - intros Hdisj. split; [ | split].
    + apply Z.bits_inj'. intros j Hj. rewrite !set_member_flags_byte_spec by lia.
      destruct (Z.ltb_spec j 32); simpl; [ | reflexivity].
      destruct (Z.leb_spec bshift1 j), (Z.ltb_spec j (bshift1 + 8)),
        (Z.leb_spec bshift2 j), (Z.ltb_spec j (bshift2 + 8)); try lia; reflexivity.
    + rewrite status_field_set_member_flags_other by lia.
      apply set_member_flags_field; lia.
    + apply set_member_flags_field; lia.
Qed.

Lemma set_member_flags_composes_sample :
  set_member_flags (set_member_flags 4294967295 1 8) 5 8 = set_member_flags 4294967295 5 8 /\
  set_member_flags (set_member_flags 4294967295 1 8) 5 24
  = set_member_flags (set_member_flags 4294967295 5 24) 1 8 /\
  status_field (set_member_flags (set_member_flags 4294967295 1 8) 5 24) 8 = 1 /\
  status_field (set_member_flags (set_member_flags 4294967295 1 8) 5 24) 24 = 5.
Proof.
  destruct (set_member_flags_composes 4294967295 1 5 8 24
              ltac:(lia) ltac:(lia) ltac:(lia) ltac:(lia)) as [Hsame Hother].
  split; [exact Hsame | apply Hother; lia].
Defined.

(** ** Reading back what the write path stored *)

Lemma u32_add_u32 (a b : Z) : u32 (u32 a + b) = u32 (a + b).
Proof. unfold u32. apply Zplus_mod_idemp_l. Qed.

Lemma u32_add_ne (off d : Z) :
  0 <= off < 2 ^ 32 -> 0 < d < 2 ^ 32 -> u32 (off + d) <> off.
Proof. intros Hoff Hd. unfold u32. Z.div_mod_to_equations. lia. Qed.

Section ReadBack.
Context (cfg : Config).
Hypothesis Hcfg : config_ok cfg.

(** The member an iteration stores can be read back from the page. *)
Lemma member_page_update_member_at (off : Z) (member : MultiXactMember) (page : Z) :
  0 <= off < 2 ^ 32 -> member_ok member ->
  member_at cfg off (member_page_update cfg off member page) = member.
Proof.
  intros Hoff Hok.
  destruct (member_page_update_stored cfg Hcfg off member page Hoff Hok)
    as (Hxid & _ & Hstatus & _).
  unfold member_at. rewrite Hxid, Hstatus. destruct member; reflexivity.
Qed.

(** An iteration for another offset of the page leaves a member as it
    was. *)
Lemma member_page_update_other (off off' : Z) (member : MultiXactMember) (page : Z) :
  0 <= off < 2 ^ 32 -> 0 <= off' < 2 ^ 32 -> member_ok member ->
  MXOffsetToMemberPage cfg off' = MXOffsetToMemberPage cfg off -> off' <> off ->
  member_at cfg off (member_page_update cfg off' member page) = member_at cfg off page.
Proof.
  intros Hoff Hoff' [Hxid Hstatus] Hpage Hne.
  destruct (member_layout_coordinates cfg Hcfg off Hoff)
    as (g & k & Hg & Hk & Hf & Hm & Hb & Hd).
  destruct (member_layout_coordinates cfg Hcfg off' Hoff')
    as (g' & k' & Hg' & Hk' & Hf' & Hm' & Hb' & Hd').
  destruct (member_layout_int cfg Hcfg off' Hoff') as (_ & Hmi & Hfi & Hbi & _).
  rewrite Hpage in Hd'.
  unfold member_at, member_page_update. cbv zeta. rewrite Hmi, Hfi, Hbi.
  rewrite Hf, Hm, Hb, Hf', Hm', Hb'.
  assert (Hcoord : g <> g' \/ k <> k') by lia.
  set (p1 := page_store32 page (20 * g' + 4 + 4 * k') (xid member)).
  assert (Hp1f : forall fo, 0 <= fo -> fo + 4 <= 20 * g' + 4 + 4 * k' \/
                                     20 * g' + 4 + 4 * k' + 4 <= fo ->
                            page_load32 p1 fo = page_load32 page fo).
  { intros fo Hfo Hdisj. apply page_load32_store32_other; lia. }
  set (w := set_member_flags (page_load32 p1 (20 * g')) (status member) (8 * k')).
  assert (Hw : 0 <= w < 2 ^ 32) by (apply set_member_flags_range; lia).
  f_equal.
  - rewrite page_load32_store32_other by lia. apply Hp1f; lia.
  - destruct (Z.eq_dec g g') as [-> | Hg_ne].
    + rewrite page_load32_store32_same by lia. unfold w.
      rewrite status_field_set_member_flags_other by lia.
      rewrite Hp1f by lia. reflexivity.
    + rewrite page_load32_store32_other by lia. rewrite Hp1f by lia. reflexivity.
Qed.

(** The loop leaves alone every member whose offset it does not visit. *)
Lemma members_page_update_other (members : list MultiXactMember) :
  forall off page o,
    0 <= off < 2 ^ 32 -> 0 <= o < 2 ^ 32 -> Forall member_ok members ->
    (forall j, (j < length members)%nat -> u32 (off + Z.of_nat j) <> o) ->
    member_at cfg o
      (members_page_update cfg off members (MXOffsetToMemberPage cfg o) page)
    = member_at cfg o page.
Proof.
  induction members as [ | member members IH]; intros off page o Hoff Ho Hok Hfresh.
  - reflexivity.
  - inversion Hok as [ | ? ? Hmember Hrest]; subst.
    cbn [members_page_update].
    rewrite IH; [ | apply u32_range | assumption | assumption | ].
    + destruct (member_layout_int cfg Hcfg off Hoff) as (-> & _).
      destruct (Z.eqb_spec (MXOffsetToMemberPage cfg o) (MXOffsetToMemberPage cfg off))
        as [Hsame | _]; [ | reflexivity].
      apply member_page_update_other; try assumption; [congruence | ].
      specialize (Hfresh 0%nat ltac:(simpl; lia)). simpl in Hfresh.
      rewrite Z.add_0_r, u32_small in Hfresh by lia. exact Hfresh.
    + intros j Hj. rewrite u32_add_u32.
      specialize (Hfresh (S j) ltac:(simpl; lia)).
      replace (off + 1 + Z.of_nat j) with (off + Z.of_nat (S j)) by lia. exact Hfresh.
Qed.

(** After the loop, member [i] is in the page at its offset. *)
Lemma members_page_update_member_at (members : list MultiXactMember) :
  forall off page (i : nat) member,
    0 <= off < 2 ^ 32 -> Forall member_ok members ->
    Z.of_nat (length members) <= 2 ^ 32 ->
    members !! i = Some member ->
    member_at cfg (u32 (off + Z.of_nat i))
      (members_page_update cfg off members
         (MXOffsetToMemberPage cfg (u32 (off + Z.of_nat i))) page)
    = member.
Proof.
  induction members as [ | m members IH]; intros off page i member Hoff Hok Hlen Hi.
  - discriminate Hi.
  - inversion Hok as [ | ? ? Hm Hrest]; subst.
    cbn [length] in Hlen. cbn [members_page_update].
    destruct i as [ | i].
    + injection Hi as <-. simpl Z.of_nat. rewrite Z.add_0_r, u32_small by lia.
      destruct (member_layout_int cfg Hcfg off Hoff) as (-> & _).
      rewrite Z.eqb_refl.
      rewrite members_page_update_other;
        [ | apply u32_range | assumption | assumption | ].
      * apply member_page_update_member_at; assumption.
      * intros j Hj. rewrite u32_add_u32.
        replace (off + 1 + Z.of_nat j) with (off + (1 + Z.of_nat j)) by lia.
        apply u32_add_ne; lia.
    + simpl in Hi.
      replace (u32 (off + Z.of_nat (S i))) with (u32 (u32 (off + 1) + Z.of_nat i))
        by (rewrite u32_add_u32; f_equal; lia).
      apply IH; [apply u32_range | assumption | lia | exact Hi].
Qed.

(** The page of member [i] is among the pages the loop visits. *)
Lemma member_pages_visits (members : list MultiXactMember) :
  forall offset (i : nat) member,
    0 <= offset < 2 ^ 32 -> members !! i = Some member ->
    MXOffsetToMemberPage cfg (u32 (offset + Z.of_nat i))
    ∈ member_pages cfg offset members.
Proof.
  induction members as [ | m ms IH]; intros offset i member Hoff Hi; [discriminate Hi | ].
  cbn [member_pages]. destruct i as [ | i].
  - simpl Z.of_nat. rewrite Z.add_0_r, (u32_small offset) by lia.
    destruct (member_layout_int cfg Hcfg offset Hoff) as (-> & _).
    apply list_elem_of_here.
  - apply list_elem_of_further. simpl in Hi.
    replace (u32 (offset + Z.of_nat (S i))) with (u32 (u32 (offset + 1) + Z.of_nat i))
      by (rewrite u32_add_u32; f_equal; lia).
    apply (IH _ _ member); [apply u32_range | exact Hi].
Qed.

Lemma offset_entries_differ (multi other : Z) :
  0 <= multi < 2 ^ 32 -> 0 <= other < 2 ^ 32 -> other <> multi ->
  MultiXactIdToOffsetPage cfg other = MultiXactIdToOffsetPage cfg multi ->
  MultiXactIdToOffsetEntry cfg other <> MultiXactIdToOffsetEntry cfg multi.
Proof.
  intros Hm Ho Hne. destruct (offsets_per_page_eq cfg Hcfg) as (Hu & _ & Hr).
  unfold MultiXactIdToOffsetPage, MultiXactIdToOffsetEntry. rewrite Hu.
  intros Hpage Hentry.
  pose proof (Z.div_mod multi (cfg_BLCKSZ cfg / 4) ltac:(lia)).
  pose proof (Z.div_mod other (cfg_BLCKSZ cfg / 4) ltac:(lia)).
  rewrite Hpage, Hentry in *. lia.
Qed.

(** X9.  What [RecordNewMultiXact] stored can be read back: after a
    completed call for at most 2^32 members, the offset entry of the
    group holds the start offset and member [i] of the list is found,
    transaction id and status, at member offset [offset + i]. *)
Theorem RecordNewMultiXact_reads_back (multi offset : Z)
    (members : list MultiXactMember) (st st' : State) :
  0 <= multi < 2 ^ 32 -> 0 <= offset < 2 ^ 32 -> Forall member_ok members ->
  Z.of_nat (length members) <= 2 ^ 32 ->
  RecordNewMultiXact cfg multi offset members st = Ok tt st' ->
  read_offset cfg (MultiXactOffsetCtlData st') multi = Some offset /\
  forall (i : nat) member,
    members !! i = Some member ->
    read_member cfg (MultiXactMemberCtlData st') (u32 (offset + Z.of_nat i))
    = Some member.
Proof.
  intros Hm Hoff Hok Hlen Hrun.
  destruct (RecordNewMultiXact_effect cfg Hcfg _ _ _ _ _ Hm Hoff Hrun)
    as ((Hov & Hores & _) & (Hmv & Hmres & _) & _).
  destruct (offset_layout_int cfg Hcfg multi Hm) as (Hpi & Hei & He0 & He1).
  split.
  - unfold read_offset. rewrite <- Hpi, Hov.
    assert (Hres : is_Some (page_buffer (MultiXactOffsetCtlData st')
                              !! s32 (MultiXactIdToOffsetPage cfg multi))).
    { apply Hores. right. apply list_elem_of_singleton. reflexivity. }
    destruct Hres as [page' Hres].
    pose proof (Hov (s32 (MultiXactIdToOffsetPage cfg multi))) as Hview.
    rewrite (page_view_resident _ _ _ Hres) in Hview.
    destruct (page_view (MultiXactOffsetCtlData st) _) as [page | ];
      [ | discriminate Hview].
    simpl. f_equal. unfold offset_page_update. rewrite Z.eqb_refl, Hei.
    apply page_load32_store32_same; assumption.
  - intros i member Hi. unfold read_member.
    set (o := u32 (offset + Z.of_nat i)).
    assert (Ho : 0 <= o < 2 ^ 32) by apply u32_range.
    assert (Hin : MXOffsetToMemberPage cfg o ∈ member_pages cfg offset members)
      by (apply (member_pages_visits members offset i member); assumption).
    assert (Hres : is_Some (page_buffer (MultiXactMemberCtlData st')
                              !! MXOffsetToMemberPage cfg o))
      by (apply Hmres; right; exact Hin).
    destruct Hres as [page' Hres].
    pose proof (Hmv (MXOffsetToMemberPage cfg o)) as Hview.
    rewrite (page_view_resident _ _ _ Hres) in Hview.
    rewrite (page_view_resident _ _ _ Hres).
    destruct (page_view (MultiXactMemberCtlData st) _) as [page | ];
      [ | discriminate Hview].
    simpl in Hview. injection Hview as ->. simpl. f_equal.
    apply members_page_update_member_at; assumption.
Qed.

(** X10.  [RecordNewMultiXact] does not disturb what it does not
    store: after a completed call every member offset it did not visit
    reads as before, and so does the offset entry of every other
    group. *)
Theorem RecordNewMultiXact_keeps_the_rest (multi offset : Z)
    (members : list MultiXactMember) (st st' : State) :
  0 <= multi < 2 ^ 32 -> 0 <= offset < 2 ^ 32 -> Forall member_ok members ->
  RecordNewMultiXact cfg multi offset members st = Ok tt st' ->
  (forall o,
      0 <= o < 2 ^ 32 ->
      (forall j, (j < length members)%nat -> u32 (offset + Z.of_nat j) <> o) ->
      read_member cfg (MultiXactMemberCtlData st') o
      = read_member cfg (MultiXactMemberCtlData st) o) /\
  (forall other,
      0 <= other < 2 ^ 32 -> other <> multi ->
      read_offset cfg (MultiXactOffsetCtlData st') other
      = read_offset cfg (MultiXactOffsetCtlData st) other).
Proof.
  intros Hm Hoff Hok Hrun.
  destruct (RecordNewMultiXact_effect cfg Hcfg _ _ _ _ _ Hm Hoff Hrun)
    as ((Hov & _) & (Hmv & _) & _).
  split.
  - intros o Ho Hfresh. unfold read_member. rewrite Hmv.
    destruct (page_view (MultiXactMemberCtlData st) _) as [page | ]; [ | reflexivity].
    simpl. f_equal. apply members_page_update_other; assumption.
  - intros other Hother Hne. unfold read_offset. rewrite Hov.
    destruct (page_view (MultiXactOffsetCtlData st) _) as [page | ]; [ | reflexivity].
    simpl. f_equal. unfold offset_page_update.
    destruct (offset_layout_int cfg Hcfg multi Hm) as (-> & -> & He0 & He1).
    destruct (Z.eqb_spec (MultiXactIdToOffsetPage cfg other)
                (MultiXactIdToOffsetPage cfg multi)) as [Hsame | _]; [ | reflexivity].
    pose proof (offset_entries_differ multi other Hm Hother Hne Hsame) as Hentry.
    destruct (offset_layout_int cfg Hcfg other Hother) as (_ & _ & Ho0 & Ho1).
    unfold sizeof_MultiXactOffset in *.
    apply page_load32_store32_other; lia.
Qed.

End ReadBack.

Lemma RecordNewMultiXact_reads_back_sample :
  let st' := final_state (RecordNewMultiXact pg_default 1 4 two_members fresh_state) in
  read_offset pg_default (MultiXactOffsetCtlData st') 1 = Some 4 /\
  read_member pg_default (MultiXactMemberCtlData st') 4 = Some {| xid := 7; status := 1 |} /\
  read_member pg_default (MultiXactMemberCtlData st') 5 = Some {| xid := 9; status := 5 |}.
Proof.
  destruct (RecordNewMultiXact_reads_back pg_default ltac:(solve_config_ok) 1 4
              two_members fresh_state
              (final_state (RecordNewMultiXact pg_default 1 4 two_members fresh_state))
              ltac:(lia) ltac:(lia) ltac:(solve_members_ok) ltac:(simpl; lia)
              ltac:(vm_compute; reflexivity))
    as [Hoffset Hmembers].
  split; [exact Hoffset | split].
  - exact (Hmembers 0%nat _ eq_refl).
  - exact (Hmembers 1%nat _ eq_refl).
Defined.

Lemma RecordNewMultiXact_keeps_the_rest_sample :
  let st1 := final_state (RecordNewMultiXact pg_default 1 0 two_members fresh_state) in
  let st2 := final_state (RecordNewMultiXact pg_default 2 2 [bad_member] st1) in
  read_member pg_default (MultiXactMemberCtlData st2) 1
  = read_member pg_default (MultiXactMemberCtlData st1) 1 /\
  read_offset pg_default (MultiXactOffsetCtlData st2) 1
  = read_offset pg_default (MultiXactOffsetCtlData st1) 1.
Proof.
  destruct (RecordNewMultiXact_keeps_the_rest pg_default ltac:(solve_config_ok) 2 2
              [bad_member]
              (final_state (RecordNewMultiXact pg_default 1 0 two_members fresh_state))
              (final_state
                 (RecordNewMultiXact pg_default 2 2 [bad_member]
                    (final_state
                       (RecordNewMultiXact pg_default 1 0 two_members fresh_state))))
              ltac:(lia) ltac:(lia) ltac:(solve_members_ok)
              ltac:(vm_compute; reflexivity))
    as [Hmembers Hoffsets].
  split.
  - apply Hmembers; [lia | ].
    intros j Hj. destruct j; [vm_compute; discriminate | simpl in Hj; lia].
  - apply Hoffsets; lia.
Defined.

(** ** What the write path keeps, however it ends *)

Section FinalStates.
Context (cfg : Config).
Hypothesis Hcfg : config_ok cfg.

(** A property of states that survives a read call and the touching of
    a readable page survives [RecordNewMultiXact], however it ends. *)
Lemma RecordNewMultiXact_loop_final_state (P : State -> Prop) (multi : Z) :
  (forall st ctl pageno,
      P st -> P (log_call (EvSimpleLruReadPage ctl pageno multi) st)) ->
  (forall st ctl pageno page,
      P st -> is_Some (page_view (shared ctl st) pageno) ->
      P (set_shared ctl (touch_page pageno page (shared ctl st)) st)) ->
  forall members off prev_pageno slotno st,
    0 <= off < 2 ^ 32 -> loop_head prev_pageno slotno st -> P st ->
    P (final_state (RecordNewMultiXact_loop cfg multi members off prev_pageno slotno st)).
Proof.
  intros Hlog Htouch members0.
  induction members0 as [ | member members0 IH]; intros off prev slotno st Hoff Hhead HP.
  - exact HP.
  - rewrite (RecordNewMultiXact_loop_cons cfg Hcfg) by assumption.
    destruct (cfg_USE_ASSERT_CHECKING cfg
              && negb (status member <=? cfg_MultiXactStatusUpdate cfg)); [exact HP | ].
    cbv zeta. destruct (page_view _ _) as [page | ] eqn:Hview; [ | apply Hlog, HP].
    apply IH; [apply u32_range | apply loop_head_step | ].
    unfold member_step_state. cbv zeta.
    destruct (s32 (MXOffsetToMemberPage cfg off) =? prev).
    + apply (Htouch st MultiXactMemberCtl); [exact HP | simpl shared; rewrite Hview; eauto].
    + apply (Htouch _ MultiXactMemberCtl); [apply Hlog, HP | ].
      rewrite shared_log_call. simpl shared. rewrite Hview. eauto.
Qed.

Lemma RecordNewMultiXact_final_state (P : State -> Prop) (multi offset : Z)
    (members : list MultiXactMember) (st : State) :
  0 <= multi < 2 ^ 32 -> 0 <= offset < 2 ^ 32 ->
  (forall st ctl pageno,
      P st -> P (log_call (EvSimpleLruReadPage ctl pageno multi) st)) ->
  (forall st ctl pageno page,
      P st -> is_Some (page_view (shared ctl st) pageno) ->
      P (set_shared ctl (touch_page pageno page (shared ctl st)) st)) ->
  P st ->
  P (final_state (RecordNewMultiXact cfg multi offset members st)).
Proof.
  intros Hm Hoff Hlog Htouch HP.
  rewrite (RecordNewMultiXact_eq cfg Hcfg) by assumption. cbv zeta.
  destruct (page_view _ _) as [page | ] eqn:Hview; [ | apply Hlog, HP].
  apply RecordNewMultiXact_loop_final_state;
    [assumption | assumption | assumption | apply loop_head_start | ].
  unfold offset_step_state. cbv zeta.
  apply (Htouch _ MultiXactOffsetCtl); [apply Hlog, HP | ].
  rewrite shared_log_call. simpl shared. rewrite Hview. eauto.
Qed.

Lemma cache_coherent_touch_page (pageno page : Z) (sh : SlruSharedData) :
  cache_coherent sh -> cache_coherent (touch_page pageno page sh).
Proof.
  intros Hco p pg. unfold touch_page. simpl.
  destruct (decide (p = pageno)) as [-> | Hne].
  - rewrite !lookup_insert_eq. auto.
  - rewrite !lookup_insert_ne by congruence. apply Hco.
Qed.

(** X11.  However [RecordNewMultiXact] ends, it has changed no
    counter and has itself called nothing but [SimpleLruReadPage], on
    behalf of the group id: it never asks for a page to be zeroed or
    written out and never inserts a log record.  If every cached page
    was dirty or equal to its file image before, this is still so: the
    pages it modified are marked dirty. *)
Theorem RecordNewMultiXact_only_reads_and_dirties (multi offset : Z)
    (members : list MultiXactMember) (st : State) :
  0 <= multi < 2 ^ 32 -> 0 <= offset < 2 ^ 32 ->
  let st' := final_state (RecordNewMultiXact cfg multi offset members st) in
  (MultiXactState st' = MultiXactState st /\
   ShmemVariableCache_nextXid st' = ShmemVariableCache_nextXid st /\
   exists reads,
     calls st' = calls st ++ reads /\ Forall (is_read_call multi) reads) /\
  (cache_coherent (MultiXactOffsetCtlData st) ->
   cache_coherent (MultiXactMemberCtlData st) ->
   cache_coherent (MultiXactOffsetCtlData st') /\
   cache_coherent (MultiXactMemberCtlData st')).
Proof.
  intros Hm Hoff st'. subst st'. split.
  - apply (RecordNewMultiXact_final_state
             (fun s =>
                MultiXactState s = MultiXactState st /\
                ShmemVariableCache_nextXid s = ShmemVariableCache_nextXid st /\
                exists reads,
                  calls s = calls st ++ reads /\ Forall (is_read_call multi) reads));
      try assumption.
    + intros s ctl pageno (Hs & Hx & reads & Hcalls & Hreads).
      simpl. repeat split; try assumption.
      exists (reads ++ [EvSimpleLruReadPage ctl pageno multi]).
      rewrite Hcalls, app_assoc. split; [reflexivity | ].
      apply Forall_app. split; [exact Hreads | ].
      constructor; [ | constructor]. exists ctl, pageno. reflexivity.
    + intros s ctl pageno page (Hs & Hx & Hcalls) _.
      destruct ctl; simpl; repeat split; assumption.
    + repeat split. exists []. rewrite app_nil_r. split; [reflexivity | constructor].
  - intros Hco Hcm.
    apply (RecordNewMultiXact_final_state
             (fun s => cache_coherent (MultiXactOffsetCtlData s) /\
                       cache_coherent (MultiXactMemberCtlData s)));
      try assumption.
    + intros s ctl pageno HP. exact HP.
    + intros s ctl pageno page [Ho Hme] _.
      destruct ctl; simpl; split; try assumption; apply cache_coherent_touch_page; assumption.
    + split; assumption.
Qed.

End FinalStates.

Lemma RecordNewMultiXact_only_reads_and_dirties_sample :
  let st' := final_state (RecordNewMultiXact pg_cassert 1 4
                            (two_members ++ [bad_member]) fresh_state) in
  (MultiXactState st' = MultiXactState fresh_state /\
   ShmemVariableCache_nextXid st' = ShmemVariableCache_nextXid fresh_state /\
   exists reads,
     calls st' = calls fresh_state ++ reads /\ Forall (is_read_call 1) reads) /\
  cache_coherent (MultiXactOffsetCtlData st') /\
  cache_coherent (MultiXactMemberCtlData st').
Proof.
  destruct (RecordNewMultiXact_only_reads_and_dirties pg_cassert ltac:(solve_config_ok)
              1 4 (two_members ++ [bad_member]) fresh_state ltac:(lia) ltac:(lia))
    as [Hframe Hcoherent].
  split; [exact Hframe | ].
  apply Hcoherent; intros p page Hp; vm_compute in Hp; discriminate Hp.
Defined.

(** ** Replay and the coherence of the caches *)

Lemma cache_coherent_zero_write (pageno : Z) (sh : SlruSharedData) :
  cache_coherent sh ->
  cache_coherent
    {| page_buffer := <[pageno := 0]> (page_buffer sh);
       page_dirty := <[pageno := false]> (<[pageno := true]> (page_dirty sh));
       slru_file := <[pageno := 0]> (slru_file sh) |}.
Proof.
  intros Hco p pg. simpl.
  destruct (decide (p = pageno)) as [-> | Hne].
  - rewrite !lookup_insert_eq. auto.
  - rewrite !lookup_insert_ne by congruence. apply Hco.
Qed.

Section RedoCoherence.
Context (cfg : Config).
Hypothesis Hcfg : config_ok cfg.

(** The stores at the end of the replay of a create record are the
    ones [RecordNewMultiXact] leaves. *)
Lemma multixact_redo_create_stores (lsn : Z) (record : XLogRecord)
    (xlrec : xl_multixact_create) (st : State) :
  record_info cfg record = cfg_XLOG_MULTIXACT_CREATE_ID cfg ->
  XLogRecGetData record = DataCreate xlrec ->
  let st' := final_state (multixact_redo cfg lsn record st) in
  let st1 :=
    final_state (RecordNewMultiXact cfg (mid xlrec) (moff xlrec) (members xlrec) st) in
  (st' = st \/
   (MultiXactOffsetCtlData st' = MultiXactOffsetCtlData st1 /\
    MultiXactMemberCtlData st' = MultiXactMemberCtlData st1 /\
    MultiXactState st' = MultiXactState st1 /\
    calls st' = calls st1)).
Proof.
  intros Hinfo Hdata. cbv zeta.
  rewrite (multixact_redo_create_eq cfg Hcfg lsn record xlrec st Hinfo Hdata).
  destruct (cfg_USE_ASSERT_CHECKING cfg && _); [left; reflexivity | right].
  destruct (RecordNewMultiXact cfg _ _ _ st) as [[] st1 | f st1]; [ | auto].
  rewrite MultiXactAdvanceNextMXact_eq.
  destruct (MultiXactState st1) as [ms | ]; [ | auto].
  destruct (_ || _); [auto | ].
  destruct (TransactionIdFollowsOrEquals cfg _ _); auto.
Qed.

(** X12.  However the replay of a record ends, and whatever its kind,
    a cache in which every resident page was dirty or equal to its file
    image is still such a cache afterwards. *)
Theorem multixact_redo_keeps_caches_coherent (lsn : Z) (record : XLogRecord)
    (st : State) :
  (forall xlrec, XLogRecGetData record = DataCreate xlrec ->
     0 <= mid xlrec < 2 ^ 32 /\ 0 <= moff xlrec < 2 ^ 32) ->
  cache_coherent (MultiXactOffsetCtlData st) ->
  cache_coherent (MultiXactMemberCtlData st) ->
  cache_coherent (MultiXactOffsetCtlData (final_state (multixact_redo cfg lsn record st))) /\
  cache_coherent (MultiXactMemberCtlData (final_state (multixact_redo cfg lsn record st))).
Proof.
  intros Hrange Hco Hcm.
  destruct (Z.eqb_spec (record_info cfg record) (cfg_XLOG_MULTIXACT_CREATE_ID cfg))
    as [Hcreate | Hother].
  - destruct (XLogRecGetData record) as [pageno | xlrec] eqn:Hdata.
    + remember (multixact_redo cfg lsn record st) as o eqn:Ho.
      unfold record_info in Hcreate. destruct Hcfg as (_ & _ & _ & _ & Hne1 & Hne2).
      unfold multixact_redo in Ho. cbv zeta in Ho.
      unfold bind at 1 in Ho. unfold Assert at 1 in Ho.
      destruct (cfg_USE_ASSERT_CHECKING cfg && _); [subst o; split; assumption | ].
      rewrite Hcreate in Ho.
      destruct (Z.eqb_spec (cfg_XLOG_MULTIXACT_CREATE_ID cfg)
                  (cfg_XLOG_MULTIXACT_ZERO_OFF_PAGE cfg)); [congruence | ].
      destruct (Z.eqb_spec (cfg_XLOG_MULTIXACT_CREATE_ID cfg)
                  (cfg_XLOG_MULTIXACT_ZERO_MEM_PAGE cfg)); [congruence | ].
      rewrite Z.eqb_refl in Ho. unfold record_create in Ho. rewrite Hdata in Ho.
      subst o. split; assumption.
    + destruct (Hrange xlrec eq_refl) as [Hm Hoff].
      destruct (multixact_redo_create_stores lsn record xlrec st Hcreate Hdata)
        as [-> | (-> & -> & _)]; [split; assumption | ].
      apply (RecordNewMultiXact_final_state cfg Hcfg
               (fun s => cache_coherent (MultiXactOffsetCtlData s) /\
                         cache_coherent (MultiXactMemberCtlData s)));
        try assumption.
      * intros s ctl pageno HP. exact HP.
      * intros s ctl pageno page [Ho Hme] _.
        destruct ctl; simpl; split; try assumption;
          apply cache_coherent_touch_page; assumption.
      * split; assumption.
  - unfold record_info in Hother.
    remember (multixact_redo cfg lsn record st) as o eqn:Ho.
    unfold multixact_redo in Ho. cbv zeta in Ho.
    unfold bind at 1 in Ho. unfold Assert at 1 in Ho.
    destruct (cfg_USE_ASSERT_CHECKING cfg && _); [subst o; split; assumption | ].
    destruct (_ =? cfg_XLOG_MULTIXACT_ZERO_OFF_PAGE cfg).
    + unfold bind, ZeroMultiXactOffsetPage, SimpleLruZeroPage, SimpleLruWritePage,
        Assert, ret, slot_is_dirty, bind in Ho. cbv zeta in Ho.
      rewrite !shared_log_call, !shared_set_shared in Ho. cbn [page_buffer] in Ho.
      rewrite lookup_insert_eq in Ho.
      destruct (cfg_USE_ASSERT_CHECKING cfg && _); subst o; simpl;
        (split; [apply cache_coherent_zero_write | ]; assumption).
    + destruct (_ =? cfg_XLOG_MULTIXACT_ZERO_MEM_PAGE cfg).
      * unfold bind, ZeroMultiXactMemberPage, SimpleLruZeroPage, SimpleLruWritePage,
          Assert, ret, slot_is_dirty, bind in Ho. cbv zeta in Ho.
        rewrite !shared_log_call, !shared_set_shared in Ho. cbn [page_buffer] in Ho.
        rewrite lookup_insert_eq in Ho.
        destruct (cfg_USE_ASSERT_CHECKING cfg && _); subst o; simpl;
          (split; [ | apply cache_coherent_zero_write]; assumption).
      * destruct (Z.eqb_spec (u8 (Z.land (xl_info record) (Z.lnot (cfg_XLR_INFO_MASK cfg))))
                    (cfg_XLOG_MULTIXACT_CREATE_ID cfg)) as [Heq | _];
          [contradiction | ].
        subst o. split; assumption.
Qed.

End RedoCoherence.

Lemma multixact_redo_keeps_caches_coherent_sample :
  cache_coherent
    (MultiXactOffsetCtlData
       (final_state (multixact_redo pg_default 0 create_record fresh_state))) /\
  cache_coherent
    (MultiXactMemberCtlData
       (final_state (multixact_redo pg_default 0 create_record fresh_state))).
Proof.
  apply multixact_redo_keeps_caches_coherent.
  - solve_config_ok.
  - intros xlrec Hdata. injection Hdata as <-. simpl. lia.
  - intros p page Hp. vm_compute in Hp. discriminate Hp.
  - intros p page Hp. vm_compute in Hp. discriminate Hp.
Defined.

(** ** Replay of a create record and the counters *)

Section RedoCounters.
Context (cfg : Config).
Hypothesis Hcfg : config_ok cfg.

Lemma no_backup_blocks_assert (record : XLogRecord) :
  no_backup_blocks cfg record ->
  cfg_USE_ASSERT_CHECKING cfg
  && negb (Z.land (xl_info record) (cfg_XLR_BKP_BLOCK_MASK cfg) =? 0) = false.
Proof.
  intros Hbkp. destruct (cfg_USE_ASSERT_CHECKING cfg) eqn:Hon; [ | reflexivity].
  rewrite (Hbkp Hon). reflexivity.
Qed.

(** X13.  Replay of a create record whose pages could be written:
    the counters are looked at only afterwards.  With the state pointer
    null the replay ends in a memory fault, with a counter behind the
    record it ends in the exit "not implemented"; in both cases the
    pages written stay written.  Otherwise the replay completes, and
    the next transaction id is decided against the value it had before
    the replay. *)
Theorem multixact_redo_create_exits_after_writing (lsn : Z) (record : XLogRecord)
    (xlrec : xl_multixact_create) (st st1 : State) :
  record_info cfg record = cfg_XLOG_MULTIXACT_CREATE_ID cfg ->
  XLogRecGetData record = DataCreate xlrec ->
  no_backup_blocks cfg record ->
  0 <= mid xlrec < 2 ^ 32 -> 0 <= moff xlrec < 2 ^ 32 ->
  RecordNewMultiXact cfg (mid xlrec) (moff xlrec) (members xlrec) st = Ok tt st1 ->
  multixact_redo cfg lsn record st =
    match MultiXactState st with
    | None => Stop MemoryFault st1
    | Some ms =>
        if MultiXactIdPrecedes (nextMXact ms) (u32 (mid xlrec + 1))
           || MultiXactOffsetPrecedes (nextOffset ms) (u32 (moff xlrec + nmembers xlrec))
        then Stop (ExitFailure "not implemented" None) st1
        else
          Ok tt
             (if TransactionIdFollowsOrEquals cfg
                   (record_max_xid cfg (xl_xid record) (members xlrec))
                   (ShmemVariableCache_nextXid st)
              then set_nextXid
                     (TransactionIdAdvance cfg
                        (record_max_xid cfg (xl_xid record) (members xlrec))) st1
              else st1)
    end.
Proof.
  intros Hinfo Hdata Hbkp Hm Hoff Hrun.
  rewrite (multixact_redo_create_eq cfg Hcfg lsn record xlrec st Hinfo Hdata).
  rewrite (no_backup_blocks_assert record Hbkp), Hrun.
  destruct (RecordNewMultiXact_counters cfg Hcfg (mid xlrec) (moff xlrec)
              (members xlrec) st Hm Hoff) as [Hs Hx].
  rewrite Hrun in Hs, Hx. simpl in Hs, Hx.
  rewrite MultiXactAdvanceNextMXact_eq, Hs.
  destruct (MultiXactState st) as [ms | ]; [ | reflexivity].
  destruct (_ || _); [reflexivity | ]. rewrite Hx. reflexivity.
Qed.

(** X14.  Nothing in [multixact_redo] assigns the state pointer: it is
    after the replay what it was before, whatever the record and
    however the replay ends.  While the pointer is null, the replay of
    a create record never completes. *)
Theorem multixact_redo_never_sets_MultiXactState (lsn : Z) (record : XLogRecord)
    (st : State) :
  (forall xlrec, XLogRecGetData record = DataCreate xlrec ->
     0 <= mid xlrec < 2 ^ 32 /\ 0 <= moff xlrec < 2 ^ 32) ->
  MultiXactState (final_state (multixact_redo cfg lsn record st)) = MultiXactState st /\
  (MultiXactState st = None ->
   record_info cfg record = cfg_XLOG_MULTIXACT_CREATE_ID cfg ->
   forall st', multixact_redo cfg lsn record st <> Ok tt st').
Proof.
  intros Hrange. split.
  - destruct (Z.eqb_spec (record_info cfg record) (cfg_XLOG_MULTIXACT_CREATE_ID cfg))
      as [Hcreate | Hother];
      [ | apply (multixact_redo_counters cfg lsn record st Hother)].
    destruct (XLogRecGetData record) as [pageno | xlrec] eqn:Hdata.
    + remember (multixact_redo cfg lsn record st) as o eqn:Ho.
      unfold record_info in Hcreate. destruct Hcfg as (_ & _ & _ & _ & Hne1 & Hne2).
      unfold multixact_redo in Ho. cbv zeta in Ho.
      unfold bind at 1 in Ho. unfold Assert at 1 in Ho.
      destruct (cfg_USE_ASSERT_CHECKING cfg && _); [subst o; reflexivity | ].
      rewrite Hcreate in Ho.
      destruct (Z.eqb_spec (cfg_XLOG_MULTIXACT_CREATE_ID cfg)
                  (cfg_XLOG_MULTIXACT_ZERO_OFF_PAGE cfg)); [congruence | ].
      destruct (Z.eqb_spec (cfg_XLOG_MULTIXACT_CREATE_ID cfg)
                  (cfg_XLOG_MULTIXACT_ZERO_MEM_PAGE cfg)); [congruence | ].
      rewrite Z.eqb_refl in Ho. unfold record_create in Ho. rewrite Hdata in Ho.
      subst o. reflexivity.
    + destruct (Hrange xlrec eq_refl) as [Hm Hoff].
      destruct (multixact_redo_create_stores cfg Hcfg lsn record xlrec st Hcreate Hdata)
        as [-> | (_ & _ & -> & _)]; [reflexivity | ].
      apply (RecordNewMultiXact_counters cfg Hcfg); assumption.
  - intros Hnull Hcreate st' Hrun.
    destruct (XLogRecGetData record) as [pageno | xlrec] eqn:Hdata.
    + unfold record_info in Hcreate. destruct Hcfg as (_ & _ & _ & _ & Hne1 & Hne2).
      unfold multixact_redo in Hrun. cbv zeta in Hrun.
      unfold bind at 1 in Hrun. unfold Assert at 1 in Hrun.
      destruct (cfg_USE_ASSERT_CHECKING cfg && _); [discriminate Hrun | ].
      rewrite Hcreate in Hrun.
      destruct (Z.eqb_spec (cfg_XLOG_MULTIXACT_CREATE_ID cfg)
                  (cfg_XLOG_MULTIXACT_ZERO_OFF_PAGE cfg)); [congruence | ].
      destruct (Z.eqb_spec (cfg_XLOG_MULTIXACT_CREATE_ID cfg)
                  (cfg_XLOG_MULTIXACT_ZERO_MEM_PAGE cfg)); [congruence | ].
      rewrite Z.eqb_refl in Hrun. unfold record_create in Hrun. rewrite Hdata in Hrun.
      discriminate Hrun.
    + destruct (Hrange xlrec eq_refl) as [Hm Hoff].
      rewrite (multixact_redo_create_eq cfg Hcfg lsn record xlrec st Hcreate Hdata) in Hrun.
      destruct (cfg_USE_ASSERT_CHECKING cfg && _); [discriminate Hrun | ].
      destruct (RecordNewMultiXact_counters cfg Hcfg (mid xlrec) (moff xlrec)
                  (members xlrec) st Hm Hoff) as [Hs _].
      destruct (RecordNewMultiXact cfg _ _ _ st) as [[] st1 | ]; [ | discriminate Hrun].
      simpl in Hs. rewrite MultiXactAdvanceNextMXact_eq, Hs, Hnull in Hrun.
      discriminate Hrun.
Qed.

End RedoCounters.

Lemma multixact_redo_create_exits_after_writing_sample :
  exists st1,
    multixact_redo pg_default 0 create_record early_state
    = Stop (ExitFailure "not implemented" None) st1 /\
    read_offset pg_default (MultiXactOffsetCtlData st1) 1 = Some 0.
Proof.
  destruct (RecordNewMultiXact pg_default 1 0 two_members early_state)
    as [[] st1 | f st1] eqn:Hrun; [ | vm_compute in Hrun; discriminate Hrun].
  exists st1. split.
  - rewrite (multixact_redo_create_exits_after_writing pg_default ltac:(solve_config_ok)
               0 create_record {| mid := 1; moff := 0; members := two_members |}
               early_state st1 eq_refl eq_refl
               ltac:(intros Hon; discriminate Hon) ltac:(simpl; lia) ltac:(simpl; lia) Hrun).
    reflexivity.
  - vm_compute in Hrun. injection Hrun as <-. vm_compute. reflexivity.
Defined.

Lemma multixact_redo_never_sets_MultiXactState_sample :
  MultiXactState (final_state (multixact_redo pg_default 0 create_record fresh_state))
  = MultiXactState fresh_state /\
  forall st', multixact_redo pg_default 0 create_record hack_state <> Ok tt st'.
Proof.
  split.
  - apply (multixact_redo_never_sets_MultiXactState pg_default ltac:(solve_config_ok)).
    intros xlrec Hdata. injection Hdata as <-. simpl. lia.
  - apply (multixact_redo_never_sets_MultiXactState pg_default ltac:(solve_config_ok)
             0 create_record hack_state);
      [intros xlrec Hdata; injection Hdata as <-; simpl; lia | reflexivity | reflexivity].
Defined.


(** ** The latest transaction id of a record *)

Section MaxXid.
Context (cfg : Config).

Lemma TransactionIdPrecedes_irreflexive (x : Z) : TransactionIdPrecedes cfg x x = false.
Proof.
  unfold TransactionIdPrecedes. destruct (_ || _); [apply Z.ltb_irrefl | ].
  cbv zeta. rewrite Z.sub_diag. reflexivity.
Qed.

(** One step of the loop keeps a normal id normal and replaces a
    reserved one by any normal one. *)
Lemma max_xid_step_normal (x y : Z) :
  TransactionIdIsNormal cfg (if TransactionIdPrecedes cfg x y then y else x)
  = TransactionIdIsNormal cfg x || TransactionIdIsNormal cfg y.
Proof.
  unfold TransactionIdPrecedes, TransactionIdIsNormal.
  destruct (Z.leb_spec (cfg_FirstNormalTransactionId cfg) x) as [Hx | Hx],
    (Z.leb_spec (cfg_FirstNormalTransactionId cfg) y) as [Hy | Hy]; simpl.
  - destruct (_ <? 0); apply Z.leb_le; assumption.
  - destruct (Z.ltb_spec x y); [lia | ]. apply Z.leb_le; assumption.
  - destruct (Z.ltb_spec x y); [ | lia]. apply Z.leb_le; assumption.
  - destruct (Z.ltb_spec x y); apply Z.leb_gt; assumption.
Qed.

Lemma record_max_xid_cons (xl_xid : Z) (member : MultiXactMember)
    (members : list MultiXactMember) :
  record_max_xid cfg xl_xid (member :: members)
  = record_max_xid cfg
      (if TransactionIdPrecedes cfg xl_xid (xid member) then xid member else xl_xid)
      members.
Proof. reflexivity. Qed.

Lemma record_max_xid_snoc (xl_xid : Z) (members : list MultiXactMember)
    (member : MultiXactMember) :
  record_max_xid cfg xl_xid (members ++ [member])
  = if TransactionIdPrecedes cfg (record_max_xid cfg xl_xid members) (xid member)
    then xid member else record_max_xid cfg xl_xid members.
Proof. unfold record_max_xid. rewrite fold_left_app. reflexivity. Qed.

(** X16.  The id the loop of [multixact_redo] ends with is the
    record's own transaction id or the id of one of its members; it is
    a normal id as soon as one of these is; and it does not precede the
    id of the last member. *)
Theorem record_max_xid_is_a_record_id (xl_xid : Z) (members : list MultiXactMember) :
  In (record_max_xid cfg xl_xid members) (xl_xid :: map xid members) /\
  TransactionIdIsNormal cfg (record_max_xid cfg xl_xid members)
  = existsb (TransactionIdIsNormal cfg) (xl_xid :: map xid members) /\
  forall members' member,
    members = members' ++ [member] ->
    TransactionIdPrecedes cfg (record_max_xid cfg xl_xid members) (xid member) = false.
Proof.
  split; [ | split].
  - revert xl_xid. induction members as [ | member members0 IH]; intros x.
    + left. reflexivity.
    + rewrite record_max_xid_cons.
      destruct (IH (if TransactionIdPrecedes cfg x (xid member) then xid member else x))
        as [Hhead | Htail].
      * rewrite <- Hhead.
        destruct (TransactionIdPrecedes cfg x (xid member));
          [right; left; reflexivity | left; reflexivity].
      * right. right. exact Htail.
  - revert xl_xid. induction members as [ | member members0 IH]; intros x.
    + simpl. rewrite orb_false_r. reflexivity.
    + rewrite record_max_xid_cons, IH. simpl.
      rewrite max_xid_step_normal, orb_assoc. reflexivity.
  - intros members' member ->. rewrite record_max_xid_snoc.
    destruct (TransactionIdPrecedes cfg (record_max_xid cfg xl_xid members') (xid member))
      eqn:Hp;
      [apply TransactionIdPrecedes_irreflexive | exact Hp].
Qed.

Hypothesis Hcfg : config_ok cfg.

(** X17.  However the replay of a record ends, the next transaction
    id is the one from before, or a normal id: the id one past the
    latest id of a create record.  When the next transaction id is 0,
    the value the initialisation of this file gives it, and 0 is a
    reserved id, a completed replay of a create record always moves
    it. *)
Theorem multixact_redo_nextXid_kept_or_normal (lsn : Z) (record : XLogRecord)
    (st : State) :
  (forall xlrec, XLogRecGetData record = DataCreate xlrec ->
     0 <= mid xlrec < 2 ^ 32 /\ 0 <= moff xlrec < 2 ^ 32 /\
     0 <= xl_xid record < 2 ^ 32 /\
     Forall (fun member => 0 <= xid member < 2 ^ 32) (members xlrec)) ->
  let st' := final_state (multixact_redo cfg lsn record st) in
  (ShmemVariableCache_nextXid st' = ShmemVariableCache_nextXid st \/
   (TransactionIdIsNormal cfg (ShmemVariableCache_nextXid st') = true /\
    exists xlrec,
      XLogRecGetData record = DataCreate xlrec /\
      ShmemVariableCache_nextXid st'
      = TransactionIdAdvance cfg (record_max_xid cfg (xl_xid record) (members xlrec)))) /\
  (ShmemVariableCache_nextXid st = 0 -> 0 < cfg_FirstNormalTransactionId cfg ->
   forall xlrec st1,
     record_info cfg record = cfg_XLOG_MULTIXACT_CREATE_ID cfg ->
     XLogRecGetData record = DataCreate xlrec ->
     multixact_redo cfg lsn record st = Ok tt st1 ->
     ShmemVariableCache_nextXid st1
     = TransactionIdAdvance cfg (record_max_xid cfg (xl_xid record) (members xlrec))).
Proof.
  intros Hrange st'. subst st'.
  assert (Hcreate_case :
    forall xlrec,
      record_info cfg record = cfg_XLOG_MULTIXACT_CREATE_ID cfg ->
      XLogRecGetData record = DataCreate xlrec ->
      let st' := final_state (multixact_redo cfg lsn record st) in
      ShmemVariableCache_nextXid st' = ShmemVariableCache_nextXid st \/
      ShmemVariableCache_nextXid st'
      = TransactionIdAdvance cfg (record_max_xid cfg (xl_xid record) (members xlrec))).
  { intros xlrec Hcreate Hdata. cbv zeta.
    destruct (Hrange xlrec Hdata) as (Hm & Hoff & _).
    rewrite (multixact_redo_create_eq cfg Hcfg lsn record xlrec st Hcreate Hdata).
    destruct (cfg_USE_ASSERT_CHECKING cfg && _); [left; reflexivity | ].
    destruct (RecordNewMultiXact_counters cfg Hcfg (mid xlrec) (moff xlrec)
                (members xlrec) st Hm Hoff) as [_ Hx].
    destruct (RecordNewMultiXact cfg _ _ _ st) as [[] st1 | f st1];
      [ | left; exact Hx].
    simpl in Hx. rewrite MultiXactAdvanceNextMXact_eq.
    destruct (MultiXactState st1) as [ms | ]; [ | left; exact Hx].
    destruct (_ || _); [left; exact Hx | ].
    destruct (TransactionIdFollowsOrEquals cfg _ _);
      [right; reflexivity | left; exact Hx]. }
  split.
  - destruct (Z.eqb_spec (record_info cfg record) (cfg_XLOG_MULTIXACT_CREATE_ID cfg))
      as [Hcreate | Hother];
      [ | left; apply (multixact_redo_counters cfg lsn record st Hother)].
    destruct (XLogRecGetData record) as [pageno | xlrec] eqn:Hdata.
    + left. remember (multixact_redo cfg lsn record st) as o eqn:Ho.
      unfold record_info in Hcreate. destruct Hcfg as (_ & _ & _ & _ & Hne1 & Hne2).
      unfold multixact_redo in Ho. cbv zeta in Ho.
      unfold bind at 1 in Ho. unfold Assert at 1 in Ho.
      destruct (cfg_USE_ASSERT_CHECKING cfg && _); [subst o; reflexivity | ].
      rewrite Hcreate in Ho.
      destruct (Z.eqb_spec (cfg_XLOG_MULTIXACT_CREATE_ID cfg)
                  (cfg_XLOG_MULTIXACT_ZERO_OFF_PAGE cfg)); [congruence | ].
      destruct (Z.eqb_spec (cfg_XLOG_MULTIXACT_CREATE_ID cfg)
                  (cfg_XLOG_MULTIXACT_ZERO_MEM_PAGE cfg)); [congruence | ].
      rewrite Z.eqb_refl in Ho. unfold record_create in Ho. rewrite Hdata in Ho.
      subst o. reflexivity.
    + destruct (Hcreate_case xlrec Hcreate eq_refl) as [Hsame | Hadv].
      * left. exact Hsame.
      * right. rewrite Hadv. split; [apply TransactionIdAdvance_normal | ].
        exists xlrec. split; reflexivity.
  - intros Hzero Hfirst xlrec st2 Hcreate Hdata Hrun.
    destruct (Hrange xlrec Hdata) as (Hm & Hoff & Hx & Hxs).
    pose proof (record_max_xid_range cfg (members xlrec) (xl_xid record) Hx Hxs) as Hmax.
    assert (Hfollows :
      TransactionIdFollowsOrEquals cfg
        (record_max_xid cfg (xl_xid record) (members xlrec)) 0 = true).
    { unfold TransactionIdFollowsOrEquals, TransactionIdIsNormal.
      destruct (Z.leb_spec (cfg_FirstNormalTransactionId cfg) 0); [lia | ].
      rewrite orb_true_r. apply Z.leb_le. lia. }
    rewrite (multixact_redo_create_eq cfg Hcfg lsn record xlrec st Hcreate Hdata) in Hrun.
    destruct (cfg_USE_ASSERT_CHECKING cfg && _); [discriminate Hrun | ].
    destruct (RecordNewMultiXact_counters cfg Hcfg (mid xlrec) (moff xlrec)
                (members xlrec) st Hm Hoff) as [_ Hnext].
    destruct (RecordNewMultiXact cfg _ _ _ st) as [[] st1 | f st1];
      [ | discriminate Hrun].
    simpl in Hnext. rewrite MultiXactAdvanceNextMXact_eq in Hrun.
    destruct (MultiXactState st1) as [ms | ]; [ | discriminate Hrun].
    destruct (_ || _); [discriminate Hrun | ].
    rewrite Hnext, Hzero, Hfollows in Hrun. injection Hrun as <-. reflexivity.
Qed.

End MaxXid.

Lemma multixact_redo_nextXid_kept_or_normal_sample :
  ShmemVariableCache_nextXid
    (final_state (multixact_redo pg_default 0 create_record (set_nextXid 0 fresh_state)))
  = 10.
Proof.
  destruct (multixact_redo_nextXid_kept_or_normal pg_default ltac:(solve_config_ok)
              0 create_record (set_nextXid 0 fresh_state)) as [_ Hinit].
  - intros xlrec Hdata. injection Hdata as <-. simpl.
    repeat split; try lia. repeat constructor; simpl; lia.
  - assert (Hrun : exists st1,
              multixact_redo pg_default 0 create_record (set_nextXid 0 fresh_state)
              = Ok tt st1) by (vm_compute; eexists; reflexivity).
    destruct Hrun as [st1 Hrun]. rewrite Hrun. simpl.
    rewrite (Hinit eq_refl ltac:(simpl; lia)
               {| mid := 1; moff := 0; members := two_members |} st1
               eq_refl eq_refl Hrun).
    reflexivity.
Defined.

(** ** Zeroing a page: logging and replay *)

Lemma SlruSharedData_eq (sh sh' : SlruSharedData) :
  page_buffer sh = page_buffer sh' -> page_dirty sh = page_dirty sh' ->
  slru_file sh = slru_file sh' -> sh = sh'.
Proof. destruct sh, sh'. simpl. intros -> -> ->. reflexivity. Qed.

(** Zeroing and writing a page that has just been zeroed and written
    leaves the store as it is. *)
Lemma page_zeroed_and_written_twice (ctl : SlruCtl) (pageno : Z) (st st1 st2 : State) :
  page_zeroed_and_written ctl pageno st st1 ->
  page_zeroed_and_written ctl pageno st1 st2 ->
  MultiXactOffsetCtlData st2 = MultiXactOffsetCtlData st1 /\
  MultiXactMemberCtlData st2 = MultiXactMemberCtlData st1.
Proof.
  intros (Hb1 & Hf1 & Hd1 & _) (Hb2 & Hf2 & Hd2 & Hrest & Hother & _).
  assert (Hsame : shared ctl st2 = shared ctl st1).
  { apply SlruSharedData_eq; apply map_eq; intros p;
      (destruct (decide (p = pageno)) as [-> | Hne];
       [congruence | apply (Hrest p Hne)]). }
  destruct ctl; simpl in Hsame.
  - split; [exact Hsame | ]. apply (Hother MultiXactMemberCtl). discriminate.
  - split; [ | exact Hsame]. apply (Hother MultiXactOffsetCtl). discriminate.
Qed.

Section ZeroPages.
Context (cfg : Config).
Hypothesis Hcfg : config_ok cfg.

(** X18.  Zeroing a page with [writeXlog] set returns the page's slot
    after exactly two calls, the zeroing and one log insert, and leaves
    the counters and the other store alone; without [writeXlog] nothing
    is logged.  When the kind of the record survives the info mask and
    has no backup-block bit, the replay of the logged record, in any
    state, zeroes the same page of the same store and writes it out:
    the page reads back there as it does after the logged call. *)
Theorem zero_page_log_replays (ctl : SlruCtl) (pageno : Z) (st : State) :
  - 2 ^ 31 <= pageno < 2 ^ 31 ->
  u8 (Z.land (zero_page_kind cfg ctl) (Z.lnot (cfg_XLR_INFO_MASK cfg))) = zero_page_kind cfg ctl ->
  (cfg_USE_ASSERT_CHECKING cfg = true ->
   Z.land (zero_page_kind cfg ctl) (cfg_XLR_BKP_BLOCK_MASK cfg) = 0) ->
  exists st0 st1 e,
    ZeroMultiXactPage cfg ctl pageno false st = Ok pageno st0 /\
    calls st0 = calls st ++ [EvSimpleLruZeroPage ctl pageno] /\
    ZeroMultiXactPage cfg ctl pageno true st = Ok pageno st1 /\
    calls st1 = calls st0 ++ [e] /\
    e = EvXLogInsert (zero_page_kind cfg ctl) pageno /\
    shared ctl st1 = shared ctl st0 /\
    page_view (shared ctl st1) pageno = Some 0 /\
    page_dirty (shared ctl st1) !! pageno = Some true /\
    (forall c, c <> ctl -> shared c st1 = shared c st) /\
    MultiXactState st1 = MultiXactState st /\
    ShmemVariableCache_nextXid st1 = ShmemVariableCache_nextXid st /\
    forall xl_xid lsn st2,
    exists record st3,
      logged_record xl_xid e = Some record /\
      multixact_redo cfg lsn record st2 = Ok tt st3 /\
      page_zeroed_and_written ctl pageno st2 st3 /\
      page_view (shared ctl st3) pageno = page_view (shared ctl st1) pageno.
Proof.
  intros Hint Hkind Hbkp.
  assert (Hs32 : s32 pageno = pageno)
    by (apply s32_congruent; [rewrite Z.sub_diag; reflexivity | lia]).
  assert (Hview : forall sh : SlruSharedData,
             page_buffer sh !! pageno = Some 0 -> page_view sh pageno = Some 0).
  { intros sh Hres. unfold page_view. rewrite Hres. reflexivity. }
  assert (Hredo : forall xl_xid lsn st2 st1,
             page_view (shared ctl st1) pageno = Some 0 ->
             exists record st3,
               logged_record xl_xid (EvXLogInsert (zero_page_kind cfg ctl) pageno) = Some record /\
               multixact_redo cfg lsn record st2 = Ok tt st3 /\
               page_zeroed_and_written ctl pageno st2 st3 /\
               page_view (shared ctl st3) pageno = page_view (shared ctl st1) pageno).
  { intros xl_xid lsn st2 st1 Hst1.
    set (record := {| xl_info := zero_page_kind cfg ctl; xl_xid := xl_xid;
                      XLogRecGetData := DataPageno pageno |}).
    destruct (multixact_redo_zero cfg Hcfg ctl lsn record st2) as (st3 & Hrun & Hzero).
    - exact Hbkp.
    - exact Hkind.
    - exists record, st3. unfold record_pageno in Hzero. simpl in Hzero.
      rewrite Hs32 in Hzero.
      split; [reflexivity | ]. split; [exact Hrun | ]. split; [exact Hzero | ].
      rewrite Hst1. apply Hview. apply Hzero. }
  destruct ctl.
  - eexists _, _, _. split; [reflexivity | ]. split; [reflexivity | ].
    split; [reflexivity | ]. split; [reflexivity | ]. split; [reflexivity | ].
    split; [reflexivity | ].
    assert (Hzeroed :
      page_view (shared MultiXactOffsetCtl
                   (final_state (ZeroMultiXactOffsetPage cfg pageno true st))) pageno
      = Some 0).
    { apply Hview. simpl. apply lookup_insert_eq. }
    split; [exact Hzeroed | ]. split; [simpl; apply lookup_insert_eq | ].
    split; [intros c Hc; destruct c; [congruence | reflexivity] | ].
    split; [reflexivity | ]. split; [reflexivity | ].
    intros xl_xid lsn st2. apply (Hredo xl_xid lsn st2 _ Hzeroed).
  - eexists _, _, _. split; [reflexivity | ]. split; [reflexivity | ].
    split; [reflexivity | ]. split; [reflexivity | ]. split; [reflexivity | ].
    split; [reflexivity | ].
    assert (Hzeroed :
      page_view (shared MultiXactMemberCtl
                   (final_state (ZeroMultiXactMemberPage cfg pageno true st))) pageno
      = Some 0).
    { apply Hview. simpl. apply lookup_insert_eq. }
    split; [exact Hzeroed | ]. split; [simpl; apply lookup_insert_eq | ].
    split; [intros c Hc; destruct c; [reflexivity | congruence] | ].
    split; [reflexivity | ]. split; [reflexivity | ].
    intros xl_xid lsn st2. apply (Hredo xl_xid lsn st2 _ Hzeroed).
Qed.

(** X19.  Replaying a zero-page record twice is replaying it once: the
    second replay completes and leaves both stores as the first left
    them. *)
Theorem zero_page_redo_idempotent (ctl : SlruCtl) (lsn : Z) (record : XLogRecord)
    (st st1 : State) :
  no_backup_blocks cfg record ->
  record_info cfg record = zero_page_kind cfg ctl ->
  multixact_redo cfg lsn record st = Ok tt st1 ->
  exists st2,
    multixact_redo cfg lsn record st1 = Ok tt st2 /\
    MultiXactOffsetCtlData st2 = MultiXactOffsetCtlData st1 /\
    MultiXactMemberCtlData st2 = MultiXactMemberCtlData st1 /\
    MultiXactState st2 = MultiXactState st1 /\
    ShmemVariableCache_nextXid st2 = ShmemVariableCache_nextXid st1.
Proof.
  intros Hbkp Hkind Hrun.
  destruct (multixact_redo_zero cfg Hcfg ctl lsn record st Hbkp Hkind)
    as (st1' & Hrun1 & Hzero1).
  rewrite Hrun in Hrun1. injection Hrun1 as <-.
  destruct (multixact_redo_zero cfg Hcfg ctl lsn record st1 Hbkp Hkind)
    as (st2 & Hrun2 & Hzero2).
  exists st2. split; [exact Hrun2 | ].
  destruct (page_zeroed_and_written_twice ctl _ st st1 st2 Hzero1 Hzero2) as [Ho Hm].
  split; [exact Ho | ]. split; [exact Hm | ].
  destruct Hzero2 as (_ & _ & _ & _ & _ & Hs & Hx & _). split; assumption.
Qed.

End ZeroPages.

Lemma zero_page_log_replays_sample :
  exists st1 record st3,
    ZeroMultiXactPage pg_cassert MultiXactMemberCtl 3 true fresh_state = Ok 3 st1 /\
    logged_record 7 (EvXLogInsert 16 3) = Some record /\
    multixact_redo pg_cassert 0 record early_state = Ok tt st3 /\
    page_view (MultiXactMemberCtlData st3) 3 = page_view (MultiXactMemberCtlData st1) 3.
Proof.
  destruct (zero_page_log_replays pg_cassert ltac:(solve_config_ok)
              MultiXactMemberCtl 3 fresh_state ltac:(lia) eq_refl ltac:(reflexivity))
    as (st0 & st1 & e & _ & _ & Hlog & _ & -> & _ & _ & _ & _ & _ & _ & Hreplay).
  destruct (Hreplay 7 0 early_state) as (record & st3 & Hrecord & Hrun & _ & Hview).
  exists st1, record, st3. auto.
Defined.

Lemma zero_page_redo_idempotent_sample :
  exists st2,
    multixact_redo pg_cassert 0 zero_member_record
      (final_state (multixact_redo pg_cassert 0 zero_member_record fresh_state))
    = Ok tt st2 /\
    MultiXactOffsetCtlData st2
    = MultiXactOffsetCtlData
        (final_state (multixact_redo pg_cassert 0 zero_member_record fresh_state)) /\
    MultiXactMemberCtlData st2
    = MultiXactMemberCtlData
        (final_state (multixact_redo pg_cassert 0 zero_member_record fresh_state)).
Proof.
  destruct (zero_page_redo_idempotent pg_cassert ltac:(solve_config_ok)
              MultiXactMemberCtl 0 zero_member_record fresh_state
              (final_state (multixact_redo pg_cassert 0 zero_member_record fresh_state)))
    as (st2 & Hrun & Ho & Hm & _).
  - intros _. reflexivity.
  - reflexivity.
  - vm_compute. reflexivity.
  - exists st2. auto.
Defined.
